(** * Archival IIIF server: access policy, EAD metadata resolver, service dispatcher

    A shallow embedding of the parts of the server that decide something:
    - [Niod.hasAccess]      (src/service/niod/access.ts),
    - [Ead.getMetadata], [Ead.getAccess] and their helpers (the EAD reader),
    - [Dispatcher.initService] (the start-up loop over [servicesRunning]).

    Strings are byte strings: the UTF-8 encoding of the JavaScript string,
    which is also what libxml2 and the MD5 digest work on.  The white space
    of [trim] and [parseInt] is the white space of ECMAScript in that
    encoding; [toLowerCase] changes the letters whose lower case holds an
    ASCII letter and leaves the others, which no comparison with an ASCII
    word can tell. *)

From Stdlib Require Import ZArith List Bool Ascii String Lia Permutation.
Import ListNotations.

Local Open Scope string_scope.

(* ================================================================== *)
(** * Part I: definitions                                              *)
(* ================================================================== *)

(** ** JavaScript and XPath string primitives *)
Module Str.

Definition code (c : ascii) : nat := nat_of_ascii c.

(** The string of the bytes with the given codes. *)
Fixpoint bytes (codes : list nat) : string :=
  match codes with
  | [] => EmptyString
  | n :: r => String (ascii_of_nat n) (bytes r)
  end.

Definition lower_char (c : ascii) : ascii :=
  if andb (Nat.leb 65 (code c)) (Nat.leb (code c) 90)
  then ascii_of_nat (code c + 32) else c.

(** [String.prototype.toLowerCase].  The letters A to Z, and the two
    characters outside ASCII whose lower case holds an ASCII letter:
    LATIN CAPITAL LETTER I WITH DOT ABOVE (U+0130, bytes C4 B0) becomes i
    followed by COMBINING DOT ABOVE (U+0307, bytes CC 87), and KELVIN SIGN
    (U+212A, bytes E2 84 AA) becomes k.  The lower case of every other
    character lies outside ASCII, as the character does; it is left as it
    is. *)
Fixpoint toLowerCase (s : string) : string :=
  match s with
  | EmptyString => EmptyString
  | String a r1 =>
      match r1 with
      | EmptyString => String (lower_char a) EmptyString
      | String b r2 =>
          if andb (Nat.eqb (code a) 196) (Nat.eqb (code b) 176)
          then String "i" (bytes [204; 135] ++ toLowerCase r2)
          else
            match r2 with
            | EmptyString => String (lower_char a) (toLowerCase r1)
            | String c r3 =>
                if andb (Nat.eqb (code a) 226)
                     (andb (Nat.eqb (code b) 132) (Nat.eqb (code c) 170))
                then String "k" (toLowerCase r3)
                else String (lower_char a) (toLowerCase r1)
            end
      end
  end.

(** White space and line terminators of ECMAScript ([WhiteSpace] and
    [LineTerminator], the characters that [trim] and [parseInt] skip), by
    the length of their UTF-8 encoding.  One byte: TAB, LF, VT, FF, CR,
    SPACE. *)
Definition is_js_space (c : ascii) : bool :=
  let n := code c in
  orb (andb (Nat.leb 9 n) (Nat.leb n 13)) (Nat.eqb n 32).

(** Two bytes: NO-BREAK SPACE (U+00A0, C2 A0). *)
Definition is_js_space2 (a b : ascii) : bool :=
  andb (Nat.eqb (code a) 194) (Nat.eqb (code b) 160).

(** Three bytes: OGHAM SPACE MARK (U+1680, E1 9A 80); EN QUAD to HAIR SPACE
    (U+2000 to U+200A, E2 80 80 to E2 80 8A); LINE SEPARATOR and PARAGRAPH
    SEPARATOR (U+2028, U+2029, E2 80 A8 and A9); NARROW NO-BREAK SPACE
    (U+202F, E2 80 AF); MEDIUM MATHEMATICAL SPACE (U+205F, E2 81 9F);
    IDEOGRAPHIC SPACE (U+3000, E3 80 80); ZERO WIDTH NO-BREAK SPACE (U+FEFF,
    EF BB BF). *)
Definition is_js_space3 (a b c : ascii) : bool :=
  let x := code a in
  let y := code b in
  let z := code c in
  if Nat.eqb x 225 then andb (Nat.eqb y 154) (Nat.eqb z 128)
  else if Nat.eqb x 226 then
    orb (andb (Nat.eqb y 128)
           (orb (andb (Nat.leb 128 z) (Nat.leb z 138))
              (orb (Nat.eqb z 168) (orb (Nat.eqb z 169) (Nat.eqb z 175)))))
      (andb (Nat.eqb y 129) (Nat.eqb z 159))
  else if Nat.eqb x 227 then andb (Nat.eqb y 128) (Nat.eqb z 128)
  else if Nat.eqb x 239 then andb (Nat.eqb y 187) (Nat.eqb z 191)
  else false.

(** White space of XML / XPath: SPACE, TAB, CR, LF. *)
Definition is_xml_space (c : ascii) : bool :=
  let n := code c in
  orb (orb (Nat.eqb n 32) (Nat.eqb n 9)) (orb (Nat.eqb n 13) (Nat.eqb n 10)).

(** The white-space characters at the start of a string removed.  With
    [back] the string is read from its end: the bytes of a character come
    in reverse order. *)
Fixpoint dropSpaces (back : bool) (s : string) : string :=
  match s with
  | EmptyString => EmptyString
  | String a r1 =>
      if is_js_space a then dropSpaces back r1
      else
        match r1 with
        | EmptyString => s
        | String b r2 =>
            if (if back then is_js_space2 b a else is_js_space2 a b)
            then dropSpaces back r2
            else
              match r2 with
              | EmptyString => s
              | String c r3 =>
                  if (if back then is_js_space3 c b a else is_js_space3 a b c)
                  then dropSpaces back r3
                  else s
              end
        end
  end.

Fixpoint rev (s : string) : string :=
  match s with
  | EmptyString => EmptyString
  | String c r => rev r ++ String c EmptyString
  end.

(** [String.prototype.trimStart], [trimEnd] and [trim]. *)
Definition trimStart (s : string) : string := dropSpaces false s.

Definition trimEnd (s : string) : string := rev (dropSpaces true (rev s)).

Definition trim (s : string) : string := trimEnd (trimStart s).

(** [String.prototype.includes]. *)
Fixpoint includes (hay needle : string) : bool :=
  if String.prefix needle hay then true
  else match hay with
       | EmptyString => false
       | String _ r => includes r needle
       end.

(** [s.split(sep)] for a one-character separator: never the empty list. *)
Fixpoint split (sep : ascii) (s : string) : list string :=
  match s with
  | EmptyString => [EmptyString]
  | String c r =>
      if Ascii.eqb c sep then EmptyString :: split sep r
      else match split sep r with
           | [] => [String c EmptyString]
           | w :: ws => String c w :: ws
           end
  end.

(** [parts.join(sep)]. *)
Fixpoint join (sep : string) (parts : list string) : string :=
  match parts with
  | [] => EmptyString
  | [w] => w
  | w :: ws => w ++ sep ++ join sep ws
  end.

(** The maximal runs of characters that are not XML white space. *)
Fixpoint words (acc : string) (s : string) : list string :=
  match s with
  | EmptyString => match acc with EmptyString => [] | _ => [rev acc] end
  | String c r =>
      if is_xml_space c
      then match acc with
           | EmptyString => words EmptyString r
           | _ => rev acc :: words EmptyString r
           end
      else words (String c acc) r
  end.

(** XPath [normalize-space()]: leading and trailing white space removed,
    inner runs of white space replaced by one space. *)
Definition normalize_space (s : string) : string :=
  join " " (words EmptyString s).

Definition dquote : ascii := ascii_of_nat 34.

Fixpoint mem_char (c : ascii) (s : string) : bool :=
  match s with
  | EmptyString => false
  | String d r => orb (Ascii.eqb c d) (mem_char c r)
  end.

End Str.

(** ** MD5 (RFC 1321), as [crypto.createHash('md5').update(s).digest('hex')] *)
Module Md5.
Local Open Scope Z_scope.

Definition w32 (x : Z) : Z := Z.land x 0xffffffff.

Definition rotl (x c : Z) : Z :=
  w32 (Z.lor (Z.shiftl x c) (Z.shiftr x (32 - c))).

Definition not32 (x : Z) : Z := Z.lxor x 0xffffffff.

(** The per-round shift amounts. *)
Definition shifts : list Z :=
  [7; 12; 17; 22; 7; 12; 17; 22; 7; 12; 17; 22; 7; 12; 17; 22;
   5; 9; 14; 20; 5; 9; 14; 20; 5; 9; 14; 20; 5; 9; 14; 20;
   4; 11; 16; 23; 4; 11; 16; 23; 4; 11; 16; 23; 4; 11; 16; 23;
   6; 10; 15; 21; 6; 10; 15; 21; 6; 10; 15; 21; 6; 10; 15; 21].

(** [floor (2^32 * abs (sin (i + 1)))] for i = 0 .. 63. *)
Definition sines : list Z :=
  [0xd76aa478; 0xe8c7b756; 0x242070db; 0xc1bdceee;
   0xf57c0faf; 0x4787c62a; 0xa8304613; 0xfd469501;
   0x698098d8; 0x8b44f7af; 0xffff5bb1; 0x895cd7be;
   0x6b901122; 0xfd987193; 0xa679438e; 0x49b40821;
   0xf61e2562; 0xc040b340; 0x265e5a51; 0xe9b6c7aa;
   0xd62f105d; 0x02441453; 0xd8a1e681; 0xe7d3fbc8;
   0x21e1cde6; 0xc33707d6; 0xf4d50d87; 0x455a14ed;
   0xa9e3e905; 0xfcefa3f8; 0x676f02d9; 0x8d2a4c8a;
   0xfffa3942; 0x8771f681; 0x6d9d6122; 0xfde5380c;
   0xa4beea44; 0x4bdecfa9; 0xf6bb4b60; 0xbebfbc70;
   0x289b7ec6; 0xeaa127fa; 0xd4ef3085; 0x04881d05;
   0xd9d4d039; 0xe6db99e5; 0x1fa27cf8; 0xc4ac5665;
   0xf4292244; 0x432aff97; 0xab9423a7; 0xfc93a039;
   0x655b59c3; 0x8f0ccc92; 0xffeff47d; 0x85845dd1;
   0x6fa87e4f; 0xfe2ce6e0; 0xa3014314; 0x4e0811a1;
   0xf7537e82; 0xbd3af235; 0x2ad7d2bb; 0xeb86d391].

Definition bytes_of (s : string) : list Z :=
  map (fun c => Z.of_nat (nat_of_ascii c)) (list_ascii_of_string s).

(** [n] bytes of [x], least significant first. *)
Fixpoint le_bytes (n : nat) (x : Z) : list Z :=
  match n with
  | O => []
  | S k => Z.land x 0xff :: le_bytes k (Z.shiftr x 8)
  end.

Fixpoint le_word (bs : list Z) : Z :=
  match bs with
  | [] => 0
  | b :: r => Z.lor b (Z.shiftl (le_word r) 8)
  end.

(** The message, a one bit, zero bits up to 56 modulo 64 bytes, and the
    length in bits as a 64-bit little-endian number. *)
Definition pad (msg : list Z) : list Z :=
  let len := Z.of_nat (List.length msg) in
  let zeros := Z.to_nat ((55 - len) mod 64) in
  (msg ++ [0x80] ++ repeat 0 zeros
       ++ le_bytes 8 (Z.land (8 * len) 0xffffffffffffffff))%list.

(** Cuts a list into consecutive pieces of [n] elements ([k] pieces at most). *)
Fixpoint chunks {A : Type} (n k : nat) (l : list A) : list (list A) :=
  match k with
  | O => []
  | S k' =>
      match l with
      | [] => []
      | _ => firstn n l :: chunks n k' (skipn n l)
      end
  end.

Record State : Type := { a0 : Z; b0 : Z; c0 : Z; d0 : Z }.

Definition init : State :=
  {| a0 := 0x67452301; b0 := 0xefcdab89; c0 := 0x98badcfe; d0 := 0x10325476 |}.

Definition round (m : list Z) (st : State) (i : Z) : State :=
  let '(Build_State a b c d) := st in
  let '(f, g) :=
    if i <? 16 then (Z.lor (Z.land b c) (Z.land (not32 b) d), i)
    else if i <? 32 then (Z.lor (Z.land d b) (Z.land (not32 d) c), (5 * i + 1) mod 16)
    else if i <? 48 then (Z.lxor b (Z.lxor c d), (3 * i + 5) mod 16)
    else (Z.lxor c (Z.lor b (not32 d)), (7 * i) mod 16) in
  let f' := w32 (f + a + nth (Z.to_nat i) sines 0 + nth (Z.to_nat g) m 0) in
  {| a0 := d; d0 := c; c0 := b;
     b0 := w32 (b + rotl f' (nth (Z.to_nat i) shifts 0)) |}.

Definition block (st : State) (bytes : list Z) : State :=
  let m := map le_word (chunks 4 16 bytes) in
  let r := fold_left (round m) (map Z.of_nat (seq 0 64)) st in
  {| a0 := w32 (a0 st + a0 r); b0 := w32 (b0 st + b0 r);
     c0 := w32 (c0 st + c0 r); d0 := w32 (d0 st + d0 r) |}.

Definition digest (s : string) : list Z :=
  let msg := pad (bytes_of s) in
  let st := fold_left block (chunks 64 (List.length msg) msg) init in
  (le_bytes 4 (a0 st) ++ le_bytes 4 (b0 st)
     ++ le_bytes 4 (c0 st) ++ le_bytes 4 (d0 st))%list.

Definition hex_digit (n : Z) : ascii :=
  ascii_of_nat (Z.to_nat (if n <? 10 then 48 + n else 87 + n)).

Fixpoint hex (bs : list Z) : string :=
  match bs with
  | [] => EmptyString
  | b :: r => String (hex_digit (Z.shiftr b 4)) (String (hex_digit (Z.land b 15)) (hex r))
  end.

Definition md5_hex (s : string) : string := hex (digest s).

End Md5.

(** ** The XML document (libxmljs2) *)
Module Xml.

#[warnings="-register-all"]
Inductive Node : Type :=
| Element (ns name : string) (attrs : list (string * string)) (children : list Node)
| Text (content : string)
| Comment (content : string).

(** A document is its root node; the document node above it has this one
    child. *)
Definition Document : Type := Node.

(** A node of the document: the child indices on the way down from the
    document node.  [[]] is the document node, [[0]] the root element. *)
Definition Loc : Type := list nat.

Definition children (n : Node) : list Node :=
  match n with
  | Element _ _ _ cs => cs
  | _ => []
  end.

(** The node reached from a list of top nodes. *)
Fixpoint node_in (top : list Node) (l : Loc) : option Node :=
  match l with
  | [] => None
  | i :: r =>
      match nth_error top i with
      | Some n => match r with
                  | [] => Some n
                  | _ => node_in (children n) r
                  end
      | None => None
      end
  end.

Definition node_at (d : Document) (l : Loc) : option Node := node_in [d] l.

(** The child nodes of the node at [l]. *)
Definition kids (d : Document) (l : Loc) : list Node :=
  match l with
  | [] => [d]
  | _ => match node_at d l with
         | Some n => children n
         | None => []
         end
  end.

(** [element.text()], the XPath string value: the text of all descendant
    text nodes, in document order. *)
Fixpoint text (n : Node) : string :=
  match n with
  | Element _ _ _ cs => String.concat "" (map text cs)
  | Text s => s
  | Comment _ => ""
  end.

Fixpoint assoc (k : string) (l : list (string * string)) : option string :=
  match l with
  | [] => None
  | (k', v) :: r => if String.eqb k k' then Some v else assoc k r
  end.

(** [element.attr(k)], as the value of the attribute when there is one. *)
Definition attr (k : string) (n : Node) : option string :=
  match n with
  | Element _ _ as' _ => assoc k as'
  | _ => None
  end.

(** [node.name()] *)
Definition name (n : Node) : string :=
  match n with
  | Element _ nm _ _ => nm
  | Text _ => "text"
  | Comment _ => "comment"
  end.

(** Paths below a node, in document order: [number i] prefixes the paths
    of the i-th, (i+1)-th, ... subtree with the index of the subtree. *)
Fixpoint number (i : nat) (subtrees : list (list Loc)) : list Loc :=
  match subtrees with
  | [] => []
  | t :: r => (map (cons i) t ++ number (S i) r)%list
  end.

Fixpoint subtree (n : Node) : list Loc :=
  [] :: match n with
        | Element _ _ _ cs => number 0 (map subtree cs)
        | _ => []
        end.

(** The proper descendants of a node with the child nodes [cs]. *)
Definition forest (cs : list Node) : list Loc := number 0 (map subtree cs).

End Xml.

(** ** The fragment of XPath 1.0 that the EAD reader uses

    A node set is a list of locations in document order without duplicates;
    every step ends with [norm], which sorts and removes duplicates (libxml2
    sorts the result of an expression the same way). *)
Module XPath.
Import Xml.

Definition NodeSet : Type := list Loc.

(** Document order is the lexicographic order of the paths, a node before
    its descendants. *)
Fixpoint loc_compare (a b : Loc) : comparison :=
  match a, b with
  | [], [] => Eq
  | [], _ :: _ => Lt
  | _ :: _, [] => Gt
  | i :: a', j :: b' =>
      match Nat.compare i j with
      | Eq => loc_compare a' b'
      | c => c
      end
  end.

Fixpoint insert (l : Loc) (s : NodeSet) : NodeSet :=
  match s with
  | [] => [l]
  | x :: r =>
      match loc_compare l x with
      | Lt => l :: s
      | Eq => s
      | Gt => x :: insert l r
      end
  end.

Definition norm (raw : list Loc) : NodeSet := fold_right insert [] raw.

(** *** The predicate on the unit identifier

    The source writes the identifier between double quotes into the
    expression, as it is.  An identifier without a double quote is the
    string literal that [normalize-space()] is compared with.  A double
    quote in the identifier ends that literal, and what follows it is read
    as XPath.  The fragment read here: after the first literal any number of
    [or] and [and] clauses, each a literal (true when it is not empty) or an
    [=] or [!=] comparison of two literals; [and] binds tighter than [or].
    White space may be left out or repeated between these, as in libxml2. *)
Inductive Token : Type :=
| TLit (s : string)
| TEq
| TNe
| TOr
| TAnd.

(** The tokens of a text.  [lit] is [Some (q, acc)] inside a literal that
    the quote [q] opened, [acc] holding what was read of it, last character
    first.  [None] when the text has an unfinished literal or a character
    outside the fragment. *)
Fixpoint tokens (lit : option (ascii * string)) (s : string) {struct s}
  : option (list Token) :=
  match lit with
  | Some (q, acc) =>
      match s with
      | EmptyString => None
      | String c r =>
          if Ascii.eqb c q
          then option_map (cons (TLit (Str.rev acc))) (tokens None r)
          else tokens (Some (q, String c acc)) r
      end
  | None =>
      match s with
      | EmptyString => Some []
      | String c r =>
          if Str.is_xml_space c then tokens None r
          else if orb (Ascii.eqb c Str.dquote) (Ascii.eqb c "'")
          then tokens (Some (c, EmptyString)) r
          else if Ascii.eqb c "=" then option_map (cons TEq) (tokens None r)
          else
            match r with
            | EmptyString => None
            | String c1 r1 =>
                if andb (Ascii.eqb c "!") (Ascii.eqb c1 "=")
                then option_map (cons TNe) (tokens None r1)
                else if andb (Ascii.eqb c "o") (Ascii.eqb c1 "r")
                then option_map (cons TOr) (tokens None r1)
                else
                  match r1 with
                  | EmptyString => None
                  | String c2 r2 =>
                      if andb (Ascii.eqb c "a")
                           (andb (Ascii.eqb c1 "n") (Ascii.eqb c2 "d"))
                      then option_map (cons TAnd) (tokens None r2)
                      else None
                  end
            end
      end
  end.

Inductive Term : Type :=
| Truthy (a : string)
| Equal (a b : string)
| Differs (a b : string).

Inductive Conn : Type := Or | And.

(** [normalize-space() = value], followed by the clauses [more]. *)
Record Predicate : Type := { value : string; more : list (Conn * Term) }.

Definition connOf (t : Token) : option Conn :=
  match t with
  | TOr => Some Or
  | TAnd => Some And
  | _ => None
  end.

Fixpoint clauses (ts : list Token) : option (list (Conn * Term)) :=
  match ts with
  | [] => Some []
  | t :: TLit a :: r =>
      match connOf t with
      | None => None
      | Some k =>
          match r with
          | TEq :: TLit b :: r' => option_map (cons (k, Equal a b)) (clauses r')
          | TNe :: TLit b :: r' => option_map (cons (k, Differs a b)) (clauses r')
          | _ => option_map (cons (k, Truthy a)) (clauses r)
          end
      end
  | _ => None
  end.

Definition parse (ts : list Token) : option Predicate :=
  match ts with
  | TLit v :: r => option_map (Build_Predicate v) (clauses r)
  | _ => None
  end.

(** The predicate [normalize-space()="${unitId}"]: the text that follows the
    opening quote is the identifier and the closing quote of the source. *)
Definition spliced (unitId : string) : option Predicate :=
  match tokens (Some (Str.dquote, EmptyString))
          (unitId ++ String Str.dquote EmptyString) with
  | Some ts => parse ts
  | None => None
  end.

(** The boolean value of a clause: a string is true when it is not empty. *)
Definition termHolds (t : Term) : bool :=
  match t with
  | Truthy a => negb (String.eqb a "")
  | Equal a b => String.eqb a b
  | Differs a b => negb (String.eqb a b)
  end.

(** A disjunction of conjunctions; [cur] is the value of the conjunction
    that is being read. *)
Fixpoint clausesHold (cur : bool) (cs : list (Conn * Term)) : bool :=
  match cs with
  | [] => cur
  | (And, t) :: r => clausesHold (andb cur (termHolds t)) r
  | (Or, t) :: r => orb cur (clausesHold (termHolds t) r)
  end.

(** The predicate at a node whose [normalize-space()] is [v]. *)
Definition holds (p : Predicate) (v : string) : bool :=
  clausesHold (String.eqb v (value p)) (more p).

Section Doc.
Variable d : Document.

(** *** Axes *)
Definition child (l : Loc) : list Loc :=
  map (fun i => (l ++ [i])%list) (seq 0 (List.length (kids d l))).

Definition descendant_or_self (l : Loc) : list Loc :=
  map (app l) ([] :: forest (kids d l)).

Definition parent (l : Loc) : list Loc :=
  match l with
  | [] => []
  | _ => [removelast l]
  end.

Definition preceding_sibling (l : Loc) : list Loc :=
  match l with
  | [] => []
  | _ => map (fun j => (removelast l ++ [j])%list) (seq 0 (last l 0))
  end.

(** *** Node tests and predicates *)

(** [node()] *)
Definition node (l : Loc) : bool := true.

(** [*] on an axis of elements *)
Definition element (l : Loc) : bool :=
  match node_at d l with
  | Some (Element _ _ _ _) => true
  | _ => false
  end.

(** [p:name], with the prefix [p] bound to the namespace [uri] *)
Definition named (uri nm : string) (l : Loc) : bool :=
  match node_at d l with
  | Some (Element u n _ _) => andb (String.eqb u uri) (String.eqb n nm)
  | _ => false
  end.

(** [[@k="v"]] *)
Definition attr_is (k v : string) (l : Loc) : bool :=
  match node_at d l with
  | Some n => match attr k n with
              | Some v' => String.eqb v' v
              | None => false
              end
  | None => false
  end.

(** [[normalize-space()="v"]] *)
Definition normalize_space_is (v : string) (l : Loc) : bool :=
  match node_at d l with
  | Some n => String.eqb (Str.normalize_space (text n)) v
  | None => false
  end.

(** [[normalize-space()="${unitId}"]], as the predicate reads once the
    identifier has been put in (see [spliced] below) *)
Definition satisfies (p : Predicate) (l : Loc) : bool :=
  match node_at d l with
  | Some n => holds p (Str.normalize_space (text n))
  | None => false
  end.

(** One location step [axis::test[predicate]] applied to a node set. *)
Definition step (axis : Loc -> list Loc) (test : Loc -> bool)
           (from : NodeSet) : NodeSet :=
  norm (filter test (flat_map axis from)).

(** [a | b] *)
Definition union (a b : NodeSet) : NodeSet := norm (a ++ b).
End Doc.

(** The context of an absolute path: the document node. *)
Definition root : NodeSet := [[]].

(** [x.get(path)]: the first node of the result, if any. *)
Definition get (s : NodeSet) : option Loc := hd_error s.

(** A string can be written between double quotes in an XPath expression
    exactly when it holds no double quote. *)
Definition literal (s : string) : bool := negb (Str.mem_char Str.dquote s).

End XPath.

(** ** The EAD reader: [getMetadata], [getAccess] and their helpers *)
Module Ead.
Import Xml XPath.

Record Author : Type := { type : string; name : string }.

Record EADMetadata : Type := {
  formats : list string;
  title : string;
  unitId : option string;
  unitIdIsInventoryNumber : bool;
  order : option nat;
  content : option string;
  extent : option string;
  authors : option (list Author);
  dates : option (list string);
  eadTitle : option string
}.

(** What a call does: it returns a value, or the identifier it was given
    holds a double quote and the XPath expression built from it lies outside
    the fragment that [XPath.spliced] reads (not modelled), or the bound on
    the number of levels climbed was reached. *)
Inductive Outcome (A : Type) : Type :=
| Returns (a : A)
| OtherXPath
| OutOfFuel.
Arguments Returns {A} a.
Arguments OtherXPath {A}.
Arguments OutOfFuel {A}.

(** [ns = {'ead': 'urn:isbn:1-931666-22-9'}] *)
Definition ns : string := "urn:isbn:1-931666-22-9".

Definition getRootId (collectionId : string) : string :=
  hd "" (Str.split "." collectionId).

Definition getUnitId (collectionId : string) : string :=
  Str.join "." (tl (Str.split "." collectionId)).

(** The text of the element at a location. *)
Definition textAt (ead : Document) (l : Loc) : string :=
  match node_at ead l with
  | Some n => text n
  | None => ""
  end.

Definition nameAt (ead : Document) (l : Loc) : string :=
  match node_at ead l with
  | Some n => Xml.name n
  | None => ""
  end.

Definition attrAt (ead : Document) (k : string) (l : Loc) : option string :=
  match node_at ead l with
  | Some n => attr k n
  | None => None
  end.

(** *** The fields of one level *)

Definition setFormats (m : EADMetadata) (v : list string) : EADMetadata :=
  {| formats := v; title := title m; unitId := unitId m;
     unitIdIsInventoryNumber := unitIdIsInventoryNumber m; order := order m;
     content := content m; extent := extent m; authors := authors m;
     dates := dates m; eadTitle := eadTitle m |}.

Definition setTitle (m : EADMetadata) (v : string) : EADMetadata :=
  {| formats := formats m; title := v; unitId := unitId m;
     unitIdIsInventoryNumber := unitIdIsInventoryNumber m; order := order m;
     content := content m; extent := extent m; authors := authors m;
     dates := dates m; eadTitle := eadTitle m |}.

Definition setUnitId (m : EADMetadata) (flag : bool) (v : string) : EADMetadata :=
  {| formats := formats m; title := title m; unitId := Some v;
     unitIdIsInventoryNumber := flag; order := order m;
     content := content m; extent := extent m; authors := authors m;
     dates := dates m; eadTitle := eadTitle m |}.

Definition setOrder (m : EADMetadata) (v : nat) : EADMetadata :=
  {| formats := formats m; title := title m; unitId := unitId m;
     unitIdIsInventoryNumber := unitIdIsInventoryNumber m; order := Some v;
     content := content m; extent := extent m; authors := authors m;
     dates := dates m; eadTitle := eadTitle m |}.

Definition setContent (m : EADMetadata) (v : string) : EADMetadata :=
  {| formats := formats m; title := title m; unitId := unitId m;
     unitIdIsInventoryNumber := unitIdIsInventoryNumber m; order := order m;
     content := Some v; extent := extent m; authors := authors m;
     dates := dates m; eadTitle := eadTitle m |}.

Definition setExtent (m : EADMetadata) (v : string) : EADMetadata :=
  {| formats := formats m; title := title m; unitId := unitId m;
     unitIdIsInventoryNumber := unitIdIsInventoryNumber m; order := order m;
     content := content m; extent := Some v; authors := authors m;
     dates := dates m; eadTitle := eadTitle m |}.

Definition setAuthors (m : EADMetadata) (v : list Author) : EADMetadata :=
  {| formats := formats m; title := title m; unitId := unitId m;
     unitIdIsInventoryNumber := unitIdIsInventoryNumber m; order := order m;
     content := content m; extent := extent m; authors := Some v;
     dates := dates m; eadTitle := eadTitle m |}.

Definition setDates (m : EADMetadata) (v : list string) : EADMetadata :=
  {| formats := formats m; title := title m; unitId := unitId m;
     unitIdIsInventoryNumber := unitIdIsInventoryNumber m; order := order m;
     content := content m; extent := extent m; authors := authors m;
     dates := Some v; eadTitle := eadTitle m |}.

Definition setEadTitle (m : EADMetadata) (v : string) : EADMetadata :=
  {| formats := formats m; title := title m; unitId := unitId m;
     unitIdIsInventoryNumber := unitIdIsInventoryNumber m; order := order m;
     content := content m; extent := extent m; authors := authors m;
     dates := dates m; eadTitle := Some v |}.

(** The body of the [map] callback of [extractFormats]. *)
Definition formatOf (txt : string) : string :=
  let format := Str.toLowerCase txt in
  if Str.includes format "article" then "article"
  else if Str.includes format "serial" then "serial"
  else if Str.includes format "book" then "book"
  else if Str.includes format "sound" then "sound"
  else if orb (Str.includes format "visual")
            (orb (Str.includes format "photo")
               (orb (Str.includes format "poster")
                  (orb (Str.includes format "drawing")
                     (Str.includes format "object"))))
  then "visual"
  else if Str.includes format "moving" then "moving visual"
  else "archive".

(** [[...new Set(l)]]: the first occurrence of every value, in order. *)
Fixpoint uniq (seen l : list string) : list string :=
  match l with
  | [] => []
  | x :: r =>
      if existsb (String.eqb x) seen then uniq seen r
      else x :: uniq (x :: seen) r
  end.

Section Level.
Variable ead : Document.

(** [./ead:descgrp[@type="content_and_structure"]/ead:controlaccess/
     ead:controlaccess/ead:genreform|ead:controlaccess/ead:genreform] *)
Definition formatElems (level : Loc) : NodeSet :=
  union
    (step (child ead) (named ead ns "genreform")
       (step (child ead) (named ead ns "controlaccess")
          (step (child ead) (named ead ns "controlaccess")
             (step (child ead)
                (fun l => andb (named ead ns "descgrp" l)
                            (attr_is ead "type" "content_and_structure" l))
                [level]))))
    (step (child ead) (named ead ns "genreform")
       (step (child ead) (named ead ns "controlaccess") [level])).

(** The classifications read from the level itself. *)
Definition ownFormats (level : Loc) : list string :=
  map (fun l => formatOf (textAt ead l)) (formatElems level).

Definition extractFormats (level : Loc) (metadata : EADMetadata)
           (parentMetadata : option EADMetadata) : EADMetadata :=
  let formats := ownFormats level in
  match formats, parentMetadata with
  | [], Some pm => setFormats metadata (Ead.formats pm)
  | _, _ => setFormats metadata (uniq [] formats)
  end.

(** [./ead:did/ead:unittitle] *)
Definition extractTitle (level : Loc) (metadata : EADMetadata) : EADMetadata :=
  match get (step (child ead) (named ead ns "unittitle")
               (step (child ead) (named ead ns "did") [level])) with
  | Some t => setTitle metadata (Str.trim (textAt ead t))
  | None => metadata
  end.

(** [./ead:did/ead:unitid] *)
Definition extractUnitId (level : Loc) (metadata : EADMetadata)
           (parentMetadata : option EADMetadata) : EADMetadata :=
  if String.eqb (title metadata) "" then metadata
  else
    let unitId := get (step (child ead) (named ead ns "unitid")
                         (step (child ead) (named ead ns "did") [level])) in
    match unitId with
    | Some u =>
        setUnitId metadata
          (match parentMetadata with Some _ => true | None => false end)
          (Str.trim (textAt ead u))
    | None => setUnitId metadata false (Md5.md5_hex (title metadata))
    end.

(** The number [count(...)] of the elements on [./preceding-sibling::] *)
Definition extractOrder (level : Loc) (metadata : EADMetadata) : EADMetadata :=
  setOrder metadata
    (List.length (step preceding_sibling (element ead) [level])).

(** [./ead:descgrp[@type="content_and_structure"]/ead:scopecontent/ead:p|
     ./ead:scopecontent/ead:p] *)
Definition extractContent (level : Loc) (metadata : EADMetadata) : EADMetadata :=
  let content :=
    union
      (step (child ead) (named ead ns "p")
         (step (child ead) (named ead ns "scopecontent")
            (step (child ead)
               (fun l => andb (named ead ns "descgrp" l)
                           (attr_is ead "type" "content_and_structure" l))
               [level])))
      (step (child ead) (named ead ns "p")
         (step (child ead) (named ead ns "scopecontent") [level])) in
  match content with
  | [] => metadata
  | _ => setContent metadata
           (Str.join "<br/>" (map (fun p => Str.trim (textAt ead p)) content))
  end.

(** [./ead:did/ead:physdesc//ead:extent] *)
Definition extractExtent (level : Loc) (metadata : EADMetadata) : EADMetadata :=
  match get (step (child ead) (named ead ns "extent")
               (step (descendant_or_self ead) node
                  (step (child ead) (named ead ns "physdesc")
                     (step (child ead) (named ead ns "did") [level])))) with
  | Some e => setExtent metadata (Str.trim (textAt ead e))
  | None => metadata
  end.

(** [./ead:did//ead:origination] *)
Definition extractAuthors (level : Loc) (metadata : EADMetadata) : EADMetadata :=
  let origination :=
    map (fun origin =>
           {| type := match attrAt ead "label" origin with
                      | Some v => v
                      | None => "Author"
                      end;
              name := Str.trim (textAt ead origin) |})
        (step (child ead) (named ead ns "origination")
           (step (descendant_or_self ead) node
              (step (child ead) (named ead ns "did") [level]))) in
  match origination with
  | [] => metadata
  | _ => setAuthors metadata origination
  end.

(** [./ead:did//ead:unitdate] *)
Definition extractDates (level : Loc) (metadata : EADMetadata) : EADMetadata :=
  let dates :=
    map (fun date => Str.trim (textAt ead date))
        (step (child ead) (named ead ns "unitdate")
           (step (descendant_or_self ead) node
              (step (child ead) (named ead ns "did") [level]))) in
  match dates with
  | [] => metadata
  | _ => setDates metadata dates
  end.

(** [parentMetadata.eadTitle || parentMetadata.title] *)
Definition extractEadTitle (metadata : EADMetadata)
           (parentMetadata : option EADMetadata) : EADMetadata :=
  match parentMetadata with
  | Some pm =>
      setEadTitle metadata
        (match eadTitle pm with
         | Some t => if String.eqb t "" then title pm else t
         | None => title pm
         end)
  | None => metadata
  end.

Definition blank : EADMetadata :=
  {| formats := []; title := "No title"; unitId := None;
     unitIdIsInventoryNumber := true; order := None; content := None;
     extent := None; authors := None; dates := None; eadTitle := None |}.

Definition extractMetadataFromLevel (level : option Loc)
           (parentMetadata : option EADMetadata) : EADMetadata :=
  let metadata := blank in
  match level with
  | None => metadata
  | Some level =>
      let metadata := extractFormats level metadata parentMetadata in
      let metadata := extractTitle level metadata in
      let metadata := extractUnitId level metadata parentMetadata in
      let metadata := extractOrder level metadata in
      let metadata := extractContent level metadata in
      let metadata := extractExtent level metadata in
      let metadata := extractAuthors level metadata in
      let metadata := extractDates level metadata in
      extractEadTitle metadata parentMetadata
  end.

(** [.//preceding-sibling::ead:did/..] *)
Definition levelAbove (level : Loc) : option Loc :=
  get (step parent node
         (step preceding_sibling (named ead ns "did")
            (step (descendant_or_self ead) node [level]))).

(** The recursion of [walkThroughLevels], bounded by [fuel] nested calls. *)
Fixpoint walkThroughLevels (fuel : nat) (level : option Loc)
         (parentMetadata : EADMetadata) : Outcome (list EADMetadata) :=
  match level with
  | None => Returns []
  | Some l =>
      let metadata := extractMetadataFromLevel (Some l) (Some parentMetadata) in
      match levelAbove l with
      | Some parent =>
          if negb (String.eqb (nameAt ead parent) (nameAt ead l)) then
            match fuel with
            | O => OutOfFuel
            | S fuel' =>
                match walkThroughLevels fuel' (Some parent) metadata with
                | Returns above => Returns (above ++ [metadata])%list
                | OtherXPath => OtherXPath
                | OutOfFuel => OutOfFuel
                end
            end
          else Returns [metadata]
      | None => Returns [metadata]
      end
  end.

(** [//ead:ead/ead:archdesc] *)
Definition archdescOf : option Loc :=
  get (step (child ead) (named ead ns "archdesc")
         (step (child ead) (named ead ns "ead")
            (step (descendant_or_self ead) node root))).

(** [.//ead:unitid[normalize-space()="${unitId}"]/../..] from [from], with
    the predicate as it reads once the identifier has been put in. *)
Definition levelWhere (from : Loc) (p : Predicate) : option Loc :=
  get (step parent node
         (step parent node
            (step (child ead)
               (fun l => andb (named ead ns "unitid" l) (satisfies ead p l))
               (step (descendant_or_self ead) node [from])))).

(** The same for an identifier without a double quote, which is the string
    that [normalize-space()] is compared with ([spliced_literal] in
    Part II). *)
Definition levelOfUnitId (from : Loc) (unitId : string) : option Loc :=
  get (step parent node
         (step parent node
            (step (child ead)
               (fun l => andb (named ead ns "unitid" l)
                           (normalize_space_is ead unitId l))
               (step (descendant_or_self ead) node [from])))).

(** The number of nested calls granted to a walk from [level]: the walk
    climbs one level per call, and it can turn to a level below at most once,
    after which it stops ([walkThroughLevels_returns] in Part II). *)
Definition fuelFor (level : option Loc) : nat :=
  match level with
  | Some l => 2 + List.length l
  | None => 0
  end.

Definition getMetadata (collectionId : string) : Outcome (list EADMetadata) :=
  match archdescOf with
  | Some archdesc =>
      let unitId := getUnitId collectionId in
      let metadata := extractMetadataFromLevel (Some archdesc) None in
      match spliced unitId with
      | Some p =>
          let level := levelWhere archdesc p in
          match walkThroughLevels (fuelFor level) level metadata with
          | Returns levels => Returns (metadata :: levels)
          | OtherXPath => OtherXPath
          | OutOfFuel => OutOfFuel
          end
      | None => OtherXPath
      end
  | None => Returns []
  end.







End Level.

End Ead.

(** ** The NIOD access policy (src/service/niod/access.ts) *)
Module Niod.

(** [AccessState] of lib/Security.js. *)
Inductive AccessState : Type := OPEN | TIERED | CLOSED.

Record Access : Type := { state : AccessState }.

(** A JavaScript [Date]: a time value in milliseconds, or the invalid date. *)
Inductive JsDate : Type :=
| DateAt (ms : Z)
| InvalidDate.

Record NiodMeta : Type := { accessDate : option JsDate }.

Record RootItem : Type := { niod : option NiodMeta }.

Record Item : Type := {
  id : string;
  collection_id : option string;
  type : string
}.

(** [AccessParams] of lib/Service.js. *)
Record AccessParams : Type := {
  item : Item;
  ip : option string;
  identities : list string
}.

(** [a.isAfter(b)] of moment: both valid and [a] strictly later. *)
Definition isAfter (a b : JsDate) : bool :=
  match a, b with
  | DateAt x, DateAt y => Z.ltb y x
  | _, _ => false
  end.

Section Policy.
(** The collaborators: the item store and the clock. *)
Variable getRootItemByCollectionId : Item -> option RootItem.
Variable now : Z.

(** [rootItem?.niod?.accessDate] *)
Definition accessDateOf (i : Item) : option JsDate :=
  match getRootItemByCollectionId i with
  | Some r => match niod r with
              | Some n => accessDate n
              | None => None
              end
  | None => None
  end.

Definition hasAccess (p : AccessParams) : Access :=
  let i := item p in
  match collection_id i with
  | None => {| state := OPEN |}
  | Some _ =>
      if String.eqb (type i) "metadata" then {| state := OPEN |}
      else
        match accessDateOf i with
        | None => {| state := OPEN |}
        | Some d =>
            if isAfter (DateAt now) d then {| state := OPEN |}
            else {| state := CLOSED |}
        end
  end.
End Policy.

End Niod.

(** ** The start-up dispatcher (the loop over [servicesRunning]) *)
Module Dispatcher.

(** *** [parseInt(s)] with the radix left out

    The result is [None] for NaN.  White space before the number is
    skipped as [trimStart] skips it.  JavaScript rounds long digit strings
    to a double; the model keeps the exact integer, which is zero in exactly
    the same cases (and [-0 === 0] holds in JavaScript). *)

Definition digit_value (radix : Z) (c : ascii) : option Z :=
  (let n := Z.of_nat (Str.code c) in
   let v :=
     if andb (48 <=? n) (n <=? 57) then Some (n - 48)
     else if andb (97 <=? n) (n <=? 122) then Some (n - 87)
     else if andb (65 <=? n) (n <=? 90) then Some (n - 55)
     else None in
   match v with
   | Some d => if d <? radix then Some d else None
   | None => None
   end)%Z.

(** The longest prefix of digits, read left to right; [acc] is [None]
    until the first digit has been seen. *)
Fixpoint digits (radix : Z) (acc : option Z) (s : string) : option Z :=
  match s with
  | EmptyString => acc
  | String c r =>
      match digit_value radix c with
      | Some d =>
          digits radix
            (Some (match acc with Some a => a * radix + d | None => d end)%Z) r
      | None => acc
      end
  end.

Definition strip_sign (s : string) : Z * string :=
  match s with
  | String "-"%char r => ((-1)%Z, r)
  | String "+"%char r => (1%Z, r)
  | _ => (1%Z, s)
  end.

Definition strip_radix (s : string) : Z * string :=
  match s with
  | String "0"%char (String "x"%char r) => (16%Z, r)
  | String "0"%char (String "X"%char r) => (16%Z, r)
  | _ => (10%Z, s)
  end.

Definition parseInt (s : string) : option Z :=
  let '(sign, s1) := strip_sign (Str.trimStart s) in
  let '(radix, s2) := strip_radix s1 in
  match digits radix None s2 with
  | Some v => Some (sign * v)%Z
  | None => None
  end.

(** *** Services and the process they are started in *)

(** A service descriptor of lib/Service.js, as far as the dispatcher reads
    it.  The capability that [getService()] resolves to is identified by
    the name of the service. *)
Record Service : Type := {
  name : string;
  runAs : string;
  type : string;      (* the task type of a worker *)
  cron : string       (* the schedule expression of a cron service *)
}.

Record Config : Type := { appInstance : option string }.

(** What the start functions have done to the process.  The four start
    functions are [async]: a call does nothing to the process before the
    imports and the [getService()] that it awaits have settled.  The
    functions below say what a call does once it has got that far. *)
Record Process : Type := {
  webStarted : nat;                        (* [startWeb] calls that listen *)
  taskHandlers : list (string * string);   (* [onTask(type, capability)] *)
  standaloneRuns : list string;            (* capabilities run once at start *)
  cronJobs : list (string * string)        (* [cron.schedule(expr, capability)] *)
}.

Definition idle : Process :=
  {| webStarted := 0; taskHandlers := []; standaloneRuns := []; cronJobs := [] |}.

Definition startWeb (p : Process) : Process :=
  {| webStarted := S (webStarted p); taskHandlers := taskHandlers p;
     standaloneRuns := standaloneRuns p; cronJobs := cronJobs p |}.

Definition startWorker (s : Service) (p : Process) : Process :=
  {| webStarted := webStarted p;
     taskHandlers := taskHandlers p ++ [(type s, name s)];
     standaloneRuns := standaloneRuns p; cronJobs := cronJobs p |}.

Definition startStandalone (s : Service) (p : Process) : Process :=
  {| webStarted := webStarted p; taskHandlers := taskHandlers p;
     standaloneRuns := standaloneRuns p ++ [name s]; cronJobs := cronJobs p |}.

Definition startCron (s : Service) (p : Process) : Process :=
  {| webStarted := webStarted p; taskHandlers := taskHandlers p;
     standaloneRuns := standaloneRuns p;
     cronJobs := cronJobs p ++ [(cron s, name s)] |}.

(** [config.appInstance === undefined || parseInt(config.appInstance) === 0] *)
Definition firstInstance (c : Config) : bool :=
  match appInstance c with
  | None => true
  | Some s => match parseInt s with
              | Some v => Z.eqb v 0
              | None => false
              end
  end.

Definition initService (c : Config) (p : Process) (s : Service) : Process :=
  if String.eqb (runAs s) "web" then startWeb p
  else if String.eqb (runAs s) "worker" then startWorker s p
  else if String.eqb (runAs s) "standalone" then
    if firstInstance c then startStandalone s p else p
  else if String.eqb (runAs s) "cron" then
    if firstInstance c then startCron s p else p
  else p.

(** [servicesRunning.forEach(initService)], every call completing before
    the next one is made. *)
Definition start (c : Config) (servicesRunning : list Service) : Process :=
  fold_left (initService c) servicesRunning idle.

(** *** The start functions in time

    [forEach] does not wait for the promise that a start function returns.
    The loop therefore leaves calls behind, at most one per service and in
    the order of the list, and each of them completes when what it awaits
    has settled, in whatever order that is, or not at all. *)
Inductive Call : Type :=
| CallWeb
| CallWorker (s : Service)
| CallStandalone (s : Service)
| CallCron (s : Service).

(** The call that [initService] makes for a service, if it makes one. *)
Definition callOf (c : Config) (s : Service) : list Call :=
  if String.eqb (runAs s) "web" then [CallWeb]
  else if String.eqb (runAs s) "worker" then [CallWorker s]
  else if String.eqb (runAs s) "standalone" then
    if firstInstance c then [CallStandalone s] else []
  else if String.eqb (runAs s) "cron" then
    if firstInstance c then [CallCron s] else []
  else [].

Definition calls (c : Config) (servicesRunning : list Service) : list Call :=
  flat_map (callOf c) servicesRunning.

(** What a call does to the process when it completes. *)
Definition complete (p : Process) (k : Call) : Process :=
  match k with
  | CallWeb => startWeb p
  | CallWorker s => startWorker s p
  | CallStandalone s => startStandalone s p
  | CallCron s => startCron s p
  end.

(** A moment of the run: the calls that have not completed, and the
    process.  In one step any one of the pending calls completes. *)
Definition Moment : Type := (list Call * Process)%type.

Inductive Step : Moment -> Moment -> Prop :=
| Completes : forall before k after p,
    Step ((before ++ k :: after)%list, p) ((before ++ after)%list, complete p k).

Inductive Steps : Moment -> Moment -> Prop :=
| Steps_none : forall m, Steps m m
| Steps_more : forall m1 m2 m3, Step m1 m2 -> Steps m2 m3 -> Steps m1 m3.

(** *** The scheduler (node-cron)

    A tick is described by the set of schedule expressions that are due at
    that instant; every job scheduled under a due expression runs. *)
Definition Tick : Type := string -> bool.

Definition tick (due : Tick) (p : Process) : list string :=
  map snd (filter (fun j => due (fst j)) (cronJobs p)).

(** Every capability invocation of a run: the standalone capabilities at
    start, then the scheduled ones tick after tick. *)
Definition invocations (p : Process) (ticks : list Tick) : list string :=
  standaloneRuns p ++ flat_map (fun due => tick due p) ticks.

End Dispatcher.

(** ** The texts of the authentication services (src/service/auth_texts.ts) *)
Module AuthTexts.

(** The texts of one service; a field that the source leaves out is [None]. *)
Record Texts : Type := {
  label : option string;
  header : option string;
  description : option string;
  confirmLabel : option string;
  failureHeader : option string;
  failureDescription : option string
}.

Definition logout : Texts :=
  {| label := Some "Logout"; header := None; description := None;
     confirmLabel := None; failureHeader := None; failureDescription := None |}.

Definition login : Texts :=
  {| label := Some "Login with code to gain access";
     header := Some "Login with code to gain access";
     description := Some "You are required to login with a code to see this item.";
     confirmLabel := Some "Login with code";
     failureHeader := Some "Authentication failed";
     failureDescription := Some "The code is not valid!" |}.

Definition external : Texts :=
  {| label := Some "Access"; header := Some "Access"; description := None;
     confirmLabel := None; failureHeader := Some "Access restricted";
     failureDescription :=
       Some "Unfortunately access to this record is restricted." |}.

(** [AuthTextsByType]: an object with the keys that were spread into it. *)
Record AuthTextsByType : Type := {
  logoutTexts : option Texts;
  loginTexts : option Texts;
  externalTexts : option Texts
}.

Section Enabled.
(** The answers of lib/Security.js. *)
Variable isAuthenticationEnabled isLoginEnabled : bool.
Variable isExternalEnabled isIpAccessEnabled : bool.

Definition getAuthTexts (item : Niod.Item) : AuthTextsByType :=
  let authTexts :=
    {| logoutTexts := None; loginTexts := None; externalTexts := None |} in
  if isAuthenticationEnabled then
    let authTexts :=
      if isLoginEnabled
      then {| logoutTexts := Some logout; loginTexts := Some login;
              externalTexts := externalTexts authTexts |}
      else authTexts in
    if orb isExternalEnabled isIpAccessEnabled
    then {| logoutTexts := logoutTexts authTexts; loginTexts := loginTexts authTexts;
            externalTexts := Some external |}
    else authTexts
  else authTexts.
End Enabled.

End AuthTexts.

(** ** The base class of the presentation objects (class [Base]) *)
Module Base.

(** The values that the fields hold: nothing, an object, or an array. *)
#[warnings="-register-all"]
Inductive Val : Type :=
| Undef
| Obj (id : string)
| Arr (items : list Val).

(** The outcome of a method: the new value of the field, or a [TypeError]. *)
Inductive Res : Type :=
| Ok (field : Val)
| TypeError.

(** [setService(service)], as the new value of [this.service]. *)
Definition setService (field service : Val) : Val :=
  match field with
  | Undef => service
  | Arr l => Arr (l ++ [service])
  | Obj _ => Arr [field; service]
  end.

(** [addRendering(rendering)], as the new value of [this.rendering];
    [push(...rendering)] needs an iterable. *)
Definition addRendering (field rendering : Val) : Res :=
  match field with
  | Undef => Ok rendering
  | Arr l =>
      match rendering with
      | Arr r => Ok (Arr (l ++ r))
      | _ => TypeError
      end
  | Obj _ => Ok (Arr [field; rendering])
  end.

(** The first argument of [addMetadata]: a string, an object with the
    properties [label] and [value], or an array of such arguments. *)
#[warnings="-register-all"]
Inductive Label : Type :=
| LStr (s : string)
| LPair (label value : string)
| LArr (labels : list Label).

(** An entry of [this.metadata]; the value is [None] for [undefined]. *)
Record Entry : Type := { label : string; value : option string }.

(** [addMetadata(label, value)], as the new value of [this.metadata]; the
    callback of [forEach] calls [addMetadata(md)] with no value. *)
Fixpoint addMetadata (metadata : list Entry) (label : Label)
         (value : option string) : list Entry :=
  match label with
  | LArr labels =>
      fold_left (fun acc md => addMetadata acc md None) labels metadata
  | LPair l v => metadata ++ [{| label := l; value := Some v |}]
  | LStr l => metadata ++ [{| label := l; value := value |}]
  end.

Definition isObj (v : Val) : Prop :=
  match v with
  | Obj _ => True
  | _ => False
  end.

(** The entries that an argument of [addMetadata] stands for. *)
Fixpoint entries (label : Label) (value : option string) : list Entry :=
  match label with
  | LArr labels => flat_map (fun md => entries md None) labels
  | LPair l v => [{| label := l; value := Some v |}]
  | LStr l => [{| label := l; value := value |}]
  end.

End Base.

(** ** The presentation builder (src/builder/PresentationUtils.ts) *)
Module Presentation.

(** The names that every object inherits from [Object.prototype]. *)
Definition inherited : list string :=
  ["constructor"; "__defineGetter__"; "__defineSetter__"; "hasOwnProperty";
   "__lookupGetter__"; "__lookupSetter__"; "isPrototypeOf";
   "propertyIsEnumerable"; "toString"; "valueOf"; "__proto__"; "toLocaleString"].

(** An object with array values: its own properties in the order in which
    they were created. *)
Definition Groups : Type := list (string * list string).

Inductive Res (A : Type) : Type :=
| Ok (a : A)
| TypeError.
Arguments Ok {A} a.
Arguments TypeError {A}.

Fixpoint own (k : string) (o : Groups) : option (list string) :=
  match o with
  | [] => None
  | (k', v) :: r => if String.eqb k k' then Some v else own k r
  end.

(** [o[k].push(x)] for an own property [k]. *)
Fixpoint push (k x : string) (o : Groups) : Groups :=
  match o with
  | [] => []
  | (k', v) :: r =>
      if String.eqb k k' then (k', (v ++ [x])%list) :: r else (k', v) :: push k x r
  end.

(** The callback of [reduce] in [addMetadata]:
    [acc[author.type] ? acc[author.type].push(author.name)
                      : acc[author.type] = [author.name]].
    An own property is an array, which is truthy; an inherited one is
    truthy too and has no [push]. *)
Definition addAuthor (acc : Groups) (author : Ead.Author) : Res Groups :=
  match own (Ead.type author) acc with
  | Some _ => Ok (push (Ead.type author) (Ead.name author) acc)
  | None =>
      if existsb (String.eqb (Ead.type author)) inherited then TypeError
      else Ok (acc ++ [(Ead.type author, [Ead.name author])])%list
  end.

(** [root.authors.reduce(..., {})] *)
Fixpoint reduceAuthors (acc : Groups) (authors : list Ead.Author) : Res Groups :=
  match authors with
  | [] => Ok acc
  | a :: r =>
      match addAuthor acc a with
      | Ok acc' => reduceAuthors acc' r
      | TypeError => TypeError
      end
  end.

(** A canonical numeric string below 2^32 - 1 is an array index. *)
Fixpoint allDigits (s : string) : bool :=
  match s with
  | EmptyString => true
  | String c r =>
      andb (andb (Nat.leb 48 (Str.code c)) (Nat.leb (Str.code c) 57)) (allDigits r)
  end.

Definition arrayIndex (k : string) : option Z :=
  match k with
  | EmptyString => None
  | String c r =>
      if andb (allDigits k)
              (orb (negb (Ascii.eqb c "0")) (String.eqb r ""))
      then match Dispatcher.digits 10 None k with
           | Some n => if (n <? 4294967295)%Z then Some n else None
           | None => None
           end
      else None
  end.

Fixpoint insertIndex (e : Z * (string * list string))
         (l : list (Z * (string * list string))) : list (Z * (string * list string)) :=
  match l with
  | [] => [e]
  | x :: r => if (fst e <=? fst x)%Z then e :: l else x :: insertIndex e r
  end.

(** The properties that are array indices, with their indices. *)
Fixpoint indexed (o : Groups) : list (Z * (string * list string)) :=
  match o with
  | [] => []
  | e :: r =>
      match arrayIndex (fst e) with
      | Some n => (n, e) :: indexed r
      | None => indexed r
      end
  end.

Definition named (o : Groups) : Groups :=
  filter (fun e => match arrayIndex (fst e) with Some _ => false | None => true end) o.

(** The properties in the order of [Object.keys]: the array indices in
    ascending order, then the other keys in the order of their creation. *)
Definition ownProperties (o : Groups) : Groups :=
  (map snd (fold_right insertIndex [] (indexed o)) ++ named o)%list.

(** The calls [base.setMetadata(type, authors[type])] that [addMetadata]
    makes for the authors, in their order; none for no authors. *)
Definition authorMetadata (authors : list Ead.Author) : Res Groups :=
  match authors with
  | [] => Ok []
  | _ =>
      match reduceAuthors [] authors with
      | Ok o => Ok (ownProperties o)
      | TypeError => TypeError
      end
  end.

(** [getType(type)] *)
Definition getType (type : string) : string :=
  if String.eqb type "image" then "Image"
  else if String.eqb type "audio" then "Sound"
  else if String.eqb type "video" then "Video"
  else if String.eqb type "pdf" then "Text"
  else "Dataset".

End Presentation.

(** ** The item store (lib/Item) *)
Module Items.

Section Store.
(** The items, with their identifiers. *)
Variable Item : Type.
Variable id : Item -> string.

(** [l.findIndex(p)], with [None] for -1. *)
Fixpoint findIndex (p : Item -> bool) (l : list Item) : option nat :=
  match l with
  | [] => None
  | x :: r =>
      if p x then Some 0
      else match findIndex p r with
           | Some i => Some (S i)
           | None => None
           end
  end.

(** [items.filter((item, i) =>
       items.findIndex(otherItem => otherItem.id === item.id) === i)] *)
Definition uniqueItems (items : list Item) : list Item :=
  map snd
    (filter
       (fun e =>
          match findIndex (fun otherItem => String.eqb (id otherItem) (id (snd e))) items with
          | Some j => Nat.eqb j (fst e)
          | None => false
          end)
       (combine (seq 0 (List.length items)) items)).

(** The loop [while (items.length > 0) { ... items.splice(0, 100) ... }], as
    the batches it cuts off; [fuel] bounds the number of rounds. *)
Fixpoint batches (fuel : nat) (items : list Item) : list (list Item) :=
  match fuel with
  | O => []
  | S fuel' =>
      match items with
      | [] => []
      | _ => firstn 100 items :: batches fuel' (skipn 100 items)
      end
  end.

(** One line of the body of a bulk request. *)
Inductive Line : Type :=
| Index (index _id : string)
| Source (item : Item).

(** [[].concat(...body)] for the batch [batch]. *)
Definition bulkBody (batch : list Item) : list Line :=
  flat_map (fun item => [Index "items" (id item); Source item]) batch.

(** What [indexItems] has done when it ends. *)
Record Run : Type := {
  failed : option string;          (* the message of the error thrown *)
  requests : list (list Line);     (* the bodies passed to [bulk], in order *)
  remaining : list Item            (* what is left in the caller's array *)
}.

(** The client: [bulk] answers or throws. *)
Variable bulk : list Line -> bool.

Fixpoint indexLoop (fuel : nat) (items : list Item) (sent : list (list Line)) : Run :=
  match fuel with
  | O => {| failed := None; requests := sent; remaining := items |}
  | S fuel' =>
      match items with
      | [] => {| failed := None; requests := sent; remaining := [] |}
      | _ =>
          let body := bulkBody (firstn 100 items) in
          if bulk body
          then indexLoop fuel' (skipn 100 items) (sent ++ [body])%list
          else {| failed := Some "Failed to index the items!";
                  requests := (sent ++ [body])%list;
                  remaining := skipn 100 items |}
      end
  end.

(** Every round takes at least one item away. *)
Definition indexItems (items : list Item) : Run :=
  indexLoop (List.length items) items [].
End Store.

(** [getCollectionsByMetadataId]:
    [Array.from(new Set(items.map(item => item.collection_id)))] over the
    items that the search gives. *)
Definition getCollectionsByMetadataId (collectionIds : list string) : list string :=
  Ead.uniq [] collectionIds.

End Items.

(** ** The configuration (src/lib/Config.js) *)
Module Config.

Inductive Res (A : Type) : Type :=
| Ok (a : A)
| Throws (message : string).
Arguments Ok {A} a.
Arguments Throws {A} message.

(** [parseInt(process.env.X)]: an unset variable is [undefined], which is
    parsed as the string undefined. *)
Definition parseIntEnv (v : option string) : option Z :=
  Dispatcher.parseInt (match v with Some s => s | None => "undefined" end).

(** [port], from [IIIF_SERVER_PORT]. *)
Definition port (v : option string) : Z :=
  match parseIntEnv v with
  | Some n => if (0 <=? n)%Z then n else 3333%Z
  | None => 3333%Z
  end.

(** [redis.port], from [IIIF_SERVER_REDIS_PORT]. *)
Definition redisPort (v : option string) : Z :=
  match parseIntEnv v with
  | Some n => if (0 <? n)%Z then n else 6379%Z
  | None => 6379%Z
  end.

(** [services], from [IIIF_SERVER_SERVICES]. *)
Definition services (v : option string) : Res (list string) :=
  match v with
  | None => Throws "services is not defined"
  | Some s =>
      if orb (String.eqb s "") (String.eqb s "null")
      then Throws "services is not defined"
      else Ok (Str.split "," s)
  end.

(** [internalIpAddresses], from [IIIF_SERVER_INTERNAL_IP_ADDRESSES]. *)
Definition internalIpAddresses (v : option string) : list string :=
  match v with
  | None => []
  | Some s =>
      if orb (String.eqb s "") (String.eqb s "null") then []
      else Str.split "," s
  end.

End Config.

(** ** Sample data used by the examples of Part II *)

Definition niod_image (cid : string) : Niod.Item :=
  {| Niod.id := cid ++ ".1"; Niod.collection_id := Some cid; Niod.type := "image" |}.

Definition niod_params (i : Niod.Item) : Niod.AccessParams :=
  {| Niod.item := i; Niod.ip := None; Niod.identities := [] |}.

Definition niod_store (d : option Niod.JsDate) : Niod.Item -> option Niod.RootItem :=
  fun _ => Some {| Niod.niod := Some {| Niod.accessDate := d |} |}.

Definition demo_cron : Dispatcher.Service :=
  {| Dispatcher.name := "niod-reindex"; Dispatcher.runAs := "cron";
     Dispatcher.type := ""; Dispatcher.cron := "0 3 * * *" |}.

Definition demo_services : list Dispatcher.Service :=
  [ {| Dispatcher.name := "web"; Dispatcher.runAs := "web";
       Dispatcher.type := ""; Dispatcher.cron := "" |};
    demo_cron;
    {| Dispatcher.name := "directory-watcher"; Dispatcher.runAs := "standalone";
       Dispatcher.type := ""; Dispatcher.cron := "" |} ].

(** An element of the EAD namespace. *)
Definition E (name : string) (attrs : list (string * string))
           (children : list Xml.Node) : Xml.Node :=
  Xml.Element Ead.ns name attrs children.

(** The tree of the end-to-end scenario: the root titled "Fonds A", a series
    with the identifier 1 and no title, and in it an item with the identifier
    1.1 and the title "Letter". *)
Definition fonds_a : Xml.Document :=
  E "ead" []
    [ E "archdesc" [("level", "fonds")]
        [ E "did" [] [ E "unittitle" [] [Xml.Text "Fonds A"] ];
          E "dsc" []
            [ E "c01" [("level", "series")]
                [ E "did" [] [ E "unitid" [] [Xml.Text "1"] ];
                  E "c02" [("level", "item")]
                    [ E "did" []
                        [ E "unitid" [] [Xml.Text "1.1"];
                          E "unittitle" [] [Xml.Text "Letter"] ] ] ] ] ] ].


(** ** Vocabulary of the statements of Part II *)

(** The identifier [u] occurs below the level [a]: some [unitid] element
    under [a] has the normalized text [u]. *)
Definition occursBelow (ead : Xml.Document) (a : Xml.Loc) (u : string) : Prop :=
  exists k, XPath.named ead Ead.ns "unitid" (a ++ k)%list = true
            /\ Str.normalize_space (Ead.textAt ead (a ++ k)%list) = u.

(** The same, decided by a search through the nodes below [a]. *)
Definition occursBelowb (ead : Xml.Document) (a : Xml.Loc) (u : string) : bool :=
  existsb (fun k => andb (XPath.named ead Ead.ns "unitid" (a ++ k)%list)
                      (String.eqb (Str.normalize_space (Ead.textAt ead (a ++ k)%list)) u))
          ([] :: Xml.forest (Xml.kids ead a)).

(** A double quote, as a string. *)
Definition quote : string := String Str.dquote EmptyString.

(** The identifier of the collection A whose unit part ends the string
    literal of the expression and adds a clause that always holds: a double
    quote, [or], and the comparison of the literal 1 with itself, the last
    quote left to the expression. *)
Definition always_true_id : string :=
  ("A." ++ quote ++ " or " ++ quote ++ "1" ++ quote ++ "=" ++ quote ++ "1")%string.

(** The key words of the classification, in the order in which [formatOf]
    looks for them. *)
Definition keyWords : list string :=
  ["article"; "serial"; "book"; "sound"; "visual"; "photo"; "poster";
   "drawing"; "object"; "moving"].

(** The text holds a key word, in whatever case. *)
Definition classifiable (txt : string) : bool :=
  existsb (Str.includes (Str.toLowerCase txt)) keyWords.

(** The level has no classifiable text: none of its genre elements, if it
    has any, holds a key word. *)
Definition noClassifiableText (ead : Xml.Document) (level : Xml.Loc) : bool :=
  forallb (fun l => negb (classifiable (Ead.textAt ead l)))
    (Ead.formatElems ead level).

(** The node has a [did] element among its preceding siblings. *)
Definition hasDidBefore (ead : Xml.Document) (n : Xml.Loc) : Prop :=
  exists s, In s (XPath.preceding_sibling n)
            /\ XPath.named ead Ead.ns "did" s = true.

(** The level has an identifier of its own: [./ead:did/ead:unitid] exists. *)
Definition hasExplicitUnitId (ead : Xml.Document) (level : Xml.Loc) : bool :=
  match XPath.get
          (XPath.step (XPath.child ead) (XPath.named ead Ead.ns "unitid")
             (XPath.step (XPath.child ead) (XPath.named ead Ead.ns "did") [level]))
  with
  | Some _ => true
  | None => false
  end.

(** The title a record hands down: [m.eadTitle || m.title]. *)
Definition inheritedTitle (m : Ead.EADMetadata) : string :=
  match Ead.eadTitle m with
  | Some t => if String.eqb t "" then Ead.title m else t
  | None => Ead.title m
  end.

(** A finding aid of books: the first series has no genre of its own, the
    second one names a genre that matches none of the key words. *)
Definition fonds_d : Xml.Document :=
  E "ead" []
    [ E "eadheader" [] [];
      E "archdesc" [("level", "fonds")]
        [ E "did" [] [ E "unittitle" [] [Xml.Text "Library"] ];
          E "controlaccess" [] [ E "genreform" [] [Xml.Text "Books"] ];
          E "dsc" []
            [ E "c01" [("level", "series")]
                [ E "did" [] [ E "unitid" [] [Xml.Text "1"];
                               E "unittitle" [] [Xml.Text "Novels"] ] ];
              E "c01" [("level", "series")]
                [ E "did" [] [ E "unitid" [] [Xml.Text "2"];
                               E "unittitle" [] [Xml.Text "Papers"] ];
                  E "controlaccess" []
                    [ E "genreform" [] [Xml.Text "Manuscripts"];
                      E "genreform" [] [Xml.Text "Photographs"];
                      E "genreform" [] [Xml.Text "Letters"] ] ] ] ] ].

(** A finding aid of books with a series whose only genre matches none of
    the key words. *)
Definition fonds_g : Xml.Document :=
  E "ead" []
    [ E "archdesc" [("level", "fonds")]
        [ E "did" [] [ E "unittitle" [] [Xml.Text "Library"] ];
          E "controlaccess" [] [ E "genreform" [] [Xml.Text "Books"] ];
          E "dsc" []
            [ E "c01" [("level", "series")]
                [ E "did" [] [ E "unitid" [] [Xml.Text "1"];
                               E "unittitle" [] [Xml.Text "Papers"] ];
                  E "controlaccess" []
                    [ E "genreform" [] [Xml.Text "Manuscripts"] ] ] ] ] ].

(** A finding aid whose title stands between two no-break spaces (U+00A0,
    the bytes C2 A0). *)
Definition fonds_h : Xml.Document :=
  E "ead" []
    [ E "archdesc" [("level", "fonds")]
        [ E "did" []
            [ E "unittitle" []
                [Xml.Text (Str.bytes [194; 160; 65; 114; 99; 104; 105; 101; 102;
                                      194; 160])] ] ] ].

(** A finding aid of books in which a series of photographs holds an item
    without a genre of its own. *)
Definition fonds_e : Xml.Document :=
  E "ead" []
    [ E "archdesc" [("level", "fonds")]
        [ E "did" [] [ E "unittitle" [] [Xml.Text "Library"] ];
          E "controlaccess" [] [ E "genreform" [] [Xml.Text "Books"] ];
          E "dsc" []
            [ E "c01" [("level", "series")]
                [ E "did" [] [ E "unitid" [] [Xml.Text "1"];
                               E "unittitle" [] [Xml.Text "Pictures"] ];
                  E "controlaccess" [] [ E "genreform" [] [Xml.Text "Photographs"] ];
                  E "c02" [("level", "item")]
                    [ E "did" [] [ E "unitid" [] [Xml.Text "1.1"];
                                   E "unittitle" [] [Xml.Text "Album"] ] ] ] ] ] ].

(** A document whose root is not an EAD finding aid. *)
Definition no_archdesc : Xml.Document :=
  Xml.Element "" "html" [] [ Xml.Element "" "body" [] [Xml.Text "moved"] ].




(** ** Further vocabulary *)

(** The format tags that [extractFormats] can produce. *)
Definition formatTags : list string :=
  ["article"; "serial"; "book"; "sound"; "visual"; "moving visual"; "archive"].

(** The string starts with a white-space character of ECMAScript, of one,
    two or three bytes; with [back] the string is one read from its end. *)
Definition startsWithSpace (back : bool) (s : string) : bool :=
  match s with
  | EmptyString => false
  | String a r1 =>
      orb (Str.is_js_space a)
        match r1 with
        | EmptyString => false
        | String b r2 =>
            orb (if back then Str.is_js_space2 b a else Str.is_js_space2 a b)
              match r2 with
              | EmptyString => false
              | String c _ =>
                  if back then Str.is_js_space3 c b a else Str.is_js_space3 a b c
              end
        end
  end.

(** The string starts, or ends, with ECMAScript white space. *)
Definition starts_blank (s : string) : bool := startsWithSpace false s.

Definition ends_blank (s : string) : bool := startsWithSpace true (Str.rev s).

(** The formats of a record are tags of [extractFormats], each at most once. *)
Definition formatsOk (m : Ead.EADMetadata) : Prop :=
  NoDup (Ead.formats m) /\ forall f, In f (Ead.formats m) -> In f formatTags.

(** A finding aid whose only series has a title of white space. *)
Definition fonds_f : Xml.Document :=
  E "ead" []
    [ E "archdesc" [("level", "fonds")]
        [ E "did" [] [ E "unittitle" [] [Xml.Text "  Fonds F "] ];
          E "dsc" []
            [ E "c01" [("level", "series")]
                [ E "did" [] [ E "unitid" [] [Xml.Text " 1 "];
                               E "unittitle" [] [Xml.Text "   "] ] ] ] ] ].






(** The decimal numeral with the digits [ds], most significant first. *)
Definition digit_char (d : nat) : ascii := ascii_of_nat (48 + d).

Fixpoint numeral (ds : list nat) : string :=
  match ds with
  | [] => EmptyString
  | d :: r => String (digit_char d) (numeral r)
  end.

(** The number that the digits [ds] denote after the digits read so far
    gave [acc]. *)
Definition valueOf (acc : Z) (ds : list nat) : Z :=
  fold_left (fun a d => (a * 10 + Z.of_nat d)%Z) ds acc.

Definition demo_worker : Dispatcher.Service :=
  {| Dispatcher.name := "text-index"; Dispatcher.runAs := "worker";
     Dispatcher.type := "text"; Dispatcher.cron := "" |}.

(** The items of a list whose identifier has not occurred before them; the
    identifiers in [seen] count as having occurred. *)
Fixpoint firstOccurrences {Item : Type} (id : Item -> string)
         (seen : list string) (items : list Item) : list Item :=
  match items with
  | [] => []
  | x :: r =>
      if existsb (String.eqb (id x)) seen then firstOccurrences id seen r
      else x :: firstOccurrences id (seen ++ [id x]) r
  end.

(** Items for the examples: an identifier and a label. *)
Definition demo_items : list (string * string) :=
  [("a", "first a"); ("b", "first b"); ("a", "second a"); ("c", "first c");
   ("b", "second b")].

(** The names of the authors of a type, in the order of the list. *)
Definition namesOf (t : string) (authors : list Ead.Author) : list string :=
  map Ead.name (filter (fun a => String.eqb (Ead.type a) t) authors).

(** The type of the author is the name of a property of [Object.prototype]. *)
Definition inheritedType (a : Ead.Author) : Prop :=
  existsb (String.eqb (Ead.type a)) Presentation.inherited = true.

(** What [reduce] has built after the authors [done]: a property per type
    with the names of that type, created in the order in which the types
    first occurred. *)
Definition grouped (acc : Presentation.Groups) (done : list Ead.Author) : Prop :=
  (forall t, Presentation.own t acc
             = match namesOf t done with [] => None | names => Some names end)
  /\ map fst acc = Ead.uniq [] (map Ead.type done)
  /\ Forall (fun a => ~ inheritedType a) done.

Definition demo_authors : list Ead.Author :=
  [ {| Ead.type := "Author"; Ead.name := "A. Jansen" |};
    {| Ead.type := "Photographer"; Ead.name := "B. de Vries" |};
    {| Ead.type := "Author"; Ead.name := "C. Bakker" |} ].

(** A sequence of calls of [addRendering] on one object; the first error
    ends it. *)
Fixpoint addRenderings (field : Base.Val) (renderings : list Base.Val) : Base.Res :=
  match renderings with
  | [] => Base.Ok field
  | r :: rest =>
      match Base.addRendering field r with
      | Base.Ok field' => addRenderings field' rest
      | Base.TypeError => Base.TypeError
      end
  end.

(** The elements of the arrays of a list, in order. *)
Fixpoint flatten (arrays : list Base.Val) : list Base.Val :=
  match arrays with
  | [] => []
  | Base.Arr l :: rest => (l ++ flatten rest)%list
  | _ :: rest => flatten rest
  end.

Definition isArr (v : Base.Val) : Prop :=
  match v with
  | Base.Arr _ => True
  | _ => False
  end.

(* ================================================================== *)
(** * Part II: theorems                                                *)
(* ================================================================== *)

Local Open Scope list_scope.

(** ** The primitives on samples *)

(** The test suite of RFC 1321. *)
Example md5_test_suite :
  Md5.md5_hex "" = "d41d8cd98f00b204e9800998ecf8427e"
  /\ Md5.md5_hex "a" = "0cc175b9c0f1b6a831c399e269772661"
  /\ Md5.md5_hex "abc" = "900150983cd24fb0d6963f7d28e17f72"
  /\ Md5.md5_hex "message digest" = "f96b697d7cb7938d525a2f31aaf161d0"
  /\ Md5.md5_hex "abcdefghijklmnopqrstuvwxyz" = "c3fcd3d76192e4007dfb496cca67e13b"
  /\ Md5.md5_hex "ABCDEFGHIJKLMNOPQRSTUVWXYZabcdefghijklmnopqrstuvwxyz0123456789"
     = "d174ab98d277d9f5a5611c2c9f419d9f"
  /\ Md5.md5_hex
       "12345678901234567890123456789012345678901234567890123456789012345678901234567890"
     = "57edf4a22be3c955ac49da2e2107b67a".
Proof. vm_compute. repeat split. Qed.

Example string_samples :
  Str.trim "  Closed. " = "Closed."
  /\ Str.toLowerCase "Gesloten" = "gesloten"
  /\ Str.includes "photographs" "photo" = true
  /\ Str.includes "letters" "photo" = false
  /\ Str.split "." "A.1.1" = ["A"; "1"; "1"]
  /\ Str.split "." "A" = ["A"]
  /\ Str.normalize_space "  1.1   a " = "1.1 a"
  /\ Ead.getUnitId "A.1.1" = "1.1" /\ Ead.getUnitId "A" = ""
  /\ Ead.getRootId "A.1.1" = "A".
Proof. vm_compute. repeat split. Qed.

(** ** The NIOD policy *)

(** C1, as stated, fails at the boundary: with the embargo date at
    1000 ms and the clock reading exactly 1000 ms, an image item of the
    collection is CLOSED, not OPEN; so the statement "Closed strictly before
    D and Open at D or later" does not hold of [hasAccess]. *)
Lemma niod_embargo_boundary_not_inclusive :
  Niod.hasAccess (niod_store (Some (Niod.DateAt 1000))) 1000
                 (niod_params (niod_image "A"))
  = {| Niod.state := Niod.CLOSED |}
  /\ ~ (forall store now p D,
          Niod.accessDateOf store (Niod.item p) = Some (Niod.DateAt D) ->
          Niod.collection_id (Niod.item p) <> None ->
          Niod.type (Niod.item p) <> "metadata" ->
          ((now < D)%Z -> Niod.state (Niod.hasAccess store now p) = Niod.CLOSED)
          /\ ((D <= now)%Z -> Niod.state (Niod.hasAccess store now p) = Niod.OPEN)).
Proof.
  split; [reflexivity|].
  intro H.
  destruct (H (niod_store (Some (Niod.DateAt 1000))) 1000%Z
              (niod_params (niod_image "A")) 1000%Z) as [_ Hopen];
    [reflexivity | discriminate | discriminate |].
  specialize (Hopen (Z.le_refl _)). discriminate Hopen.
Qed.

(** C1 (amended): for an item that belongs to a collection and is not a
    metadata item, whose root item carries the embargo date D, [hasAccess]
    is CLOSED while the clock reads D or earlier and OPEN once the clock
    reads strictly later than D. *)
Theorem niod_embargo_boundary_strict :
  forall store now p c D,
    Niod.collection_id (Niod.item p) = Some c ->
    Niod.type (Niod.item p) <> "metadata" ->
    Niod.accessDateOf store (Niod.item p) = Some (Niod.DateAt D) ->
    ((now <= D)%Z -> Niod.hasAccess store now p = {| Niod.state := Niod.CLOSED |})
    /\ ((D < now)%Z -> Niod.hasAccess store now p = {| Niod.state := Niod.OPEN |}).
Proof.
  intros store now p c D Hc Ht Hd.
  unfold Niod.hasAccess. rewrite Hc, Hd.
  apply String.eqb_neq in Ht. rewrite Ht. simpl.
  split; intro Hcmp.
  - replace (D <? now)%Z with false; [reflexivity|].
    symmetry. apply Z.ltb_ge. exact Hcmp.
  - replace (D <? now)%Z with true; [reflexivity|].
    symmetry. apply Z.ltb_lt. exact Hcmp.
Qed.

Lemma niod_embargo_boundary_strict_witness :
  (Niod.hasAccess (niod_store (Some (Niod.DateAt 1000))) 999
                  (niod_params (niod_image "A")) = {| Niod.state := Niod.CLOSED |})
  /\ (Niod.hasAccess (niod_store (Some (Niod.DateAt 1000))) 1001
                  (niod_params (niod_image "A")) = {| Niod.state := Niod.OPEN |}).
Proof.
  split.
  - apply (proj1 (niod_embargo_boundary_strict
                    (niod_store (Some (Niod.DateAt 1000))) 999
                    (niod_params (niod_image "A")) "A" 1000
                    eq_refl ltac:(discriminate) eq_refl)).
    lia.
  - apply (proj2 (niod_embargo_boundary_strict
                    (niod_store (Some (Niod.DateAt 1000))) 1001
                    (niod_params (niod_image "A")) "A" 1000
                    eq_refl ltac:(discriminate) eq_refl)).
    lia.
Defined.

(** C7: when no embargo date is configured for the item's collection (no
    root item, no NIOD block, or no access date), [hasAccess] is OPEN for
    every item, requester address and list of identities. *)
Theorem niod_no_embargo_date_is_open :
  forall store now i ip ids,
    Niod.accessDateOf store i = None ->
    Niod.hasAccess store now
      {| Niod.item := i; Niod.ip := ip; Niod.identities := ids |}
    = {| Niod.state := Niod.OPEN |}.
Proof.
  intros store now i ip ids Hd.
  unfold Niod.hasAccess. simpl. rewrite Hd.
  destruct (Niod.collection_id i); [|reflexivity].
  destruct (String.eqb (Niod.type i) "metadata"); reflexivity.
Qed.

Lemma niod_no_embargo_date_is_open_witness :
  Niod.hasAccess (niod_store None) 5
    {| Niod.item := niod_image "A"; Niod.ip := Some "10.0.0.1";
       Niod.identities := ["token"] |}
  = {| Niod.state := Niod.OPEN |}.
Proof.
  apply (niod_no_embargo_date_is_open (niod_store None) 5 (niod_image "A")
           (Some "10.0.0.1") ["token"]).
  reflexivity.
Defined.

(** ** The dispatcher *)

Example parseInt_samples :
  Dispatcher.parseInt "0" = Some 0%Z /\ Dispatcher.parseInt " -0" = Some 0%Z
  /\ Dispatcher.parseInt "0x0" = Some 0%Z /\ Dispatcher.parseInt "0.5" = Some 0%Z
  /\ Dispatcher.parseInt "1" = Some 1%Z /\ Dispatcher.parseInt "12px" = Some 12%Z
  /\ Dispatcher.parseInt "0xff" = Some 255%Z
  /\ Dispatcher.parseInt "" = None /\ Dispatcher.parseInt "0x" = None
  /\ Dispatcher.parseInt "one" = None.
Proof. repeat split; reflexivity. Qed.

Lemma firstInstance_true_iff :
  forall c,
    Dispatcher.firstInstance c = true <->
    (Dispatcher.appInstance c = None
     \/ exists s, Dispatcher.appInstance c = Some s
                  /\ Dispatcher.parseInt s = Some 0%Z).
Proof.
  intro c. unfold Dispatcher.firstInstance.
  destruct (Dispatcher.appInstance c) as [s|].
  - destruct (Dispatcher.parseInt s) as [v|] eqn:Hp.
    + split.
      * intro H. apply Z.eqb_eq in H. subst v. right. exists s. auto.
      * intros [H|[s' [H1 H2]]]; [discriminate|].
        injection H1 as <-. rewrite Hp in H2. injection H2 as ->. reflexivity.
    + split; [discriminate|].
      intros [H|[s' [H1 H2]]]; [discriminate|].
      injection H1 as <-. rewrite Hp in H2. discriminate.
  - split; auto.
Qed.

Lemma firstInstance_false :
  forall c s,
    Dispatcher.appInstance c = Some s ->
    Dispatcher.parseInt s <> Some 0%Z ->
    Dispatcher.firstInstance c = false.
Proof.
  intros c s Ha Hp.
  destruct (Dispatcher.firstInstance c) eqn:E; [|reflexivity].
  apply firstInstance_true_iff in E.
  destruct E as [E|[s' [E1 E2]]]; [congruence|].
  rewrite Ha in E1. injection E1 as <-. contradiction.
Qed.

(** One step of the loop, by the value of [runAs]. *)
Lemma initService_cases :
  forall c p s,
    (Dispatcher.runAs s = "web"
     /\ Dispatcher.initService c p s = Dispatcher.startWeb p)
    \/ (Dispatcher.runAs s = "worker"
        /\ Dispatcher.initService c p s = Dispatcher.startWorker s p)
    \/ (Dispatcher.runAs s = "standalone"
        /\ Dispatcher.initService c p s =
           if Dispatcher.firstInstance c then Dispatcher.startStandalone s p else p)
    \/ (Dispatcher.runAs s = "cron"
        /\ Dispatcher.initService c p s =
           if Dispatcher.firstInstance c then Dispatcher.startCron s p else p)
    \/ (Dispatcher.runAs s <> "standalone" /\ Dispatcher.runAs s <> "cron"
        /\ Dispatcher.initService c p s = p).
Proof.
  intros c p s. unfold Dispatcher.initService.
  destruct (String.eqb_spec (Dispatcher.runAs s) "web") as [E|Nw]; [auto|].
  destruct (String.eqb_spec (Dispatcher.runAs s) "worker") as [E|Nk]; [auto|].
  destruct (String.eqb_spec (Dispatcher.runAs s) "standalone") as [E|Ns];
    [auto 6|].
  destruct (String.eqb_spec (Dispatcher.runAs s) "cron") as [E|Nc];
    [auto 6|].
  right; right; right; right. auto.
Qed.

(** On an instance other than the first, the loop adds neither a standalone
    run nor a cron job. *)
Lemma start_gated_from :
  forall c services p,
    Dispatcher.firstInstance c = false ->
    Dispatcher.standaloneRuns (fold_left (Dispatcher.initService c) services p)
    = Dispatcher.standaloneRuns p
    /\ Dispatcher.cronJobs (fold_left (Dispatcher.initService c) services p)
       = Dispatcher.cronJobs p.
Proof.
  intros c services p Hf. revert p.
  induction services as [|s rest IH]; intro p; simpl; [auto|].
  destruct (IH (Dispatcher.initService c p s)) as [IH1 IH2].
  rewrite IH1, IH2.
  destruct (initService_cases c p s)
    as [[_ E]|[[_ E]|[[_ E]|[[_ E]|[_ [_ E]]]]]];
    rewrite E; try rewrite Hf; auto.
Qed.

(** On the first instance, every cron service met by the loop is scheduled,
    and the jobs already scheduled stay. *)
Lemma start_schedules_from :
  forall c services p j,
    Dispatcher.firstInstance c = true ->
    In j (Dispatcher.cronJobs p)
    \/ (exists s, In s services /\ Dispatcher.runAs s = "cron"
                  /\ j = (Dispatcher.cron s, Dispatcher.name s)) ->
    In j (Dispatcher.cronJobs (fold_left (Dispatcher.initService c) services p)).
Proof.
  intros c services p j Hf. revert p.
  induction services as [|s rest IH]; intros p H; simpl.
  - destruct H as [H|[s [[] _]]]. exact H.
  - apply IH.
    destruct H as [H|[s' [[->|Hin] [Hr ->]]]].
    + left.
      destruct (initService_cases c p s)
        as [[_ E]|[[_ E]|[[_ E]|[[_ E]|[_ [_ E]]]]]];
        rewrite E; try rewrite Hf; simpl; auto.
      apply in_or_app; auto.
    + left.
      destruct (initService_cases c p s')
        as [[E0 E]|[[E0 E]|[[E0 E]|[[E0 E]|[_ [E0 E]]]]]];
        try congruence.
      rewrite E, Hf. simpl. apply in_or_app. right. left. reflexivity.
    + right. exists s'. auto.
Qed.

Lemma tick_of_no_jobs :
  forall p ticks,
    Dispatcher.standaloneRuns p = [] ->
    Dispatcher.cronJobs p = [] ->
    Dispatcher.invocations p ticks = [].
Proof.
  intros p ticks Hs Hc. unfold Dispatcher.invocations, Dispatcher.tick.
  rewrite Hs, Hc. simpl.
  induction ticks as [|d rest IH]; simpl; auto.
Qed.

(** C8: single-instance gating.  When [appInstance] is set and parses to
    anything but 0 (NaN included), the loop over the services schedules no
    cron job and runs no standalone capability, so no such capability is
    ever invoked, whatever the ticks.  When [appInstance] is unset or parses
    to 0, every cron service of the list is scheduled, and its capability is
    invoked at every tick at which its schedule expression is due. *)
Theorem dispatcher_single_instance_gating :
  forall c services,
    (forall s,
        Dispatcher.appInstance c = Some s ->
        Dispatcher.parseInt s <> Some 0%Z ->
        Dispatcher.cronJobs (Dispatcher.start c services) = []
        /\ Dispatcher.standaloneRuns (Dispatcher.start c services) = []
        /\ forall ticks,
            Dispatcher.invocations (Dispatcher.start c services) ticks = [])
    /\ (Dispatcher.appInstance c = None
        \/ (exists s, Dispatcher.appInstance c = Some s
                      /\ Dispatcher.parseInt s = Some 0%Z) ->
        forall svc,
          In svc services ->
          Dispatcher.runAs svc = "cron" ->
          In (Dispatcher.cron svc, Dispatcher.name svc)
             (Dispatcher.cronJobs (Dispatcher.start c services))
          /\ forall due before after,
              due (Dispatcher.cron svc) = true ->
              In (Dispatcher.name svc)
                 (Dispatcher.tick due (Dispatcher.start c services))
              /\ In (Dispatcher.name svc)
                    (Dispatcher.invocations (Dispatcher.start c services)
                       (before ++ due :: after))).
Proof.
  intros c services. split.
  - intros s Ha Hp.
    pose proof (firstInstance_false c s Ha Hp) as Hf.
    destruct (start_gated_from c services Dispatcher.idle Hf) as [Hs Hc].
    simpl in Hs, Hc. unfold Dispatcher.start.
    repeat split; auto.
    intro ticks. apply tick_of_no_jobs; assumption.
  - intros Hfirst svc Hin Hrun.
    apply firstInstance_true_iff in Hfirst.
    assert (Hjob : In (Dispatcher.cron svc, Dispatcher.name svc)
                      (Dispatcher.cronJobs (Dispatcher.start c services))).
    { unfold Dispatcher.start. apply start_schedules_from; [assumption|].
      right. exists svc. auto. }
    split; [exact Hjob|].
    intros due before after Hdue.
    assert (Htick : In (Dispatcher.name svc)
                       (Dispatcher.tick due (Dispatcher.start c services))).
    { unfold Dispatcher.tick.
      change (Dispatcher.name svc)
        with (snd (Dispatcher.cron svc, Dispatcher.name svc)).
      apply in_map. apply filter_In. split; [exact Hjob|exact Hdue]. }
    split; [exact Htick|].
    unfold Dispatcher.invocations. apply in_or_app. right.
    apply in_flat_map. exists due. split; [|exact Htick].
    apply in_or_app. right. left. reflexivity.
Qed.

Lemma dispatcher_single_instance_gating_witness :
  (forall ticks,
      Dispatcher.invocations
        (Dispatcher.start {| Dispatcher.appInstance := Some "1" |} demo_services)
        ticks = [])
  /\ In (Dispatcher.name demo_cron)
        (Dispatcher.tick (String.eqb "0 3 * * *")
           (Dispatcher.start {| Dispatcher.appInstance := Some "0" |} demo_services)).
Proof.
  split.
  - exact (proj2 (proj2 (proj1 (dispatcher_single_instance_gating
                                  {| Dispatcher.appInstance := Some "1" |}
                                  demo_services)
                           "1" eq_refl ltac:(discriminate)))).
  - exact (proj1 (proj2 (proj2 (dispatcher_single_instance_gating
                                  {| Dispatcher.appInstance := Some "0" |}
                                  demo_services)
                           (or_intror (ex_intro _ "0" (conj eq_refl eq_refl)))
                           demo_cron (or_intror (or_introl eq_refl)) eq_refl)
                    (String.eqb "0 3 * * *") [] [] eq_refl)).
Defined.



(** ** Node sets *)

(** ** The identifier in the XPath expression *)

Lemma append_nil_r : forall s : string, (s ++ "")%string = s.
Proof. induction s as [|c s IH]; simpl; [reflexivity|]. rewrite IH. reflexivity. Qed.

Lemma append_assoc :
  forall a b c : string, ((a ++ b) ++ c)%string = (a ++ (b ++ c))%string.
Proof.
  induction a as [|x a IH]; intros b c; simpl; [reflexivity|].
  rewrite IH. reflexivity.
Qed.

Lemma tokens_literal :
  forall u acc,
    Str.mem_char Str.dquote u = false ->
    XPath.tokens (Some (Str.dquote, acc)) (u ++ String Str.dquote "")%string
    = Some [XPath.TLit (Str.rev acc ++ u)%string].
Proof.
  induction u as [|c r IH]; intros acc H.
  - simpl. rewrite append_nil_r. reflexivity.
  - cbn [Str.mem_char] in H. apply orb_false_elim in H. destruct H as [Hc Hr].
    cbn [append XPath.tokens]. rewrite Ascii.eqb_sym, Hc, (IH _ Hr).
    cbn [Str.rev]. rewrite append_assoc. reflexivity.
Qed.

(** An identifier without a double quote is the string that
    [normalize-space()] is compared with, and nothing else is added to the
    predicate: the expression is the one written in the source. *)
Lemma spliced_literal :
  forall unitId,
    XPath.literal unitId = true ->
    XPath.spliced unitId = Some {| XPath.value := unitId; XPath.more := [] |}.
Proof.
  intros u H. unfold XPath.literal in H. apply negb_true_iff in H.
  unfold XPath.spliced. rewrite (tokens_literal u "" H). reflexivity.
Qed.

Lemma levelWhere_literal :
  forall ead from unitId,
    Ead.levelWhere ead from {| XPath.value := unitId; XPath.more := [] |}
    = Ead.levelOfUnitId ead from unitId.
Proof. reflexivity. Qed.


Example spliced_samples :
  XPath.spliced "1.1" = Some {| XPath.value := "1.1"; XPath.more := [] |}
  /\ XPath.spliced (Str.bytes [34; 32; 111; 114; 32; 34; 49; 34; 61; 34; 49])
     = Some {| XPath.value := "";
               XPath.more := [(XPath.Or, XPath.Equal "1" "1")] |}
  /\ XPath.spliced (Str.bytes [97; 34; 98]) = None.
Proof. repeat split; reflexivity. Qed.

Lemma insert_In :
  forall x l s, In x (XPath.insert l s) -> x = l \/ In x s.
Proof.
  intros x l s. induction s as [|y r IH]; simpl.
  - intros [H|[]]. auto.
  - destruct (XPath.loc_compare l y); simpl.
    + auto.
    + intros [H|H]; auto.
    + intros [H|H]; auto. destruct (IH H); auto.
Qed.

Lemma norm_In :
  forall x raw, In x (XPath.norm raw) -> In x raw.
Proof.
  intros x raw. induction raw as [|l r IH]; simpl; [auto|].
  intro H. apply insert_In in H. destruct H; auto.
Qed.

Lemma step_In :
  forall axis test from x,
    In x (XPath.step axis test from) ->
    test x = true /\ exists y, In y from /\ In x (axis y).
Proof.
  intros axis test from x H. unfold XPath.step in H.
  apply norm_In in H. apply filter_In in H. destruct H as [H Ht].
  split; [exact Ht|]. apply in_flat_map in H. exact H.
Qed.

Lemma step_none :
  forall axis test, XPath.step axis test [] = [].
Proof. reflexivity. Qed.

Lemma descendant_or_self_below :
  forall d a x, In x (XPath.descendant_or_self d a) -> exists k, x = (a ++ k)%list.
Proof.
  intros d a x H. unfold XPath.descendant_or_self in H.
  apply in_map_iff in H. destruct H as [k [Hk _]]. exists k. auto.
Qed.

Lemma child_below :
  forall d y x, In x (XPath.child d y) -> exists i, x = (y ++ [i])%list.
Proof.
  intros d y x H. unfold XPath.child in H.
  apply in_map_iff in H. destruct H as [i [Hi _]]. exists i. auto.
Qed.

(** ** Locations of a document *)

Lemma number_In :
  forall ts i j t p,
    nth_error ts i = Some t -> In p t -> In ((j + i) :: p) (Xml.number j ts).
Proof.
  induction ts as [|t0 r IH]; intros i j t p Hn Hp.
  - destruct i; discriminate.
  - simpl. apply in_or_app. destruct i as [|i]; simpl in Hn.
    + injection Hn as ->. left. rewrite Nat.add_0_r.
      apply in_map. exact Hp.
    + right. replace (j + S i) with (S j + i) by lia.
      apply IH with (t := t); assumption.
Qed.

Lemma subtree_self : forall n, In [] (Xml.subtree n).
Proof. intro n. destruct n; simpl; auto. Qed.

Lemma subtree_children :
  forall n p, In p (Xml.forest (Xml.children n)) -> In p (Xml.subtree n).
Proof.
  intros n p H. destruct n; simpl in *; auto.
Qed.

(** Every node that can be reached is listed among the descendants. *)
Lemma node_in_forest :
  forall l top n, Xml.node_in top l = Some n -> In l (Xml.forest top).
Proof.
  induction l as [|i r IH]; intros top n H; [discriminate|].
  simpl in H. destruct (nth_error top i) as [c|] eqn:Hc; [|discriminate].
  unfold Xml.forest.
  change (i :: r) with ((0 + i) :: r).
  apply number_In with (t := Xml.subtree c).
  - rewrite nth_error_map, Hc. reflexivity.
  - destruct r as [|j r'].
    + apply subtree_self.
    + apply subtree_children. apply IH with (n := n). exact H.
Qed.

Lemma node_in_app :
  forall a top k,
    k <> [] ->
    Xml.node_in top (a ++ k)
    = match a with
      | [] => Xml.node_in top k
      | _ => match Xml.node_in top a with
             | Some n => Xml.node_in (Xml.children n) k
             | None => None
             end
      end.
Proof.
  induction a as [|i a IH]; intros top k Hk; [reflexivity|].
  simpl. destruct (nth_error top i) as [c|]; [|reflexivity].
  destruct a as [|j a'].
  - simpl. destruct k; [contradiction|reflexivity].
  - rewrite (IH (Xml.children c) k Hk). reflexivity.
Qed.

Lemma node_at_below :
  forall ead a k n,
    Xml.node_at ead (a ++ k) = Some n ->
    In k ([] :: Xml.forest (Xml.kids ead a)).
Proof.
  intros ead a k n H. destruct k as [|j k]; [left; reflexivity|].
  right. unfold Xml.node_at in H.
  rewrite node_in_app in H by discriminate.
  unfold Xml.kids, Xml.node_at. destruct a as [|i a].
  - apply node_in_forest with (n := n). exact H.
  - destruct (Xml.node_in [ead] (i :: a)) as [m|]; [|discriminate].
    apply node_in_forest with (n := n). exact H.
Qed.

Lemma occursBelowb_complete :
  forall ead a u, occursBelow ead a u -> occursBelowb ead a u = true.
Proof.
  intros ead a u [k [Hn Ht]]. unfold occursBelowb.
  apply existsb_exists. exists k. split.
  - unfold XPath.named in Hn.
    destruct (Xml.node_at ead (a ++ k)) as [n|] eqn:E; [|discriminate].
    apply node_at_below with (n := n). exact E.
  - rewrite Hn. simpl. apply String.eqb_eq. exact Ht.
Qed.

(** ** The metadata resolver *)

(** An identifier that does not occur below a level is not found there. *)
Lemma levelOfUnitId_absent :
  forall ead a u,
    ~ occursBelow ead a u ->
    Ead.levelOfUnitId ead a u = None.
Proof.
  intros ead a u Habs. unfold Ead.levelOfUnitId.
  destruct (XPath.step (XPath.child ead)
              (fun l => andb (XPath.named ead Ead.ns "unitid" l)
                          (XPath.normalize_space_is ead u l))
              (XPath.step (XPath.descendant_or_self ead) XPath.node [a]))
    as [|x rest] eqn:E.
  - reflexivity.
  - exfalso. apply Habs.
    assert (Hx : In x (x :: rest)) by (left; reflexivity).
    rewrite <- E in Hx. apply step_In in Hx.
    destruct Hx as [Ht [y [Hy Hc]]].
    apply step_In in Hy. destruct Hy as [_ [z [Hz Hd]]].
    destruct Hz as [<-|[]].
    apply descendant_or_self_below in Hd. destruct Hd as [k ->].
    apply child_below in Hc. destruct Hc as [i ->].
    apply andb_prop in Ht. destruct Ht as [Hn Hs].
    exists (k ++ [i])%list. rewrite app_assoc. split; [exact Hn|].
    unfold XPath.normalize_space_is in Hs. unfold Ead.textAt.
    destruct (Xml.node_at ead ((a ++ k) ++ [i])%list); [|discriminate].
    apply String.eqb_eq. exact Hs.
Qed.

(** X25: in a finding aid with a root description [archdesc], a target
    whose unqualified identifier holds no double quote and occurs nowhere
    below the root description gets exactly one record, the record of the
    root description; the call returns (no failure is raised). *)
Theorem getMetadata_absent_target :
  forall ead collectionId archdesc,
    Ead.archdescOf ead = Some archdesc ->
    XPath.literal (Ead.getUnitId collectionId) = true ->
    ~ occursBelow ead archdesc (Ead.getUnitId collectionId) ->
    Ead.getMetadata ead collectionId
    = Ead.Returns [Ead.extractMetadataFromLevel ead (Some archdesc) None].
Proof.
  intros ead cid a Ha Hlit Habs. unfold Ead.getMetadata.
  rewrite Ha, (spliced_literal _ Hlit), levelWhere_literal,
    (levelOfUnitId_absent ead a _ Habs).
  reflexivity.
Qed.

Lemma getMetadata_absent_target_witness :
  Ead.getMetadata fonds_a "A.7"
  = Ead.Returns [Ead.extractMetadataFromLevel fonds_a (Some [0; 0]) None].
Proof.
  apply (getMetadata_absent_target fonds_a "A.7" [0; 0]).
  - reflexivity.
  - reflexivity.
  - intro H. apply occursBelowb_complete in H. vm_compute in H. discriminate H.
Defined.

(** C6: an identifier with a double quote that is absent from the tree and
    nevertheless gets two records.  In the tree of the scenario no [unitid]
    has the text of the unit part of [always_true_id], but the expression
    built from it asks for the [unitid] elements whose text is empty or for
    which 1 equals 1, which are all of them; the first one belongs to the
    series 1, whose record follows the record of the root.  So the absent
    target is not answered with the record of the root alone. *)
Theorem getMetadata_absent_target_with_quote :
  Ead.archdescOf fonds_a = Some [0; 0]
  /\ ~ occursBelow fonds_a [0; 0] (Ead.getUnitId always_true_id)
  /\ XPath.spliced (Ead.getUnitId always_true_id)
     = Some {| XPath.value := "";
               XPath.more := [(XPath.Or, XPath.Equal "1" "1")] |}
  /\ Ead.getMetadata fonds_a always_true_id
     = Ead.Returns
         [Ead.extractMetadataFromLevel fonds_a (Some [0; 0]) None;
          Ead.extractMetadataFromLevel fonds_a (Some [0; 0; 1; 0])
            (Some (Ead.extractMetadataFromLevel fonds_a (Some [0; 0]) None))]
  /\ ~ (forall ead collectionId archdesc,
          Ead.archdescOf ead = Some archdesc ->
          ~ occursBelow ead archdesc (Ead.getUnitId collectionId) ->
          Ead.getMetadata ead collectionId
          = Ead.Returns [Ead.extractMetadataFromLevel ead (Some archdesc) None]).
Proof.
  assert (Habs : ~ occursBelow fonds_a [0; 0] (Ead.getUnitId always_true_id)).
  { intro H. apply occursBelowb_complete in H. vm_compute in H. discriminate H. }
  assert (Hrun : Ead.getMetadata fonds_a always_true_id
                 = Ead.Returns
                     [Ead.extractMetadataFromLevel fonds_a (Some [0; 0]) None;
                      Ead.extractMetadataFromLevel fonds_a (Some [0; 0; 1; 0])
                        (Some (Ead.extractMetadataFromLevel fonds_a
                                 (Some [0; 0]) None))])
    by (vm_compute; reflexivity).
  assert (Ha : Ead.archdescOf fonds_a = Some [0; 0]) by (vm_compute; reflexivity).
  split; [exact Ha|]. split; [exact Habs|].
  split; [vm_compute; reflexivity|]. split; [exact Hrun|].
  intro H. specialize (H fonds_a always_true_id [0; 0] Ha Habs).
  rewrite Hrun in H.
  assert (Hlen : forall a b : list Ead.EADMetadata,
             Ead.Returns a = Ead.Returns b -> List.length a = List.length b)
    by (intros a b E; injection E as ->; reflexivity).
  apply Hlen in H. cbn [List.length] in H. discriminate H.
Qed.

(** C10: a document without a root description ([//ead:ead/ead:archdesc]
    selects nothing) gets the empty list, whatever the identifier: no record
    is made up for the root. *)
Theorem getMetadata_without_archdesc :
  forall ead collectionId,
    Ead.archdescOf ead = None ->
    Ead.getMetadata ead collectionId = Ead.Returns [].
Proof.
  intros ead cid H. unfold Ead.getMetadata. rewrite H. reflexivity.
Qed.

Lemma getMetadata_without_archdesc_witness :
  Ead.getMetadata no_archdesc "A.1.1" = Ead.Returns [].
Proof.
  apply (getMetadata_without_archdesc no_archdesc "A.1.1"). reflexivity.
Defined.

(** ** The record of one level *)

Ltac split_matches :=
  repeat match goal with
         | |- context [match ?x with _ => _ end] => destruct x
         end.

Lemma record_formats :
  forall ead l pm,
    Ead.formats (Ead.extractMetadataFromLevel ead (Some l) pm)
    = Ead.formats (Ead.extractFormats ead l Ead.blank pm).
Proof.
  intros. unfold Ead.extractMetadataFromLevel, Ead.extractEadTitle,
    Ead.extractDates, Ead.extractAuthors, Ead.extractExtent,
    Ead.extractContent, Ead.extractOrder, Ead.extractUnitId, Ead.extractTitle.
  split_matches; reflexivity.
Qed.

Lemma record_title :
  forall ead l pm,
    Ead.title (Ead.extractMetadataFromLevel ead (Some l) pm)
    = Ead.title (Ead.extractTitle ead l (Ead.extractFormats ead l Ead.blank pm)).
Proof.
  intros. unfold Ead.extractMetadataFromLevel, Ead.extractEadTitle,
    Ead.extractDates, Ead.extractAuthors, Ead.extractExtent,
    Ead.extractContent, Ead.extractOrder, Ead.extractUnitId.
  split_matches; reflexivity.
Qed.

Lemma record_flag :
  forall ead l pm,
    Ead.unitIdIsInventoryNumber (Ead.extractMetadataFromLevel ead (Some l) pm)
    = Ead.unitIdIsInventoryNumber
        (Ead.extractUnitId ead l
           (Ead.extractTitle ead l (Ead.extractFormats ead l Ead.blank pm)) pm).
Proof.
  intros. unfold Ead.extractMetadataFromLevel, Ead.extractEadTitle,
    Ead.extractDates, Ead.extractAuthors, Ead.extractExtent,
    Ead.extractContent, Ead.extractOrder.
  split_matches; reflexivity.
Qed.

Lemma flag_before_unit_id :
  forall ead l pm,
    Ead.unitIdIsInventoryNumber
      (Ead.extractTitle ead l (Ead.extractFormats ead l Ead.blank pm)) = true.
Proof.
  intros. unfold Ead.extractTitle, Ead.extractFormats.
  split_matches; reflexivity.
Qed.

(** The position is set at every level, the root description included. *)
Lemma record_order :
  forall ead l pm,
    Ead.order (Ead.extractMetadataFromLevel ead (Some l) pm)
    = Some (List.length
              (XPath.step XPath.preceding_sibling (XPath.element ead) [l])).
Proof.
  intros. unfold Ead.extractMetadataFromLevel, Ead.extractEadTitle,
    Ead.extractDates, Ead.extractAuthors, Ead.extractExtent,
    Ead.extractContent, Ead.extractOrder.
  split_matches; reflexivity.
Qed.

(** A record below the root carries the title handed down by its context. *)
Lemma record_eadTitle :
  forall ead l pm,
    Ead.eadTitle (Ead.extractMetadataFromLevel ead (Some l) pm)
    = match pm with
      | Some p => Some (inheritedTitle p)
      | None => None
      end.
Proof.
  intros. unfold Ead.extractMetadataFromLevel, Ead.extractEadTitle, inheritedTitle.
  destruct pm as [p|].
  - reflexivity.
  - unfold Ead.extractDates, Ead.extractAuthors, Ead.extractExtent,
      Ead.extractContent, Ead.extractOrder, Ead.extractUnitId,
      Ead.extractTitle, Ead.extractFormats.
    split_matches; reflexivity.
Qed.

(** With an empty title the flag keeps its initial value. *)
Lemma flag_of_empty_title :
  forall ead l pm,
    Ead.title (Ead.extractMetadataFromLevel ead (Some l) pm) = "" ->
    Ead.unitIdIsInventoryNumber (Ead.extractMetadataFromLevel ead (Some l) pm)
    = true.
Proof.
  intros ead l pm Ht. rewrite record_title in Ht. rewrite record_flag.
  unfold Ead.extractUnitId. rewrite Ht. simpl.
  apply flag_before_unit_id.
Qed.

(** C4, as stated, fails: the record of the item 1.1 of "Fonds A", resolved
    below the root record, has an identifier of its own and its flag is
    true; the flag is not "true exactly when there is no identifier and the
    record is not the root record". *)
Lemma inventory_number_flag_not_surrogate :
  hasExplicitUnitId fonds_a [0; 0; 1; 0; 1] = true
  /\ Ead.unitIdIsInventoryNumber
       (Ead.extractMetadataFromLevel fonds_a (Some [0; 0; 1; 0; 1])
          (Some (Ead.extractMetadataFromLevel fonds_a (Some [0; 0]) None)))
     = true
  /\ ~ (forall ead level pm,
           Ead.unitIdIsInventoryNumber
             (Ead.extractMetadataFromLevel ead (Some level) pm) = true
           <-> (hasExplicitUnitId ead level = false /\ pm <> None)).
Proof.
  split; [reflexivity|]. split; [reflexivity|].
  intro H.
  destruct (H fonds_a [0; 0; 1; 0; 1]
              (Some (Ead.extractMetadataFromLevel fonds_a (Some [0; 0]) None)))
    as [Hdir _].
  destruct (Hdir eq_refl) as [Hno _].
  vm_compute in Hno. discriminate Hno.
Qed.

(** C4 (amended): for every record with a title that is not empty, the flag
    [unitIdIsInventoryNumber] is true exactly when the level has an
    identifier of its own and the record is not the root record (it was
    resolved below a context record); so it is false for the root record and
    false whenever the identifier had to be derived from the title. *)
Theorem inventory_number_flag :
  forall ead level pm,
    Ead.title (Ead.extractMetadataFromLevel ead (Some level) pm) <> "" ->
    Ead.unitIdIsInventoryNumber (Ead.extractMetadataFromLevel ead (Some level) pm)
    = andb (hasExplicitUnitId ead level)
           (match pm with Some _ => true | None => false end).
Proof.
  intros ead level pm Ht. rewrite record_title in Ht. rewrite record_flag.
  unfold Ead.extractUnitId, hasExplicitUnitId.
  apply String.eqb_neq in Ht. rewrite Ht.
  destruct (XPath.get _); destruct pm; reflexivity.
Qed.

Lemma inventory_number_flag_witness :
  Ead.unitIdIsInventoryNumber
    (Ead.extractMetadataFromLevel fonds_a (Some [0; 0; 1; 0; 1])
       (Some (Ead.extractMetadataFromLevel fonds_a (Some [0; 0]) None)))
  = andb (hasExplicitUnitId fonds_a [0; 0; 1; 0; 1]) true.
Proof.
  apply (inventory_number_flag fonds_a [0; 0; 1; 0; 1]
           (Some (Ead.extractMetadataFromLevel fonds_a (Some [0; 0]) None))).
  vm_compute. discriminate.
Defined.

(** A level has no classification of its own exactly when it has no genre
    element: a genre that matches no key word is classified [archive]. *)
Lemma ownFormats_none_iff :
  forall ead l, Ead.ownFormats ead l = [] <-> Ead.formatElems ead l = [].
Proof.
  intros ead l. unfold Ead.ownFormats. split.
  - apply map_eq_nil.
  - intros ->. reflexivity.
Qed.

Example unmatched_genre_is_archive :
  Ead.formatOf "Manuscripts" = "archive"
  /\ Ead.formats
       (Ead.extractMetadataFromLevel fonds_d (Some [0; 1; 2; 1])
          (Some (Ead.extractMetadataFromLevel fonds_d (Some [0; 1]) None)))
     = ["archive"; "visual"].
Proof. split; reflexivity. Qed.

(** The context record is the one handed to the level by the walk, which
    need not be the record of the level above it in the tree: the walk
    starts at the target with the record of the root description and climbs
    with the record of the level it comes from.  Here the item 1.1 takes the
    formats of the root, not those of the series it lies in. *)
Example context_is_the_record_handed_down :
  match Ead.getMetadata fonds_e "L.1.1" with
  | Ead.Returns rs => map Ead.formats rs = [["book"]; ["visual"]; ["book"]]
  | _ => False
  end.
Proof. vm_compute. reflexivity. Qed.

Lemma formatOf_unclassifiable :
  forall txt, classifiable txt = false -> Ead.formatOf txt = "archive".
Proof.
  intros txt H. unfold classifiable, keyWords in H. cbn [existsb] in H.
  repeat (apply orb_false_elim in H; destruct H as [?H H]).
  unfold Ead.formatOf. cbv zeta.
  repeat match goal with E : Str.includes _ _ = false |- _ => rewrite E; clear E end.
  reflexivity.
Qed.

Lemma uniq_constant :
  forall a l seen,
    (forall x, In x l -> x = a) ->
    Ead.uniq seen l
    = if existsb (String.eqb a) seen then []
      else match l with [] => [] | _ => [a] end.
Proof.
  intros a l. induction l as [|x r IH]; intros seen H.
  - destruct (existsb (String.eqb a) seen); reflexivity.
  - rewrite (H x (or_introl eq_refl)). cbn [Ead.uniq].
    assert (Hr : forall y, In y r -> y = a) by (intros y Hy; apply H; right; exact Hy).
    destruct (existsb (String.eqb a) seen) eqn:E.
    + rewrite (IH seen Hr), E. reflexivity.
    + rewrite (IH (a :: seen) Hr). cbn [existsb]. rewrite String.eqb_refl.
      reflexivity.
Qed.

(** The claim as it is worded fails for a genre that matches no key word:
    the series of [fonds_g] has no classifiable text and its context has the
    formats [book], but its record has the formats [archive]. *)
Lemma format_inheritance_not_for_unmatched_genre :
  noClassifiableText fonds_g [0; 0; 2; 0] = true
  /\ match Ead.getMetadata fonds_g "G.1" with
     | Ead.Returns rs => map Ead.formats rs = [["book"]; ["archive"]]
     | _ => False
     end
  /\ ~ (forall ead level pm,
          noClassifiableText ead level = true ->
          Ead.formats pm = ["book"] ->
          Ead.formats (Ead.extractMetadataFromLevel ead (Some level) (Some pm))
          = ["book"]).
Proof.
  split; [vm_compute; reflexivity|]. split; [vm_compute; reflexivity|].
  intro H.
  specialize (H fonds_g [0; 0; 2; 0]
                (Ead.extractMetadataFromLevel fonds_g (Some [0; 0]) None)
                ltac:(vm_compute; reflexivity) ltac:(vm_compute; reflexivity)).
  vm_compute in H. discriminate H.
Qed.

(** C5: format inheritance.  The record takes the formats of its context
    record exactly when the level has no genre element at all, so formats
    [book] of the context give formats [book] there.  A level with genre
    elements has its own formats (without duplicates) and nothing from the
    context; when none of its genre texts holds a key word, these are the
    formats [archive]. *)
Theorem format_inheritance :
  forall ead level pm,
    (Ead.ownFormats ead level = [] ->
     Ead.formats (Ead.extractMetadataFromLevel ead (Some level) (Some pm))
     = Ead.formats pm)
    /\ (Ead.ownFormats ead level = [] ->
        Ead.formats pm = ["book"] ->
        Ead.formats (Ead.extractMetadataFromLevel ead (Some level) (Some pm))
        = ["book"])
    /\ (Ead.ownFormats ead level <> [] ->
        Ead.formats (Ead.extractMetadataFromLevel ead (Some level) (Some pm))
        = Ead.uniq [] (Ead.ownFormats ead level))
    /\ (Ead.ownFormats ead level = [] <-> Ead.formatElems ead level = [])
    /\ (Ead.formatElems ead level <> [] ->
        noClassifiableText ead level = true ->
        Ead.formats (Ead.extractMetadataFromLevel ead (Some level) (Some pm))
        = ["archive"]).
Proof.
  intros ead level pm. rewrite record_formats. unfold Ead.extractFormats.
  split; [|split; [|split; [|split]]].
  - intros ->. reflexivity.
  - intros -> Hb. simpl. exact Hb.
  - intro Hne. destruct (Ead.ownFormats ead level); [contradiction|reflexivity].
  - apply ownFormats_none_iff.
  - intros Hne Hno. cbv zeta. unfold Ead.ownFormats.
    destruct (Ead.formatElems ead level) as [|e es] eqn:E; [contradiction|].
    cbn [map]. cbn [Ead.formats Ead.setFormats].
    rewrite <- (map_cons (fun l => Ead.formatOf (Ead.textAt ead l)) e es).
    rewrite (uniq_constant "archive"); [reflexivity|].
    intros x Hx. apply in_map_iff in Hx. destruct Hx as [l [<- Hl]].
    apply formatOf_unclassifiable. unfold noClassifiableText in Hno.
    rewrite E in Hno. rewrite forallb_forall in Hno.
    apply negb_true_iff. apply Hno. exact Hl.
Qed.

Lemma format_inheritance_witness :
  Ead.formats
    (Ead.extractMetadataFromLevel fonds_d (Some [0; 1; 2; 0])
       (Some (Ead.extractMetadataFromLevel fonds_d (Some [0; 1]) None)))
  = ["book"]
  /\ Ead.formats
       (Ead.extractMetadataFromLevel fonds_d (Some [0; 1; 2; 1])
          (Some (Ead.extractMetadataFromLevel fonds_d (Some [0; 1]) None)))
     = Ead.uniq [] (Ead.ownFormats fonds_d [0; 1; 2; 1])
  /\ Ead.formats
       (Ead.extractMetadataFromLevel fonds_g (Some [0; 0; 2; 0])
          (Some (Ead.extractMetadataFromLevel fonds_g (Some [0; 0]) None)))
     = ["archive"].
Proof.
  split; [|split].
  - apply (proj1 (proj2 (format_inheritance fonds_d [0; 1; 2; 0]
                           (Ead.extractMetadataFromLevel fonds_d (Some [0; 1]) None))));
      reflexivity.
  - apply (proj1 (proj2 (proj2 (format_inheritance fonds_d [0; 1; 2; 1]
                           (Ead.extractMetadataFromLevel fonds_d (Some [0; 1]) None))))).
    vm_compute. discriminate.
  - apply (proj2 (proj2 (proj2 (proj2 (format_inheritance fonds_g [0; 0; 2; 0]
                           (Ead.extractMetadataFromLevel fonds_g (Some [0; 0]) None)))))).
    + vm_compute. discriminate.
    + vm_compute. reflexivity.
Defined.

(** ** The chain of records *)

Lemma walkThroughLevels_eq :
  forall ead fuel level pm,
    Ead.walkThroughLevels ead fuel level pm
    = match level with
      | None => Ead.Returns []
      | Some l =>
          let metadata := Ead.extractMetadataFromLevel ead (Some l) (Some pm) in
          match Ead.levelAbove ead l with
          | Some parent =>
              if negb (String.eqb (Ead.nameAt ead parent) (Ead.nameAt ead l)) then
                match fuel with
                | O => Ead.OutOfFuel
                | S fuel' =>
                    match Ead.walkThroughLevels ead fuel' (Some parent) metadata with
                    | Ead.Returns above => Ead.Returns (above ++ [metadata])
                    | Ead.OtherXPath => Ead.OtherXPath
                    | Ead.OutOfFuel => Ead.OutOfFuel
                    end
                end
              else Ead.Returns [metadata]
          | None => Ead.Returns [metadata]
          end
      end.
Proof. intros. destruct fuel; reflexivity. Qed.

(** What a walk that returns has done: nothing for no level; for a level,
    its record alone, or the records of a walk from a level above followed
    by its record. *)
Lemma walkThroughLevels_inv :
  forall ead fuel level pm rs,
    Ead.walkThroughLevels ead fuel level pm = Ead.Returns rs ->
    (level = None /\ rs = [])
    \/ exists l,
        level = Some l
        /\ (rs = [Ead.extractMetadataFromLevel ead (Some l) (Some pm)]
            \/ exists fuel' parent above,
                fuel = S fuel'
                /\ Ead.levelAbove ead l = Some parent
                /\ Ead.walkThroughLevels ead fuel' (Some parent)
                     (Ead.extractMetadataFromLevel ead (Some l) (Some pm))
                   = Ead.Returns above
                /\ rs = above ++ [Ead.extractMetadataFromLevel ead (Some l) (Some pm)]).
Proof.
  intros ead fuel level pm rs H. rewrite walkThroughLevels_eq in H.
  destruct level as [l|].
  - right. exists l. split; [reflexivity|]. cbv zeta in H.
    destruct (Ead.levelAbove ead l) as [parent|].
    + destruct (negb (Ead.nameAt ead parent =? Ead.nameAt ead l)%string).
      * destruct fuel as [|fuel']; [discriminate|].
        destruct (Ead.walkThroughLevels ead fuel' (Some parent) _)
          as [above| |] eqn:E; try discriminate.
        injection H as <-. right. exists fuel', parent, above. auto.
      * injection H as <-. auto.
    + injection H as <-. auto.
  - left. injection H as <-. auto.
Qed.

(** Every record of the walk is the record of some level, resolved below a
    context record. *)
Lemma walkThroughLevels_records :
  forall ead fuel level pm rs,
    Ead.walkThroughLevels ead fuel level pm = Ead.Returns rs ->
    forall r, In r rs ->
      exists l p, r = Ead.extractMetadataFromLevel ead (Some l) (Some p).
Proof.
  intros ead fuel. induction fuel as [|fuel IH]; intros level pm rs H r Hr;
    apply walkThroughLevels_inv in H;
    destruct H as [[_ ->]|[l [_ [->|(f & parent & above & Hf & _ & Hw & ->)]]]];
    try contradiction; try discriminate;
    try (destruct Hr as [<-|[]]; eauto).
  injection Hf as <-.
  apply in_app_or in Hr. destruct Hr as [Hr|[<-|[]]].
  - eapply IH; eauto.
  - eauto.
Qed.

(** Every record of the walk carries the title handed down by the context
    the walk started from, when that title is not empty: the title of the
    root description travels along the whole chain. *)
Lemma walkThroughLevels_eadTitle :
  forall ead fuel level pm rs,
    inheritedTitle pm <> "" ->
    Ead.walkThroughLevels ead fuel level pm = Ead.Returns rs ->
    forall r, In r rs -> Ead.eadTitle r = Some (inheritedTitle pm).
Proof.
  intros ead fuel. induction fuel as [|fuel IH]; intros level pm rs Hne H r Hr;
    apply walkThroughLevels_inv in H;
    destruct H as [[_ ->]|[l [_ [->|(f & parent & above & Hf & _ & Hw & ->)]]]];
    try contradiction; try discriminate;
    try (destruct Hr as [<-|[]]; apply record_eadTitle).
  injection Hf as <-.
  assert (Hsame : inheritedTitle
                    (Ead.extractMetadataFromLevel ead (Some l) (Some pm))
                  = inheritedTitle pm).
  { unfold inheritedTitle at 1. rewrite record_eadTitle.
    apply String.eqb_neq in Hne. rewrite Hne. reflexivity. }
  apply in_app_or in Hr. destruct Hr as [Hr|[<-|[]]].
  - rewrite <- Hsame. eapply IH; eauto. rewrite Hsame. exact Hne.
  - apply record_eadTitle.
Qed.

(** The first record of a result is the record of the root description; its
    position is set, and the other records carry its title. *)
Lemma getMetadata_shape :
  forall ead collectionId r rs,
    Ead.getMetadata ead collectionId = Ead.Returns (r :: rs) ->
    (exists archdesc,
        Ead.archdescOf ead = Some archdesc
        /\ r = Ead.extractMetadataFromLevel ead (Some archdesc) None)
    /\ Ead.order r <> None
    /\ Ead.eadTitle r = None
    /\ (Ead.title r <> "" ->
        forall r', In r' rs -> Ead.eadTitle r' = Some (Ead.title r)).
Proof.
  intros ead cid r rs H. unfold Ead.getMetadata in H.
  destruct (Ead.archdescOf ead) as [a|]; [|discriminate].
  destruct (XPath.spliced (Ead.getUnitId cid)) as [spl|]; [|discriminate].
  cbv zeta in H.
  assert (Hroot : Ead.eadTitle (Ead.extractMetadataFromLevel ead (Some a) None)
                  = None) by apply record_eadTitle.
  assert (Hord : Ead.order (Ead.extractMetadataFromLevel ead (Some a) None)
                 <> None) by (rewrite record_order; discriminate).
  assert (Hin : inheritedTitle (Ead.extractMetadataFromLevel ead (Some a) None)
                = Ead.title (Ead.extractMetadataFromLevel ead (Some a) None)).
  { unfold inheritedTitle. rewrite Hroot. reflexivity. }
  remember (Ead.extractMetadataFromLevel ead (Some a) None) as md eqn:Hmd.
  destruct (Ead.walkThroughLevels ead _ _ _) as [levels| |] eqn:E;
    try discriminate.
  injection H as <- <-.
  split; [eauto|]. split; [exact Hord|]. split; [exact Hroot|].
  intros Hne r' Hr'.
  rewrite <- Hin.
  eapply walkThroughLevels_eadTitle; eauto. rewrite Hin. exact Hne.
Qed.

(** C3, as stated, fails on the tree of the scenario: the result has no
    record with the position unset at its head, and its third record does
    not carry the title "No title" of the series. *)
Lemma end_to_end_scenario_not_as_stated :
  ~ (exists r1 r2 r3,
        Ead.getMetadata fonds_a "A.1.1" = Ead.Returns [r1; r2; r3]
        /\ Ead.title r1 = "Fonds A" /\ Ead.order r1 = None
        /\ Ead.title r2 = "No title" /\ Ead.eadTitle r2 = Some "Fonds A"
        /\ Ead.title r3 = "Letter" /\ Ead.eadTitle r3 = Some "No title").
Proof.
  intros (r1 & r2 & r3 & H & _ & Ho & _).
  apply getMetadata_shape in H. destruct H as (_ & Hset & _).
  contradiction.
Qed.

(** C3 (amended): on the tree of the scenario the result has three records,
    root first: the root record with the title "Fonds A", the position 0
    and no inherited title; the record of the series with the title
    "No title" and the inherited title "Fonds A"; the record of the item with
    the title "Letter" and the inherited title "Fonds A".  Every record
    below the root carries the title of the root. *)
Theorem end_to_end_scenario :
  Ead.getMetadata fonds_a "A.1.1"
  = Ead.Returns
      [ {| Ead.formats := []; Ead.title := "Fonds A";
           Ead.unitId := Some "bfec2405569a7ea186c0b3afc6085d55";
           Ead.unitIdIsInventoryNumber := false; Ead.order := Some 0;
           Ead.content := None; Ead.extent := None; Ead.authors := None;
           Ead.dates := None; Ead.eadTitle := None |};
        {| Ead.formats := []; Ead.title := "No title";
           Ead.unitId := Some "1";
           Ead.unitIdIsInventoryNumber := true; Ead.order := Some 0;
           Ead.content := None; Ead.extent := None; Ead.authors := None;
           Ead.dates := None; Ead.eadTitle := Some "Fonds A" |};
        {| Ead.formats := []; Ead.title := "Letter";
           Ead.unitId := Some "1.1";
           Ead.unitIdIsInventoryNumber := true; Ead.order := Some 1;
           Ead.content := None; Ead.extent := None; Ead.authors := None;
           Ead.dates := None; Ead.eadTitle := Some "Fonds A" |} ].
Proof. vm_compute. reflexivity. Qed.

(** ** The access classification *)









(** ** Document order *)

Lemma loc_compare_refl : forall a, XPath.loc_compare a a = Eq.
Proof.
  induction a as [|i a IH]; simpl; [reflexivity|].
  rewrite Nat.compare_refl. exact IH.
Qed.

Lemma loc_compare_eq : forall a b, XPath.loc_compare a b = Eq -> a = b.
Proof.
  induction a as [|i a IH]; destruct b as [|j b]; simpl; try discriminate;
    [reflexivity|].
  destruct (Nat.compare_spec i j) as [->|H|H]; try discriminate.
  intro E. f_equal. apply IH. exact E.
Qed.

Lemma loc_compare_gt_lt :
  forall a b, XPath.loc_compare a b = Gt -> XPath.loc_compare b a = Lt.
Proof.
  induction a as [|i a IH]; destruct b as [|j b]; simpl; try discriminate;
    [reflexivity|].
  destruct (Nat.compare_spec i j) as [->|H|H]; try discriminate.
  - rewrite Nat.compare_refl. apply IH.
  - intros _. apply Nat.compare_lt_iff in H. rewrite H. reflexivity.
Qed.

Lemma loc_compare_trans :
  forall a b c,
    XPath.loc_compare a b <> Gt ->
    XPath.loc_compare b c <> Gt ->
    XPath.loc_compare a c <> Gt.
Proof.
  induction a as [|i a IH]; intros b c Hab Hbc.
  - destruct c; simpl; discriminate.
  - destruct b as [|j b]; [simpl in Hab; congruence|].
    destruct c as [|k c]; [simpl in Hbc; congruence|].
    simpl in *.
    destruct (Nat.compare_spec i j) as [->|Hij|Hij]; try congruence.
    + destruct (Nat.compare_spec j k) as [->|Hjk|Hjk]; try congruence.
      apply IH with (b := b); assumption.
    + destruct (Nat.compare_spec j k) as [->|Hjk|Hjk]; try congruence.
      * apply Nat.compare_lt_iff in Hij. rewrite Hij. discriminate.
      * assert (Hik : i < k) by lia.
        apply Nat.compare_lt_iff in Hik. rewrite Hik. discriminate.
Qed.

(** A node comes before the nodes below it. *)
Lemma loc_compare_below :
  forall a m, m <> [] -> XPath.loc_compare (a ++ m) a = Gt.
Proof.
  induction a as [|i a IH]; intros m Hm; simpl.
  - destruct m; [contradiction|reflexivity].
  - rewrite Nat.compare_refl. apply IH. exact Hm.
Qed.

Lemma insert_not_empty : forall l s, XPath.insert l s <> [].
Proof.
  intros l s. destruct s as [|x r]; simpl; [discriminate|].
  destruct (XPath.loc_compare l x); discriminate.
Qed.

Lemma insert_complete :
  forall x l s, x = l \/ In x s -> In x (XPath.insert l s).
Proof.
  intros x l s. induction s as [|y r IH]; simpl.
  - intros [->|[]]. left. reflexivity.
  - destruct (XPath.loc_compare l y) eqn:E; simpl.
    + intros [->|H]; [|exact H]. left. symmetry. apply loc_compare_eq. exact E.
    + intros [->|H]; auto.
    + intros [->|[H|H]]; auto.
Qed.

Lemma norm_complete : forall x raw, In x raw -> In x (XPath.norm raw).
Proof.
  intros x raw. induction raw as [|l r IH]; simpl; [auto|].
  intros [->|H]; apply insert_complete; auto.
Qed.

Lemma step_complete :
  forall (axis : Xml.Loc -> list Xml.Loc) test from x y,
    In y from -> In x (axis y) -> test x = true ->
    In x (XPath.step axis test from).
Proof.
  intros axis test from x y Hy Hx Ht. unfold XPath.step.
  apply norm_complete. apply filter_In. split; [|exact Ht].
  apply in_flat_map. exists y. auto.
Qed.

(** The first node of a node set comes before all the others. *)
Lemma norm_head_first :
  forall raw p,
    hd_error (XPath.norm raw) = Some p ->
    forall x, In x raw -> XPath.loc_compare p x <> Gt.
Proof.
  induction raw as [|l r IH]; intros p Hp x Hx; [contradiction|].
  simpl in Hp.
  destruct (XPath.norm r) as [|y s] eqn:En.
  - simpl in Hp. injection Hp as <-.
    destruct r as [|l' r'].
    + destruct Hx as [<-|[]]. rewrite loc_compare_refl. discriminate.
    + simpl in En. exfalso. eapply insert_not_empty. exact En.
  - assert (Hy : forall z, In z r -> XPath.loc_compare y z <> Gt)
      by (apply IH; reflexivity).
    simpl in Hp. destruct (XPath.loc_compare l y) eqn:E.
    + injection Hp as <-. apply loc_compare_eq in E. subst y.
      destruct Hx as [<-|Hx]; [rewrite loc_compare_refl; discriminate|auto].
    + injection Hp as <-.
      destruct Hx as [<-|Hx]; [rewrite loc_compare_refl; discriminate|].
      apply loc_compare_trans with (b := y); [congruence|auto].
    + injection Hp as <-. apply loc_compare_gt_lt in E.
      destruct Hx as [<-|Hx]; [congruence|auto].
Qed.

Lemma hd_error_In :
  forall (A : Type) (l : list A) (a : A), hd_error l = Some a -> In a l.
Proof.
  intros A l a H. destruct l; [discriminate|]. injection H as ->. left. reflexivity.
Qed.

(** ** The levels of a walk *)

Lemma number_inv :
  forall ts j p,
    In p (Xml.number j ts) ->
    exists i t r, p = (j + i) :: r /\ nth_error ts i = Some t /\ In r t.
Proof.
  induction ts as [|t0 rest IH]; intros j p H; [contradiction|].
  simpl in H. apply in_app_or in H. destruct H as [H|H].
  - apply in_map_iff in H. destruct H as [r [<- Hr]].
    exists 0, t0, r. rewrite Nat.add_0_r. auto.
  - destruct (IH (S j) p H) as (i & t & r & -> & Hn & Hr).
    exists (S i), t, r. repeat split; auto. f_equal. lia.
Qed.

(** Every path listed among the descendants leads to a node. *)
Lemma forest_node_in :
  forall l top, In l (Xml.forest top) -> exists n, Xml.node_in top l = Some n.
Proof.
  induction l as [|i r IH]; intros top H; unfold Xml.forest in H;
    apply number_inv in H; destruct H as (i' & t & r' & E & Hn & Hr);
    [discriminate|].
  injection E as -> ->. simpl in Hn.
  rewrite nth_error_map in Hn.
  destruct (nth_error top i') as [c|] eqn:Hc; [|discriminate].
  injection Hn as <-. simpl. rewrite Hc.
  destruct r' as [|j r'']; [eauto|].
  apply IH. destruct c; simpl in Hr; destruct Hr as [Hr|Hr];
    try discriminate; try contradiction.
  exact Hr.
Qed.

(** The node above a node that exists, exists. *)
Lemma node_in_prefix :
  forall a top b n,
    a <> [] -> Xml.node_in top (a ++ b) = Some n ->
    exists m, Xml.node_in top a = Some m.
Proof.
  intros a top b n Ha H. destruct b as [|j b].
  - rewrite app_nil_r in H. eauto.
  - rewrite node_in_app in H by discriminate.
    destruct a as [|i a]; [contradiction|].
    destruct (Xml.node_in top (i :: a)) as [m|]; [eauto|discriminate].
Qed.

Lemma forest_prefix :
  forall a b top, a <> [] -> In (a ++ b) (Xml.forest top) -> In a (Xml.forest top).
Proof.
  intros a b top Ha H. apply forest_node_in in H. destruct H as [n H].
  destruct (node_in_prefix a top b n Ha H) as [m Hm].
  apply node_in_forest with (n := m). exact Hm.
Qed.

Lemma node_at_kids :
  forall ead l k, k <> [] -> Xml.node_at ead (l ++ k) = Xml.node_in (Xml.kids ead l) k.
Proof.
  intros ead l k Hk. unfold Xml.node_at, Xml.kids. rewrite node_in_app by exact Hk.
  destruct l as [|i l]; [reflexivity|].
  unfold Xml.node_at. destruct (Xml.node_in [ead] (i :: l)); [reflexivity|].
  destruct k as [|j k]; [contradiction|]. destruct j; reflexivity.
Qed.

(** The child [i] of a node below [l] is among the descendants of that node. *)
Lemma forest_step :
  forall ead l k i,
    k <> [] ->
    In (k ++ [i]) (Xml.forest (Xml.kids ead l)) ->
    In [i] (Xml.forest (Xml.kids ead (l ++ k))).
Proof.
  intros ead l k i Hk H. apply forest_node_in in H. destruct H as [n H].
  rewrite node_in_app in H by discriminate.
  assert (Hkids : Xml.kids ead (l ++ k)
                  = match Xml.node_in (Xml.kids ead l) k with
                    | Some c => Xml.children c
                    | None => []
                    end).
  { unfold Xml.kids at 1. rewrite node_at_kids by exact Hk.
    destruct (l ++ k) eqn:E; [|reflexivity].
    apply app_eq_nil in E. destruct E as [_ E]. contradiction. }
  rewrite Hkids. destruct k as [|j k]; [contradiction|].
  destruct (Xml.node_in (Xml.kids ead l) (j :: k)) as [c|]; [|discriminate].
  apply node_in_forest with (n := n). exact H.
Qed.

Lemma descendant_or_self_In :
  forall ead l n,
    In n (XPath.descendant_or_self ead l)
    <-> exists k, n = l ++ k /\ In k ([] :: Xml.forest (Xml.kids ead l)).
Proof.
  intros ead l n. unfold XPath.descendant_or_self. rewrite in_map_iff.
  split; intros [k [H1 H2]]; exists k; auto.
Qed.

Lemma preceding_sibling_In :
  forall n s,
    In s (XPath.preceding_sibling n) ->
    n <> [] /\ exists j, s = removelast n ++ [j].
Proof.
  intros n s H. unfold XPath.preceding_sibling in H.
  destruct n as [|i n]; [contradiction|].
  split; [discriminate|].
  apply in_map_iff in H. destruct H as [j [<- _]]. eauto.
Qed.

Lemma parent_of_sibling :
  forall n s,
    In s (XPath.preceding_sibling n) -> XPath.parent s = [removelast n].
Proof.
  intros n s H. apply preceding_sibling_In in H. destruct H as [_ [j ->]].
  unfold XPath.parent. rewrite removelast_last.
  destruct (removelast n ++ [j]) eqn:E; [|reflexivity].
  apply app_eq_nil in E. destruct E as [_ E]. discriminate.
Qed.

(** The level above is the node above some node of the level's subtree that
    has a [did] among its preceding siblings ... *)
Lemma levelAbove_sound :
  forall ead l p,
    Ead.levelAbove ead l = Some p ->
    exists k, In k ([] :: Xml.forest (Xml.kids ead l))
              /\ hasDidBefore ead (l ++ k)
              /\ p = removelast (l ++ k).
Proof.
  intros ead l p H. unfold Ead.levelAbove, XPath.get in H.
  apply hd_error_In in H. apply step_In in H.
  destruct H as [_ [s [Hs Hp]]].
  apply step_In in Hs. destruct Hs as [Hdid [n [Hn Hsib]]].
  apply step_In in Hn. destruct Hn as [_ [y [[<-|[]] Hn]]].
  apply descendant_or_self_In in Hn. destruct Hn as [k [-> Hk]].
  exists k. split; [exact Hk|]. split.
  - exists s. auto.
  - rewrite (parent_of_sibling _ _ Hsib) in Hp. destruct Hp as [<-|[]].
    reflexivity.
Qed.

(** ... and the first such node in document order. *)
Lemma levelAbove_first :
  forall ead l p,
    Ead.levelAbove ead l = Some p ->
    forall k,
      In k ([] :: Xml.forest (Xml.kids ead l)) ->
      hasDidBefore ead (l ++ k) ->
      XPath.loc_compare p (removelast (l ++ k)) <> Gt.
Proof.
  intros ead l p H k Hk [s [Hsib Hdid]].
  unfold Ead.levelAbove, XPath.get, XPath.step at 1 in H.
  apply (norm_head_first _ _ H).
  apply filter_In. split; [|reflexivity].
  apply in_flat_map. exists s. split.
  - apply step_complete with (y := l ++ k); [|exact Hsib|exact Hdid].
    apply step_complete with (y := l); [left; reflexivity| |reflexivity].
    apply descendant_or_self_In. exists k. auto.
  - rewrite (parent_of_sibling _ _ Hsib). left. reflexivity.
Qed.

Lemma list_last_case :
  forall (A : Type) (k : list A), k = [] \/ exists k' i, k = k' ++ [i].
Proof.
  intros A k. destruct k as [|a k]; [left; reflexivity|].
  right. destruct (exists_last (l := a :: k)) as [k' [i E]]; [discriminate|].
  eauto.
Qed.

(** A walk that turned to a level below stops there: that level is the
    first node of its own subtree with a [did] followed by a sibling. *)
Lemma levelAbove_settles :
  forall ead l k i q,
    k <> [] ->
    In (k ++ [i]) (Xml.forest (Xml.kids ead l)) ->
    hasDidBefore ead ((l ++ k) ++ [i]) ->
    Ead.levelAbove ead l = Some (l ++ k) ->
    Ead.levelAbove ead (l ++ k) = Some q ->
    q = l ++ k.
Proof.
  intros ead l k i q Hk Hin Hdid Hl Hq.
  destruct (levelAbove_sound _ _ _ Hq) as [k2 [Hk2 [Hdid2 ->]]].
  destruct (list_last_case _ k2) as [->|[k2' [j ->]]].
  - (* the level below would have a [did] before it: the node above it
       comes first *)
    exfalso. rewrite app_nil_r in Hdid2.
    assert (Hfirst : XPath.loc_compare (l ++ k) (removelast (l ++ k)) <> Gt).
    { apply (levelAbove_first _ _ _ Hl k); [|exact Hdid2].
      right. apply forest_prefix with (b := [i]); assumption. }
    apply Hfirst.
    destruct (list_last_case _ k) as [->|[k' [z ->]]]; [contradiction|].
    rewrite app_assoc, removelast_last. apply loc_compare_below. discriminate.
  - rewrite app_assoc, removelast_last.
    assert (Hfirst : XPath.loc_compare (removelast ((l ++ k) ++ k2' ++ [j]))
                       (removelast ((l ++ k) ++ [i])) <> Gt).
    { apply (levelAbove_first _ _ _ Hq [i]); [|exact Hdid].
      right. apply forest_step; assumption. }
    rewrite app_assoc, !removelast_last in Hfirst.
    destruct k2' as [|z k2']; [apply app_nil_r|].
    exfalso. apply Hfirst. apply loc_compare_below. discriminate.
Qed.

(** The walk returns: the fuel that [getMetadata] grants is never used up. *)
Lemma walkThroughLevels_returns :
  forall ead fuel (l : Xml.Loc) pm,
    2 + List.length l <= fuel ->
    exists rs, Ead.walkThroughLevels ead fuel (Some l) pm = Ead.Returns rs.
Proof.
  intros ead fuel. induction fuel as [|fuel IH]; intros l pm Hfuel; [lia|].
  rewrite walkThroughLevels_eq. cbv beta iota zeta.
  destruct (Ead.levelAbove ead l) as [p|] eqn:Hl; [|eauto].
  destruct (negb (Ead.nameAt ead p =? Ead.nameAt ead l)%string) eqn:Hname;
    [|eauto].
  assert (Hrec : exists rs,
             Ead.walkThroughLevels ead fuel (Some p)
               (Ead.extractMetadataFromLevel ead (Some l) (Some pm))
             = Ead.Returns rs).
  { destruct (levelAbove_sound _ _ _ Hl) as [k [Hk [Hdid Hp]]].
    destruct (list_last_case _ k) as [->|[k' [i ->]]].
    - (* one level up *)
      rewrite app_nil_r in Hp, Hdid. apply IH.
      destruct Hdid as [s [Hs _]]. apply preceding_sibling_In in Hs.
      destruct Hs as [Hne _].
      rewrite (app_removelast_last 0 Hne) in Hfuel.
      rewrite length_app in Hfuel. simpl in Hfuel. subst p. lia.
    - rewrite app_assoc, removelast_last in Hp.
      destruct k' as [|z k'].
      + (* the level itself: the names are equal *)
        rewrite app_nil_r in Hp. subst p.
        rewrite String.eqb_refl in Hname. discriminate.
      + (* a level below: the walk stops there *)
        destruct Hk as [Hk|Hk]; [destruct k'; discriminate|].
        rewrite walkThroughLevels_eq. cbv zeta.
        destruct (Ead.levelAbove ead p) as [q|] eqn:Hq; [|eauto].
        subst p.
        rewrite (levelAbove_settles ead l (z :: k') i q) by
            (try discriminate; try assumption; rewrite <- app_assoc; assumption).
        rewrite String.eqb_refl. simpl. eauto. }
  destruct Hrec as [rs ->]. eauto.
Qed.

(** [getMetadata] returns for every document and every identifier that can
    be written in the XPath expression. *)
Lemma getMetadata_returns :
  forall ead collectionId,
    XPath.literal (Ead.getUnitId collectionId) = true ->
    exists rs, Ead.getMetadata ead collectionId = Ead.Returns rs.
Proof.
  intros ead cid Hlit. unfold Ead.getMetadata.
  destruct (Ead.archdescOf ead) as [a|]; [|eauto].
  rewrite (spliced_literal _ Hlit), levelWhere_literal. cbv zeta.
  destruct (Ead.levelOfUnitId ead a (Ead.getUnitId cid)) as [l|].
  - destruct (walkThroughLevels_returns ead (Ead.fuelFor (Some l)) l
                (Ead.extractMetadataFromLevel ead (Some a) None)) as [rs ->];
      [simpl; lia|eauto].
  - simpl. eauto.
Qed.

(* ================================================================== *)
(** * Part III: further properties of the code                         *)
(* ================================================================== *)

(** ** Strings *)

Lemma split_not_nil : forall sep s, Str.split sep s <> [].
Proof.
  intros sep s. destruct s as [|c r]; simpl; [discriminate|].
  destruct (Ascii.eqb c sep); [discriminate|].
  destruct (Str.split sep r); discriminate.
Qed.

Lemma join_cons_char :
  forall sep c w ws,
    Str.join sep (String c w :: ws) = String c (Str.join sep (w :: ws)).
Proof. intros sep c w ws. destruct ws; reflexivity. Qed.

(** [s.split(sep).join(sep)] gives [s] back. *)
Lemma split_join :
  forall sep s, Str.join (String sep "") (Str.split sep s) = s.
Proof.
  intros sep s. induction s as [|c r IH]; [reflexivity|].
  simpl Str.split. destruct (Ascii.eqb c sep) eqn:E.
  - apply Ascii.eqb_eq in E. subst c.
    destruct (Str.split sep r) as [|w ws] eqn:Es;
      [exfalso; exact (split_not_nil _ _ Es)|].
    simpl Str.join. simpl in IH. rewrite IH. reflexivity.
  - destruct (Str.split sep r) as [|w ws] eqn:Es;
      [exfalso; exact (split_not_nil _ _ Es)|].
    rewrite join_cons_char, IH. reflexivity.
Qed.

Lemma split_no_sep :
  forall sep root rest,
    Str.mem_char sep root = false ->
    Str.split sep (root ++ String sep rest)%string = root :: Str.split sep rest.
Proof.
  intros sep root rest. induction root as [|c r IH]; intro H.
  - simpl. rewrite Ascii.eqb_refl. reflexivity.
  - simpl in H. apply orb_false_elim in H. destruct H as [Hc Hr].
    simpl. rewrite Ascii.eqb_sym, Hc. rewrite (IH Hr). reflexivity.
Qed.

Lemma split_without_sep :
  forall sep s, Str.mem_char sep s = false -> Str.split sep s = [s].
Proof.
  intros sep s. induction s as [|c r IH]; intro H; [reflexivity|].
  simpl in H. apply orb_false_elim in H. destruct H as [Hc Hr].
  simpl. rewrite Ascii.eqb_sym, Hc, (IH Hr). reflexivity.
Qed.

Lemma split_head_no_sep :
  forall sep s, Str.mem_char sep (hd "" (Str.split sep s)) = false.
Proof.
  intros sep s. induction s as [|c r IH]; [reflexivity|].
  simpl Str.split. destruct (Ascii.eqb c sep) eqn:E; [reflexivity|].
  destruct (Str.split sep r) as [|w ws] eqn:Es;
    [exfalso; exact (split_not_nil _ _ Es)|].
  simpl in *. rewrite Ascii.eqb_sym, E, IH. reflexivity.
Qed.

(** X1: a collection identifier is its root identifier, a dot and its unit
    identifier.  Composing a root without a dot with any unit identifier
    and taking the result apart gives both back; every identifier with a dot
    is the composition of its two parts, the root part never holds a dot,
    and an identifier without a dot is its own root with the empty unit
    identifier. *)
Theorem collection_id_round_trip :
  (forall root unit,
      Str.mem_char "." root = false ->
      Ead.getRootId (root ++ "." ++ unit)%string = root
      /\ Ead.getUnitId (root ++ "." ++ unit)%string = unit)
  /\ (forall collectionId,
         Str.mem_char "." (Ead.getRootId collectionId) = false
         /\ (Str.mem_char "." collectionId = true ->
             collectionId
             = (Ead.getRootId collectionId ++ "." ++ Ead.getUnitId collectionId)%string)
         /\ (Str.mem_char "." collectionId = false ->
             Ead.getRootId collectionId = collectionId
             /\ Ead.getUnitId collectionId = "")).
Proof.
  split.
  - intros root unit H. unfold Ead.getRootId, Ead.getUnitId.
    change ("." ++ unit)%string with (String "." unit).
    rewrite (split_no_sep _ _ _ H). simpl hd. simpl tl.
    split; [reflexivity|]. apply (split_join "."%char).
  - intro c. unfold Ead.getRootId, Ead.getUnitId. split; [|split].
    + apply split_head_no_sep.
    + intro Hdot.
      pose proof (split_join "."%char c) as Hj.
      destruct (Str.split "." c) as [|w ws] eqn:Es;
        [exfalso; exact (split_not_nil _ _ Es)|].
      simpl hd. simpl tl. destruct ws as [|w' ws'].
      * exfalso. simpl in Hj. subst w.
        pose proof (split_head_no_sep "."%char c) as Hn. rewrite Es in Hn.
        simpl in Hn. congruence.
      * rewrite <- Hj at 1. reflexivity.
    + intro Hno. rewrite (split_without_sep _ _ Hno). auto.
Qed.

Lemma collection_id_round_trip_witness :
  (Ead.getRootId "ARCH00210.12.3" = "ARCH00210"
   /\ Ead.getUnitId "ARCH00210.12.3" = "12.3")
  /\ "A.1.1"%string = (Ead.getRootId "A.1.1" ++ "." ++ Ead.getUnitId "A.1.1")%string
  /\ Ead.getUnitId "ARCH00210" = "".
Proof.
  split; [|split].
  - exact (proj1 collection_id_round_trip "ARCH00210" "12.3" eq_refl).
  - exact (proj1 (proj2 (proj2 collection_id_round_trip "A.1.1")) eq_refl).
  - exact (proj2 (proj2 (proj2 (proj2 collection_id_round_trip "ARCH00210")) eq_refl)).
Defined.

(** ** The chain of records, continued *)






(** X2: [getMetadata] returns for every document and every identifier that
    can be written between the quotes of the XPath expression: the climb
    from the target always ends.  The result is empty when the document has
    no root description and starts with the record of the root description
    otherwise. *)
Theorem getMetadata_returns_root_first :
  forall ead collectionId,
    XPath.literal (Ead.getUnitId collectionId) = true ->
    exists rs,
      Ead.getMetadata ead collectionId = Ead.Returns rs
      /\ (Ead.archdescOf ead = None -> rs = [])
      /\ (forall archdesc,
             Ead.archdescOf ead = Some archdesc ->
             exists levels,
               rs = Ead.extractMetadataFromLevel ead (Some archdesc) None :: levels).
Proof.
  intros ead cid Hlit.
  destruct (getMetadata_returns ead cid Hlit) as [rs Hrs].
  exists rs. split; [exact Hrs|]. split.
  - intro Hno. unfold Ead.getMetadata in Hrs. rewrite Hno in Hrs.
    injection Hrs as <-. reflexivity.
  - intros a Ha. unfold Ead.getMetadata in Hrs.
    rewrite Ha, (spliced_literal _ Hlit) in Hrs.
    cbv zeta in Hrs.
    destruct (Ead.walkThroughLevels ead _ _ _) as [levels| |]; try discriminate.
    injection Hrs as <-. eauto.
Qed.

Lemma getMetadata_returns_root_first_witness :
  exists rs,
    Ead.getMetadata fonds_d "L.2" = Ead.Returns rs
    /\ (Ead.archdescOf fonds_d = None -> rs = [])
    /\ (forall archdesc,
           Ead.archdescOf fonds_d = Some archdesc ->
           exists levels,
             rs = Ead.extractMetadataFromLevel fonds_d (Some archdesc) None :: levels).
Proof.
  exact (getMetadata_returns_root_first fonds_d "L.2" eq_refl).
Defined.



Lemma getMetadata_records :
  forall ead collectionId rs r,
    Ead.getMetadata ead collectionId = Ead.Returns rs ->
    In r rs ->
    exists l pm, r = Ead.extractMetadataFromLevel ead (Some l) pm.
Proof.
  intros ead cid rs r H Hr. unfold Ead.getMetadata in H.
  destruct (Ead.archdescOf ead) as [a|];
    [|injection H as <-; contradiction].
  destruct (XPath.spliced (Ead.getUnitId cid)) as [spl|]; [|discriminate].
  cbv zeta in H.
  destruct (Ead.walkThroughLevels ead _ _ _) as [levels| |] eqn:E;
    try discriminate.
  injection H as <-. destruct Hr as [<-|Hr].
  - exists a, None. reflexivity.
  - destruct (walkThroughLevels_records _ _ _ _ _ E r Hr) as [l [p ->]]. eauto.
Qed.

(** X4: every record of a result is the record of a level of the
    document, and its position is set to the number of element siblings
    before that level, the root description included. *)
Theorem getMetadata_order_always_set :
  forall ead collectionId rs r,
    Ead.getMetadata ead collectionId = Ead.Returns rs ->
    In r rs ->
    exists l pm,
      r = Ead.extractMetadataFromLevel ead (Some l) pm
      /\ Ead.order r
         = Some (List.length
                   (XPath.step XPath.preceding_sibling (XPath.element ead) [l])).
Proof.
  intros ead cid rs r H Hr.
  destruct (getMetadata_records _ _ _ _ H Hr) as [l [pm ->]].
  exists l, pm. split; [reflexivity|apply record_order].
Qed.

Lemma getMetadata_order_always_set_witness :
  exists l pm,
    Ead.extractMetadataFromLevel fonds_d (Some [0; 1]) None
    = Ead.extractMetadataFromLevel fonds_d (Some l) pm
    /\ Ead.order (Ead.extractMetadataFromLevel fonds_d (Some [0; 1]) None)
       = Some (List.length
                 (XPath.step XPath.preceding_sibling (XPath.element fonds_d) [l])).
Proof.
  apply (getMetadata_order_always_set fonds_d "L.7"
           [Ead.extractMetadataFromLevel fonds_d (Some [0; 1]) None]).
  - vm_compute. reflexivity.
  - left. reflexivity.
Defined.

Example order_counts_siblings :
  match Ead.getMetadata fonds_d "L.2" with
  | Ead.Returns rs => map Ead.order rs = [Some 1; Some 1]
  | _ => False
  end.
Proof. vm_compute. reflexivity. Qed.

(** X5: the title of the root description, when it is not empty, is the
    [eadTitle] of every other record of the result, however deep its level;
    the root record itself has none. *)
Theorem getMetadata_eadTitle_is_root_title :
  forall ead collectionId root levels,
    Ead.getMetadata ead collectionId = Ead.Returns (root :: levels) ->
    Ead.eadTitle root = None
    /\ (Ead.title root <> "" ->
        forall r, In r levels -> Ead.eadTitle r = Some (Ead.title root)).
Proof.
  intros ead cid root levels H.
  destruct (getMetadata_shape _ _ _ _ H) as (_ & _ & Hroot & Hrest). auto.
Qed.

Lemma getMetadata_eadTitle_is_root_title_witness :
  Ead.eadTitle
    (Ead.extractMetadataFromLevel fonds_e (Some [0; 0; 2; 0])
       (Some (Ead.extractMetadataFromLevel fonds_e (Some [0; 0; 2; 0; 2])
                (Some (Ead.extractMetadataFromLevel fonds_e (Some [0; 0]) None)))))
  = Some "Library".
Proof.
  apply (proj2 (getMetadata_eadTitle_is_root_title fonds_e "L.1.1"
                  (Ead.extractMetadataFromLevel fonds_e (Some [0; 0]) None)
                  [Ead.extractMetadataFromLevel fonds_e (Some [0; 0; 2; 0])
                     (Some (Ead.extractMetadataFromLevel fonds_e (Some [0; 0; 2; 0; 2])
                              (Some (Ead.extractMetadataFromLevel fonds_e (Some [0; 0]) None))));
                   Ead.extractMetadataFromLevel fonds_e (Some [0; 0; 2; 0; 2])
                     (Some (Ead.extractMetadataFromLevel fonds_e (Some [0; 0]) None))]
                  ltac:(vm_compute; reflexivity))).
  - vm_compute. discriminate.
  - left. reflexivity.
Defined.

(** *** Formats *)

Lemma formatOf_tag : forall txt, In (Ead.formatOf txt) formatTags.
Proof.
  intro txt. unfold Ead.formatOf, formatTags. cbv zeta.
  repeat match goal with
         | |- context [if ?b then _ else _] => destruct b
         end; simpl; auto 10.
Qed.

Lemma uniq_In :
  forall l seen x,
    In x (Ead.uniq seen l) <-> In x l /\ ~ In x seen.
Proof.
  induction l as [|y r IH]; intros seen x; simpl; [tauto|].
  destruct (existsb (String.eqb y) seen) eqn:E.
  - apply existsb_exists in E. destruct E as [z [Hz Hyz]].
    apply String.eqb_eq in Hyz. subst z.
    rewrite IH. split.
    + intros [H1 H2]. auto.
    + intros [[->|H1] H2]; [contradiction|auto].
  - assert (Hy : ~ In y seen).
    { intro Hin. assert (existsb (String.eqb y) seen = true); [|congruence].
      apply existsb_exists. exists y. split; [exact Hin|apply String.eqb_refl]. }
    simpl. rewrite IH. simpl. split.
    + intros [->|[H1 H2]]; [auto|]. split; [auto|]. intro; apply H2; auto.
    + intros [[->|H1] H2]; [auto|].
      destruct (String.eqb_spec y x) as [->|Hne]; [auto|].
      right. split; [exact H1|]. intros [Hc|Hc]; [congruence|contradiction].
Qed.

(** [[...new Set(l)]] holds every value of [l], each once. *)
Lemma uniq_NoDup : forall l seen, NoDup (Ead.uniq seen l).
Proof.
  induction l as [|y r IH]; intro seen; simpl; [constructor|].
  destruct (existsb (String.eqb y) seen); [apply IH|].
  constructor; [|apply IH].
  intro H. apply uniq_In in H. destruct H as [_ H]. apply H. left. reflexivity.
Qed.

Lemma record_formatsOk :
  forall ead l pm,
    (forall p, pm = Some p -> formatsOk p) ->
    formatsOk (Ead.extractMetadataFromLevel ead (Some l) pm).
Proof.
  intros ead l pm Hpm. unfold formatsOk. rewrite record_formats.
  unfold Ead.extractFormats.
  assert (Hown : NoDup (Ead.uniq [] (Ead.ownFormats ead l))
                 /\ forall f, In f (Ead.uniq [] (Ead.ownFormats ead l)) ->
                              In f formatTags).
  { split; [apply uniq_NoDup|]. intros f Hf. apply uniq_In in Hf.
    destruct Hf as [Hf _]. unfold Ead.ownFormats in Hf.
    apply in_map_iff in Hf. destruct Hf as [x [<- _]]. apply formatOf_tag. }
  destruct (Ead.ownFormats ead l) as [|f0 fs] eqn:Eo.
  - destruct pm as [p|]; [exact (Hpm p eq_refl)|exact Hown].
  - exact Hown.
Qed.

Lemma walkThroughLevels_formatsOk :
  forall ead fuel level pm rs,
    formatsOk pm ->
    Ead.walkThroughLevels ead fuel level pm = Ead.Returns rs ->
    forall r, In r rs -> formatsOk r.
Proof.
  intros ead fuel. induction fuel as [|fuel IH]; intros level pm rs Hpm H r Hr;
    apply walkThroughLevels_inv in H;
    destruct H as [[_ ->]|[l [_ [->|(f & parent & above & Hf & _ & Hw & ->)]]]];
    try contradiction; try discriminate;
    try (destruct Hr as [<-|[]]; apply record_formatsOk;
         intros p Hp; injection Hp as <-; exact Hpm).
  injection Hf as <-.
  assert (Hl : formatsOk (Ead.extractMetadataFromLevel ead (Some l) (Some pm)))
    by (apply record_formatsOk; intros p Hp; injection Hp as <-; exact Hpm).
  apply in_app_or in Hr. destruct Hr as [Hr|[<-|[]]]; [|exact Hl].
  eapply IH; eauto.
Qed.

(** X6: in every record of a result, own or inherited, the formats are
    drawn from the seven tags article, serial, book, sound, visual, moving
    visual and archive, and no tag occurs twice. *)
Theorem getMetadata_formats_are_tags :
  forall ead collectionId rs r,
    Ead.getMetadata ead collectionId = Ead.Returns rs ->
    In r rs ->
    NoDup (Ead.formats r) /\ forall f, In f (Ead.formats r) -> In f formatTags.
Proof.
  intros ead cid rs r H Hr. unfold Ead.getMetadata in H.
  destruct (Ead.archdescOf ead) as [a|];
    [|injection H as <-; contradiction].
  destruct (XPath.spliced (Ead.getUnitId cid)) as [spl|]; [|discriminate].
  cbv zeta in H.
  assert (Hroot : formatsOk (Ead.extractMetadataFromLevel ead (Some a) None))
    by (apply record_formatsOk; discriminate).
  destruct (Ead.walkThroughLevels ead _ _ _) as [levels| |] eqn:E;
    try discriminate.
  injection H as <-. destruct Hr as [<-|Hr]; [exact Hroot|].
  exact (walkThroughLevels_formatsOk _ _ _ _ _ Hroot E r Hr).
Qed.

Lemma getMetadata_formats_are_tags_witness :
  NoDup ["archive"; "visual"]
  /\ forall f, In f ["archive"; "visual"] -> In f formatTags.
Proof.
  apply (getMetadata_formats_are_tags fonds_d "L.2"
           [Ead.extractMetadataFromLevel fonds_d (Some [0; 1]) None;
            Ead.extractMetadataFromLevel fonds_d (Some [0; 1; 2; 1])
              (Some (Ead.extractMetadataFromLevel fonds_d (Some [0; 1]) None))]
           (Ead.extractMetadataFromLevel fonds_d (Some [0; 1; 2; 1])
              (Some (Ead.extractMetadataFromLevel fonds_d (Some [0; 1]) None)))).
  - vm_compute. reflexivity.
  - right. left. reflexivity.
Defined.

(** *** Identifiers and titles *)

Lemma record_unitId :
  forall ead l pm,
    Ead.unitId (Ead.extractMetadataFromLevel ead (Some l) pm)
    = Ead.unitId
        (Ead.extractUnitId ead l
           (Ead.extractTitle ead l (Ead.extractFormats ead l Ead.blank pm)) pm).
Proof.
  intros. unfold Ead.extractMetadataFromLevel, Ead.extractEadTitle,
    Ead.extractDates, Ead.extractAuthors, Ead.extractExtent,
    Ead.extractContent, Ead.extractOrder.
  split_matches; reflexivity.
Qed.

Lemma unitId_before :
  forall ead l pm,
    Ead.unitId (Ead.extractTitle ead l (Ead.extractFormats ead l Ead.blank pm)) = None.
Proof.
  intros. unfold Ead.extractTitle, Ead.extractFormats.
  split_matches; reflexivity.
Qed.

Lemma le_bytes_length : forall n x, List.length (Md5.le_bytes n x) = n.
Proof.
  induction n as [|n IH]; intro x; simpl; [reflexivity|]. rewrite IH. reflexivity.
Qed.

Lemma hex_length : forall bs, String.length (Md5.hex bs) = 2 * List.length bs.
Proof.
  induction bs as [|b r IH]; simpl; [reflexivity|]. rewrite IH. lia.
Qed.

(** A digest in hexadecimal has 32 characters. *)
Lemma md5_hex_length : forall s, String.length (Md5.md5_hex s) = 32.
Proof.
  intro s. unfold Md5.md5_hex. rewrite hex_length. unfold Md5.digest.
  cbv zeta. rewrite !length_app, !le_bytes_length. reflexivity.
Qed.

(** X7: the identifier of a record with a title that is not empty.  With an
    identifier element of its own the level gets the trimmed text of that
    element.  Without one it gets the MD5 digest of its title, 32
    hexadecimal characters, which depends on the title alone: two levels
    with the same title and no identifier of their own, in whatever
    documents and below whatever contexts, get the same identifier. *)
Theorem unitId_explicit_or_surrogate :
  forall ead l pm,
    Ead.title (Ead.extractMetadataFromLevel ead (Some l) pm) <> "" ->
    (forall u,
        XPath.get
          (XPath.step (XPath.child ead) (XPath.named ead Ead.ns "unitid")
             (XPath.step (XPath.child ead) (XPath.named ead Ead.ns "did") [l]))
        = Some u ->
        Ead.unitId (Ead.extractMetadataFromLevel ead (Some l) pm)
        = Some (Str.trim (Ead.textAt ead u)))
    /\ (hasExplicitUnitId ead l = false ->
        Ead.unitId (Ead.extractMetadataFromLevel ead (Some l) pm)
        = Some (Md5.md5_hex (Ead.title (Ead.extractMetadataFromLevel ead (Some l) pm)))
        /\ String.length
             (Md5.md5_hex (Ead.title (Ead.extractMetadataFromLevel ead (Some l) pm)))
           = 32
        /\ forall ead' l' pm',
            hasExplicitUnitId ead' l' = false ->
            Ead.title (Ead.extractMetadataFromLevel ead' (Some l') pm')
            = Ead.title (Ead.extractMetadataFromLevel ead (Some l) pm) ->
            Ead.unitId (Ead.extractMetadataFromLevel ead' (Some l') pm')
            = Ead.unitId (Ead.extractMetadataFromLevel ead (Some l) pm)).
Proof.
  assert (Hsur : forall ead l pm,
             Ead.title (Ead.extractMetadataFromLevel ead (Some l) pm) <> "" ->
             hasExplicitUnitId ead l = false ->
             Ead.unitId (Ead.extractMetadataFromLevel ead (Some l) pm)
             = Some (Md5.md5_hex
                       (Ead.title (Ead.extractMetadataFromLevel ead (Some l) pm)))).
  { intros ead l pm Ht Hno. rewrite record_title in *. rewrite record_unitId.
    unfold Ead.extractUnitId. apply String.eqb_neq in Ht. rewrite Ht.
    unfold hasExplicitUnitId in Hno.
    destruct (XPath.get _); [discriminate|reflexivity]. }
  intros ead l pm Ht. split.
  - intros u Hu. rewrite record_title in Ht. rewrite record_unitId.
    unfold Ead.extractUnitId. apply String.eqb_neq in Ht. rewrite Ht, Hu.
    reflexivity.
  - intro Hno. split; [exact (Hsur ead l pm Ht Hno)|].
    split; [apply md5_hex_length|].
    intros ead' l' pm' Hno' Heq.
    rewrite (Hsur ead l pm Ht Hno), (Hsur ead' l' pm') by congruence.
    rewrite Heq. reflexivity.
Qed.

Lemma unitId_explicit_or_surrogate_witness :
  Ead.unitId (Ead.extractMetadataFromLevel fonds_d (Some [0; 1; 2; 0]) None)
  = Some (Str.trim (Ead.textAt fonds_d [0; 1; 2; 0; 0; 0]))
  /\ Ead.unitId (Ead.extractMetadataFromLevel fonds_a (Some [0; 0]) None)
     = Some (Md5.md5_hex
               (Ead.title (Ead.extractMetadataFromLevel fonds_a (Some [0; 0]) None))).
Proof.
  split.
  - refine (proj1 (unitId_explicit_or_surrogate fonds_d [0; 1; 2; 0] None _)
              [0; 1; 2; 0; 0; 0] eq_refl).
    vm_compute. discriminate.
  - refine (proj1 (proj2 (unitId_explicit_or_surrogate fonds_a [0; 0] None _)
                     eq_refl)).
    vm_compute. discriminate.
Defined.

Lemma title_before :
  forall ead l pm, Ead.title (Ead.extractFormats ead l Ead.blank pm) = "No title".
Proof. intros. unfold Ead.extractFormats. split_matches; reflexivity. Qed.

(** X8: a record has the empty title only when its level has a title
    element whose text is white space; such a record gets no identifier at
    all, not even a derived one, and its flag [unitIdIsInventoryNumber]
    keeps the initial value true. *)
Theorem blank_title_has_no_identifier :
  forall ead l pm,
    Ead.title (Ead.extractMetadataFromLevel ead (Some l) pm) = "" ->
    (exists t,
        XPath.get
          (XPath.step (XPath.child ead) (XPath.named ead Ead.ns "unittitle")
             (XPath.step (XPath.child ead) (XPath.named ead Ead.ns "did") [l]))
        = Some t
        /\ Str.trim (Ead.textAt ead t) = "")
    /\ Ead.unitId (Ead.extractMetadataFromLevel ead (Some l) pm) = None
    /\ Ead.unitIdIsInventoryNumber (Ead.extractMetadataFromLevel ead (Some l) pm)
       = true.
Proof.
  intros ead l pm Ht. split; [|split].
  - rewrite record_title in Ht. unfold Ead.extractTitle in Ht.
    destruct (XPath.get _) as [t|].
    + exists t. split; [reflexivity|exact Ht].
    + rewrite title_before in Ht. discriminate.
  - rewrite record_title in Ht. rewrite record_unitId.
    unfold Ead.extractUnitId. rewrite Ht. simpl. apply unitId_before.
  - apply flag_of_empty_title. exact Ht.
Qed.

Lemma blank_title_has_no_identifier_witness :
  Ead.unitId
    (Ead.extractMetadataFromLevel fonds_f (Some [0; 0; 1; 0])
       (Some (Ead.extractMetadataFromLevel fonds_f (Some [0; 0]) None))) = None
  /\ Ead.unitIdIsInventoryNumber
       (Ead.extractMetadataFromLevel fonds_f (Some [0; 0; 1; 0])
          (Some (Ead.extractMetadataFromLevel fonds_f (Some [0; 0]) None))) = true.
Proof.
  exact (proj2 (blank_title_has_no_identifier fonds_f [0; 0; 1; 0]
                  (Some (Ead.extractMetadataFromLevel fonds_f (Some [0; 0]) None))
                  ltac:(vm_compute; reflexivity))).
Defined.

Lemma str_rev_app :
  forall a b : string, Str.rev (a ++ b)%string = (Str.rev b ++ Str.rev a)%string.
Proof.
  induction a as [|c a IH]; intro b; simpl.
  - rewrite append_nil_r. reflexivity.
  - rewrite IH, append_assoc. reflexivity.
Qed.

Lemma str_rev_involutive : forall s, Str.rev (Str.rev s) = s.
Proof.
  induction s as [|c s IH]; simpl; [reflexivity|].
  rewrite str_rev_app, IH. reflexivity.
Qed.

Lemma dropSpaces_prefix_upto :
  forall back n s,
    String.length s <= n -> exists q, s = (q ++ Str.dropSpaces back s)%string.
Proof.
  intros back n. induction n as [|n IH]; intros s Hn.
  - destruct s; [exists ""; reflexivity|simpl in Hn; lia].
  - destruct s as [|a r1]; [exists ""; reflexivity|].
    cbn [String.length] in Hn. cbn [Str.dropSpaces].
    destruct (Str.is_js_space a).
    { destruct (IH r1 ltac:(lia)) as [q Hq]. exists (String a q).
      simpl. rewrite <- Hq. reflexivity. }
    destruct r1 as [|b r2]; [exists ""; reflexivity|].
    cbn [String.length] in Hn.
    destruct (if back then Str.is_js_space2 b a else Str.is_js_space2 a b).
    { destruct (IH r2 ltac:(lia)) as [q Hq]. exists (String a (String b q)).
      simpl. rewrite <- Hq. reflexivity. }
    destruct r2 as [|c r3]; [exists ""; reflexivity|].
    cbn [String.length] in Hn.
    destruct (if back then Str.is_js_space3 c b a else Str.is_js_space3 a b c).
    { destruct (IH r3 ltac:(lia)) as [q Hq].
      exists (String a (String b (String c q))).
      simpl. rewrite <- Hq. reflexivity. }
    exists "". reflexivity.
Qed.

Lemma dropSpaces_starts_upto :
  forall back n s,
    String.length s <= n -> startsWithSpace back (Str.dropSpaces back s) = false.
Proof.
  intros back n. induction n as [|n IH]; intros s Hn.
  - destruct s; [reflexivity|simpl in Hn; lia].
  - destruct s as [|a r1]; [reflexivity|].
    cbn [String.length] in Hn. cbn [Str.dropSpaces].
    destruct (Str.is_js_space a) eqn:E1; [apply IH; lia|].
    destruct r1 as [|b r2];
      [cbn [startsWithSpace]; rewrite E1; reflexivity|].
    cbn [String.length] in Hn.
    destruct (if back then Str.is_js_space2 b a else Str.is_js_space2 a b) eqn:E2;
      [apply IH; lia|].
    destruct r2 as [|c r3];
      [cbn [startsWithSpace]; rewrite E1, E2; reflexivity|].
    cbn [String.length] in Hn.
    destruct (if back then Str.is_js_space3 c b a else Str.is_js_space3 a b c) eqn:E3;
      [apply IH; lia|].
    cbn [startsWithSpace]. rewrite E1, E2, E3. reflexivity.
Qed.

(** White space at the start of a string is still there when the string is
    continued. *)
Lemma startsWithSpace_app :
  forall back t q,
    startsWithSpace back t = true -> startsWithSpace back (t ++ q)%string = true.
Proof.
  intros back t q H. destruct t as [|a [|b [|c r]]]; cbn [startsWithSpace] in *.
  - discriminate.
  - rewrite orb_false_r in H. cbn [append startsWithSpace]. rewrite H. reflexivity.
  - cbn [append startsWithSpace].
    destruct (Str.is_js_space a); [reflexivity|]. rewrite orb_false_r in H.
    cbn [orb] in *. rewrite H. reflexivity.
  - cbn [append]. cbn [startsWithSpace]. exact H.
Qed.

(** [trim()] leaves no white space at either end. *)
Lemma trim_trimmed :
  forall s, starts_blank (Str.trim s) = false /\ ends_blank (Str.trim s) = false.
Proof.
  intro s. unfold Str.trim, Str.trimEnd, Str.trimStart, ends_blank, starts_blank.
  rewrite str_rev_involutive.
  split; [|exact (dropSpaces_starts_upto true _ _ (Nat.le_refl _))].
  pose proof (dropSpaces_starts_upto false _ s (Nat.le_refl _)) as Hu.
  destruct (dropSpaces_prefix_upto true _
              (Str.rev (Str.dropSpaces false s)) (Nat.le_refl _)) as [q Hq].
  apply (f_equal Str.rev) in Hq. rewrite str_rev_involutive, str_rev_app in Hq.
  destruct (startsWithSpace false
              (Str.rev (Str.dropSpaces true (Str.rev (Str.dropSpaces false s)))))
    eqn:E; [|reflexivity].
  apply (startsWithSpace_app false _ (Str.rev q)) in E.
  rewrite <- Hq in E. congruence.
Qed.

Example trim_samples :
  Str.trim (Str.bytes [194; 160; 65; 114; 99; 104; 105; 101; 102; 194; 160])
  = "Archief"
  /\ Str.trim (Str.bytes [226; 128; 137; 32; 65; 32; 239; 187; 191; 10]) = "A"
  /\ Str.trim (Str.bytes [195; 160]) = Str.bytes [195; 160]
  /\ Str.toLowerCase (Str.bytes [66; 79; 79; 226; 132; 170]) = "book".
Proof. repeat split; reflexivity. Qed.

(** X9: the title of every record of a result has no white space at its
    start or at its end. *)
Theorem getMetadata_titles_are_trimmed :
  forall ead collectionId rs r,
    Ead.getMetadata ead collectionId = Ead.Returns rs ->
    In r rs ->
    starts_blank (Ead.title r) = false /\ ends_blank (Ead.title r) = false.
Proof.
  intros ead cid rs r H Hr.
  destruct (getMetadata_records _ _ _ _ H Hr) as [l [pm ->]].
  rewrite record_title. unfold Ead.extractTitle.
  destruct (XPath.get _) as [t|].
  - apply trim_trimmed.
  - rewrite title_before. split; reflexivity.
Qed.

Lemma getMetadata_titles_are_trimmed_witness :
  starts_blank (Ead.title (Ead.extractMetadataFromLevel fonds_h (Some [0; 0]) None))
  = false
  /\ ends_blank (Ead.title (Ead.extractMetadataFromLevel fonds_h (Some [0; 0]) None))
     = false.
Proof.
  apply (getMetadata_titles_are_trimmed fonds_h "H.1"
           [Ead.extractMetadataFromLevel fonds_h (Some [0; 0]) None]).
  - vm_compute. reflexivity.
  - left. reflexivity.
Defined.

Example no_break_spaces_are_trimmed :
  Ead.title (Ead.extractMetadataFromLevel fonds_h (Some [0; 0]) None) = "Archief"
  /\ Ead.unitId (Ead.extractMetadataFromLevel fonds_h (Some [0; 0]) None)
     = Some (Md5.md5_hex "Archief").
Proof. split; vm_compute; reflexivity. Qed.

(** ** The dispatcher, continued *)










(** The order of the handlers is the order in which the calls complete: of
    two workers the second may be subscribed first. *)
Example workers_complete_in_any_order :
  let first := {| Dispatcher.name := "index"; Dispatcher.runAs := "worker";
                  Dispatcher.type := "index"; Dispatcher.cron := "" |} in
  let second := {| Dispatcher.name := "text"; Dispatcher.runAs := "worker";
                   Dispatcher.type := "text"; Dispatcher.cron := "" |} in
  let c := {| Dispatcher.appInstance := None |} in
  exists p,
    Dispatcher.Steps (Dispatcher.calls c [first; second], Dispatcher.idle) ([], p)
    /\ Dispatcher.taskHandlers p = [("text", "text"); ("index", "index")].
Proof.
  cbv zeta. eexists. split.
  - eapply Dispatcher.Steps_more.
    + exact (Dispatcher.Completes [Dispatcher.CallWorker _] (Dispatcher.CallWorker _)
               [] Dispatcher.idle).
    + eapply Dispatcher.Steps_more; [|apply Dispatcher.Steps_none].
      exact (Dispatcher.Completes [] (Dispatcher.CallWorker _) [] _).
  - reflexivity.
Qed.

(** *** Decimal instance numbers *)

Lemma digit_value_decimal :
  forall d, d < 10 -> Dispatcher.digit_value 10 (digit_char d) = Some (Z.of_nat d).
Proof.
  intros d H. do 10 (destruct d as [|d]; [reflexivity|]). lia.
Qed.

Lemma digits_step :
  forall radix acc c r,
    Dispatcher.digits radix acc (String c r)
    = match Dispatcher.digit_value radix c with
      | Some d =>
          Dispatcher.digits radix
            (Some (match acc with Some a => a * radix + d | None => d end)%Z) r
      | None => acc
      end.
Proof. reflexivity. Qed.

Lemma digits_decimal :
  forall ds acc,
    Forall (fun d => d < 10) ds ->
    Dispatcher.digits 10 (Some acc) (numeral ds) = Some (valueOf acc ds).
Proof.
  induction ds as [|d r IH]; intros acc H; [reflexivity|].
  inversion H as [|? ? Hd Hr]; subst.
  change (numeral (d :: r)) with (String (digit_char d) (numeral r)).
  rewrite digits_step, (digit_value_decimal d Hd). apply IH. exact Hr.
Qed.

(** A string that starts with an ASCII character other than white space
    has no white space at its start. *)
Lemma dropSpaces_ascii :
  forall a r,
    Str.is_js_space a = false -> Nat.ltb (Str.code a) 128 = true ->
    Str.dropSpaces false (String a r) = String a r.
Proof.
  intros a r Hs Ha. apply Nat.ltb_lt in Ha.
  assert (H2 : forall b, Str.is_js_space2 a b = false).
  { intro b. unfold Str.is_js_space2.
    destruct (Nat.eqb_spec (Str.code a) 194); [lia|reflexivity]. }
  assert (H3 : forall b c, Str.is_js_space3 a b c = false).
  { intros b c. unfold Str.is_js_space3. cbv zeta.
    destruct (Nat.eqb_spec (Str.code a) 225); [lia|].
    destruct (Nat.eqb_spec (Str.code a) 226); [lia|].
    destruct (Nat.eqb_spec (Str.code a) 227); [lia|].
    destruct (Nat.eqb_spec (Str.code a) 239); [lia|]. reflexivity. }
  cbn [Str.dropSpaces]. rewrite Hs.
  destruct r as [|b [|c r3]];
    [reflexivity|rewrite H2; reflexivity|rewrite H2, H3; reflexivity].
Qed.

(** The characters before the digits: no white space, no sign, and no
    hexadecimal prefix. *)
Lemma numeral_prefix :
  forall d r,
    d < 10 -> Forall (fun d => d < 10) r ->
    Str.trimStart (numeral (d :: r)) = numeral (d :: r)
    /\ Dispatcher.strip_sign (numeral (d :: r)) = (1%Z, numeral (d :: r))
    /\ Dispatcher.strip_radix (numeral (d :: r)) = (10%Z, numeral (d :: r)).
Proof.
  intros d r Hd Hr.
  change (numeral (d :: r)) with (String (digit_char d) (numeral r)).
  split.
  { unfold Str.trimStart.
    apply dropSpaces_ascii; do 10 (destruct d as [|d]; [reflexivity|]); lia. }
  destruct d as [|d].
  - split; [reflexivity|].
    destruct r as [|d2 r2]; [reflexivity|].
    inversion Hr as [|? ? Hd2 Hr2]; subst.
    change (numeral (d2 :: r2)) with (String (digit_char d2) (numeral r2)).
    do 10 (destruct d2 as [|d2]; [reflexivity|]). lia.
  - do 9 (destruct d as [|d]; [split; reflexivity|]). lia.
Qed.

Lemma parseInt_numeral :
  forall ds,
    ds <> [] -> Forall (fun d => d < 10) ds ->
    Dispatcher.parseInt (numeral ds) = Some (valueOf 0 ds).
Proof.
  intros ds Hne H. destruct ds as [|d r]; [contradiction|].
  inversion H as [|? ? Hd Hr]; subst.
  destruct (numeral_prefix d r Hd Hr) as (Hs & Hg & Hx).
  unfold Dispatcher.parseInt. rewrite Hs, Hg. cbv beta iota. rewrite Hx.
  cbv beta iota.
  change (numeral (d :: r)) with (String (digit_char d) (numeral r)).
  rewrite digits_step, (digit_value_decimal d Hd), (digits_decimal _ _ Hr).
  unfold valueOf. simpl fold_left. f_equal. rewrite Z.mul_1_l. reflexivity.
Qed.

Lemma valueOf_zero_iff :
  forall ds acc,
    (0 <= acc)%Z ->
    (valueOf acc ds = 0%Z <-> acc = 0%Z /\ Forall (fun d => d = 0) ds).
Proof.
  induction ds as [|d r IH]; intros acc Hacc; simpl.
  - split; [auto|tauto].
  - unfold valueOf in *. simpl. rewrite IH by lia. split.
    + intros [H1 H2]. split; [lia|]. constructor; [lia|exact H2].
    + intros [-> H]. inversion H; subst. split; [reflexivity|assumption].
Qed.

(** X11: an instance number written in decimal.  For every non-empty
    string of decimal digits, the process counts as the first instance
    exactly when all its digits are 0: the instances 1, 2, 10, ... start no
    standalone and no cron service, the instances 0 and 00 do. *)
Theorem decimal_instance_is_first_iff_zero :
  forall ds,
    ds <> [] -> Forall (fun d => d < 10) ds ->
    (Dispatcher.firstInstance {| Dispatcher.appInstance := Some (numeral ds) |}
     = true
     <-> Forall (fun d => d = 0) ds).
Proof.
  intros ds Hne H. pose proof (parseInt_numeral ds Hne H) as Hp.
  unfold Dispatcher.firstInstance. simpl. rewrite Hp. rewrite Z.eqb_eq.
  rewrite valueOf_zero_iff by lia. tauto.
Qed.

Lemma decimal_instance_is_first_iff_zero_witness :
  Dispatcher.firstInstance {| Dispatcher.appInstance := Some (numeral [1; 2]) |}
  = true
  <-> Forall (fun d => d = 0) [1; 2].
Proof.
  apply (decimal_instance_is_first_iff_zero [1; 2]).
  - discriminate.
  - repeat constructor.
Defined.

(** ** The NIOD policy, continued *)

(** X12: access never closes again.  With the same item store, an item
    that is open at some time is open at every later time. *)
Theorem niod_open_stays_open :
  forall store now later p,
    (now <= later)%Z ->
    Niod.hasAccess store now p = {| Niod.state := Niod.OPEN |} ->
    Niod.hasAccess store later p = {| Niod.state := Niod.OPEN |}.
Proof.
  intros store now later p Hle. unfold Niod.hasAccess.
  destruct (Niod.collection_id (Niod.item p)); [|auto].
  destruct (String.eqb (Niod.type (Niod.item p)) "metadata"); [auto|].
  destruct (Niod.accessDateOf store (Niod.item p)) as [[ms|]|]; simpl; auto.
  destruct (Z.ltb_spec ms now) as [H1|H1]; [|discriminate].
  intros _. destruct (Z.ltb_spec ms later) as [H2|H2]; [reflexivity|lia].
Qed.

Lemma niod_open_stays_open_witness :
  Niod.hasAccess (niod_store (Some (Niod.DateAt 1000))) 5000
    (niod_params (niod_image "A")) = {| Niod.state := Niod.OPEN |}.
Proof.
  apply (niod_open_stays_open (niod_store (Some (Niod.DateAt 1000))) 1001 5000
           (niod_params (niod_image "A"))).
  - lia.
  - reflexivity.
Defined.

(** X13: an access date that is present but not a valid date closes the
    item for good: an item of a collection that is not a metadata item is
    closed whatever the clock reads. *)
Theorem niod_invalid_date_is_closed :
  forall store now p c,
    Niod.collection_id (Niod.item p) = Some c ->
    Niod.type (Niod.item p) <> "metadata" ->
    Niod.accessDateOf store (Niod.item p) = Some Niod.InvalidDate ->
    Niod.hasAccess store now p = {| Niod.state := Niod.CLOSED |}.
Proof.
  intros store now p c Hc Ht Hd. unfold Niod.hasAccess.
  rewrite Hc, Hd. apply String.eqb_neq in Ht. rewrite Ht. reflexivity.
Qed.

Lemma niod_invalid_date_is_closed_witness :
  Niod.hasAccess (niod_store (Some Niod.InvalidDate)) 99999
    (niod_params (niod_image "A")) = {| Niod.state := Niod.CLOSED |}.
Proof.
  apply (niod_invalid_date_is_closed (niod_store (Some Niod.InvalidDate)) 99999
           (niod_params (niod_image "A")) "A").
  - reflexivity.
  - discriminate.
  - reflexivity.
Defined.

(** ** The texts of the authentication services *)

(** X14: the texts for login and for logout are always returned together;
    the texts of the external service are returned exactly when
    authentication is enabled and the external or the IP access is; with
    authentication disabled nothing is returned; and the item plays no
    part. *)
Theorem getAuthTexts_pairs :
  forall auth login ext ip item,
    let texts := AuthTexts.getAuthTexts auth login ext ip item in
    (AuthTexts.loginTexts texts = Some AuthTexts.login
     /\ AuthTexts.logoutTexts texts = Some AuthTexts.logout
     \/ AuthTexts.loginTexts texts = None /\ AuthTexts.logoutTexts texts = None)
    /\ (AuthTexts.loginTexts texts <> None <-> auth = true /\ login = true)
    /\ (AuthTexts.externalTexts texts = Some AuthTexts.external
        <-> auth = true /\ (ext = true \/ ip = true))
    /\ (AuthTexts.externalTexts texts = None
        <-> ~ (auth = true /\ (ext = true \/ ip = true)))
    /\ forall item', AuthTexts.getAuthTexts auth login ext ip item' = texts.
Proof.
  intros auth login ext ip item.
  destruct auth, login, ext, ip; cbv;
    repeat split; intros; try tauto; try congruence;
      try (left; split; reflexivity); try (right; split; reflexivity);
      intuition congruence.
Qed.

(** ** The base class of the presentation objects *)

Lemma setService_array :
  forall services l,
    fold_left Base.setService services (Base.Arr l) = Base.Arr (l ++ services).
Proof.
  induction services as [|x rest IH]; intro l; simpl.
  - rewrite app_nil_r. reflexivity.
  - rewrite IH, <- app_assoc. reflexivity.
Qed.

(** X15: [setService] keeps every service it was given, in the order of
    the calls, and the shape of the field tells how many there are.  After
    calls with objects on a field that held nothing, the field holds nothing
    for no call, the bare object for one call, and for two or more calls the
    array of the objects in the order of the calls.  A field that held one
    object holds the array of that object and the new ones, and a field that
    held an array holds the array with the new ones appended. *)
Theorem setService_accumulates :
  forall services,
    Forall Base.isObj services ->
    fold_left Base.setService services Base.Undef
    = match services with
      | [] => Base.Undef
      | [service] => service
      | _ => Base.Arr services
      end
    /\ (forall id,
           services <> [] ->
           fold_left Base.setService services (Base.Obj id)
           = Base.Arr (Base.Obj id :: services))
    /\ (forall l,
           fold_left Base.setService services (Base.Arr l)
           = Base.Arr (l ++ services)).
Proof.
  intros services Hs. split; [|split].
  - destruct services as [|x rest]; [reflexivity|].
    inversion Hs as [|? ? Hx Hrest]; subst.
    destruct x as [|id|l]; simpl in Hx; try contradiction.
    destruct rest as [|y rest]; [reflexivity|].
    cbn [fold_left Base.setService]. apply (setService_array rest [Base.Obj id; y]).
  - intros id Hne. destruct services as [|x rest]; [contradiction|].
    cbn [fold_left Base.setService].
    apply (setService_array rest [Base.Obj id; x]).
  - intro l. apply setService_array.
Qed.

Lemma setService_accumulates_witness :
  fold_left Base.setService [Base.Obj "image"] Base.Undef = Base.Obj "image"
  /\ fold_left Base.setService
       [Base.Obj "image"; Base.Obj "login"; Base.Obj "external"] Base.Undef
     = Base.Arr [Base.Obj "image"; Base.Obj "login"; Base.Obj "external"].
Proof.
  split.
  - apply (proj1 (setService_accumulates [Base.Obj "image"]
                    ltac:(repeat constructor))).
  - apply (proj1 (setService_accumulates
                    [Base.Obj "image"; Base.Obj "login"; Base.Obj "external"]
                    ltac:(repeat constructor))).
Defined.

Lemma addRenderings_arrays :
  forall arrays l,
    Forall isArr arrays ->
    addRenderings (Base.Arr l) arrays = Base.Ok (Base.Arr (l ++ flatten arrays)).
Proof.
  induction arrays as [|a rest IH]; intros l H; simpl.
  - rewrite app_nil_r. reflexivity.
  - inversion H as [|? ? Ha Hrest]; subst.
    destruct a as [|id|r]; simpl in Ha; try contradiction.
    simpl. rewrite IH by exact Hrest. rewrite <- app_assoc. reflexivity.
Qed.

(** X16: [addRendering] takes single renderings twice and then no more.
    Starting from a field that holds nothing, one object is stored as it
    is and two objects as an array of the two, but any sequence of three or
    more objects raises a [TypeError], since [push(...rendering)] needs an
    iterable; a sequence of arrays gives the array of all their elements
    in order. *)
Theorem addRendering_sequences :
  (forall renderings,
      Forall Base.isObj renderings ->
      3 <= List.length renderings ->
      addRenderings Base.Undef renderings = Base.TypeError)
  /\ (forall x y,
         Base.isObj x -> Base.isObj y ->
         addRenderings Base.Undef [x] = Base.Ok x
         /\ addRenderings Base.Undef [x; y] = Base.Ok (Base.Arr [x; y]))
  /\ (forall first arrays,
         Forall isArr arrays ->
         addRenderings Base.Undef (Base.Arr first :: arrays)
         = Base.Ok (Base.Arr (first ++ flatten arrays))).
Proof.
  split; [|split].
  - intros rs Hobj Hlen.
    destruct rs as [|x [|y [|z rest]]]; simpl in Hlen; try lia.
    inversion Hobj as [|? ? Hx H1]; subst.
    inversion H1 as [|? ? Hy H2]; subst.
    inversion H2 as [|? ? Hz H3]; subst.
    destruct x; simpl in Hx; try contradiction.
    destruct y; simpl in Hy; try contradiction.
    destruct z; simpl in Hz; try contradiction.
    reflexivity.
  - intros x y Hx Hy.
    destruct x; simpl in Hx; try contradiction.
    destruct y; simpl in Hy; try contradiction.
    split; reflexivity.
  - intros first arrays H. simpl. apply addRenderings_arrays. exact H.
Qed.

Lemma addRendering_sequences_witness :
  addRenderings Base.Undef [Base.Obj "pdf"; Base.Obj "zip"; Base.Obj "txt"]
  = Base.TypeError
  /\ addRenderings Base.Undef
       [Base.Arr [Base.Obj "pdf"]; Base.Arr [Base.Obj "zip"; Base.Obj "txt"]]
     = Base.Ok (Base.Arr ([Base.Obj "pdf"]
                          ++ flatten [Base.Arr [Base.Obj "zip"; Base.Obj "txt"]])).
Proof.
  split.
  - apply (proj1 addRendering_sequences
             [Base.Obj "pdf"; Base.Obj "zip"; Base.Obj "txt"]).
    + repeat constructor.
    + simpl. lia.
  - apply (proj2 (proj2 addRendering_sequences) [Base.Obj "pdf"]
             [Base.Arr [Base.Obj "zip"; Base.Obj "txt"]]).
    repeat constructor.
Defined.

(** [addMetadata] appends the entries that its argument stands for. *)
Lemma addMetadata_entries :
  forall label metadata value,
    Base.addMetadata metadata label value = metadata ++ Base.entries label value.
Proof.
  fix IH 1. intros label metadata value. destruct label as [s|l v|labels].
  - reflexivity.
  - reflexivity.
  - simpl. revert metadata. induction labels as [|md rest IHl]; intro metadata.
    + simpl. rewrite app_nil_r. reflexivity.
    + simpl. rewrite IHl, (IH md metadata None), <- app_assoc. reflexivity.
Qed.

(** X17: [addMetadata] only appends.  The entries held before stay as
    they are, in front; the argument adds one entry per string and per
    label-value object that it holds, however deeply they are nested in
    arrays and in their order; inside an array the value that was passed is
    not used, a string there gets no value. *)
Theorem addMetadata_appends :
  forall metadata label value,
    Base.addMetadata metadata label value = metadata ++ Base.entries label value
    /\ (forall labels,
           label = Base.LArr labels ->
           Base.addMetadata metadata label value
           = Base.addMetadata metadata label None)
    /\ (forall s,
           Base.addMetadata metadata (Base.LArr [Base.LStr s]) value
           = metadata ++ [{| Base.label := s; Base.value := None |}]).
Proof.
  intros metadata label value. split; [apply addMetadata_entries|]. split.
  - intros labels ->. reflexivity.
  - intro s. reflexivity.
Qed.

(** ** The item store *)

Lemma findIndex_bound :
  forall (Item : Type) (p : Item -> bool) l i,
    Items.findIndex Item p l = Some i -> i < List.length l.
Proof.
  intros Item p l. induction l as [|x r IH]; intros i H; [discriminate|].
  simpl in H. destruct (p x).
  - injection H as <-. simpl. lia.
  - destruct (Items.findIndex Item p r) as [j|]; [|discriminate].
    injection H as <-. simpl. specialize (IH j eq_refl). lia.
Qed.

Lemma findIndex_none :
  forall (Item : Type) (p : Item -> bool) l,
    Items.findIndex Item p l = None <-> existsb p l = false.
Proof.
  intros Item p l. induction l as [|x r IH]; simpl; [tauto|].
  destruct (p x); simpl.
  - split; discriminate.
  - destruct (Items.findIndex Item p r); rewrite <- IH; split; congruence.
Qed.

Lemma findIndex_app :
  forall (Item : Type) (p : Item -> bool) pre l,
    Items.findIndex Item p (pre ++ l)
    = match Items.findIndex Item p pre with
      | Some i => Some i
      | None => match Items.findIndex Item p l with
                | Some j => Some (List.length pre + j)
                | None => None
                end
      end.
Proof.
  intros Item p pre l. induction pre as [|x r IH]; simpl.
  - destruct (Items.findIndex Item p l); reflexivity.
  - destruct (p x); [reflexivity|]. rewrite IH.
    destruct (Items.findIndex Item p r); [reflexivity|].
    destruct (Items.findIndex Item p l); reflexivity.
Qed.

Lemma existsb_ext_In :
  forall (k : string) s1 s2,
    (forall z, In z s1 <-> In z s2) ->
    existsb (String.eqb k) s1 = existsb (String.eqb k) s2.
Proof.
  intros k s1 s2 H.
  destruct (existsb (String.eqb k) s1) eqn:E1;
    destruct (existsb (String.eqb k) s2) eqn:E2; try reflexivity; exfalso.
  - apply existsb_exists in E1. destruct E1 as [z [Hz Hk]].
    assert (existsb (String.eqb k) s2 = true); [|congruence].
    apply existsb_exists. exists z. split; [apply H; exact Hz|exact Hk].
  - apply existsb_exists in E2. destruct E2 as [z [Hz Hk]].
    assert (existsb (String.eqb k) s1 = true); [|congruence].
    apply existsb_exists. exists z. split; [apply H; exact Hz|exact Hk].
Qed.

Lemma firstOccurrences_ext :
  forall (Item : Type) (id : Item -> string) items s1 s2,
    (forall z, In z s1 <-> In z s2) ->
    firstOccurrences id s1 items = firstOccurrences id s2 items.
Proof.
  intros Item id items. induction items as [|y r IH]; intros s1 s2 H;
    [reflexivity|].
  simpl. rewrite (existsb_ext_In (id y) s1 s2 H).
  destruct (existsb (String.eqb (id y)) s2); [apply IH; exact H|].
  f_equal. apply IH. intro z. rewrite !in_app_iff, H. tauto.
Qed.

(** The filter over the items from position [length pre] on keeps the
    items whose identifier occurs neither in [pre] nor before them. *)
Lemma uniqueItems_from :
  forall (Item : Type) (id : Item -> string) suf pre,
    map snd
      (filter
         (fun e =>
            match Items.findIndex Item
                    (fun otherItem => String.eqb (id otherItem) (id (snd e)))
                    (pre ++ suf) with
            | Some j => Nat.eqb j (fst e)
            | None => false
            end)
         (combine (seq (List.length pre) (List.length suf)) suf))
    = firstOccurrences id (map id pre) suf.
Proof.
  intros Item id suf. induction suf as [|x r IH]; intro pre; [reflexivity|].
  simpl combine. simpl filter. simpl fst. simpl snd.
  specialize (IH (pre ++ [x])).
  rewrite <- app_assoc, length_app, map_app in IH. simpl in IH.
  replace (List.length pre + 1) with (S (List.length pre)) in IH by lia.
  rewrite findIndex_app. simpl firstOccurrences.
  assert (Hsame : existsb (String.eqb (id x)) (map id pre)
                  = existsb (fun o => String.eqb (id o) (id x)) pre).
  { clear. induction pre as [|y q IHq]; simpl; [reflexivity|].
    rewrite IHq, String.eqb_sym. reflexivity. }
  rewrite Hsame.
  destruct (Items.findIndex Item (fun o => String.eqb (id o) (id x)) pre)
    as [i|] eqn:E.
  - pose proof (findIndex_bound _ _ _ _ E) as Hi.
    assert (Hex : existsb (fun o => String.eqb (id o) (id x)) pre = true).
    { destruct (existsb _ pre) eqn:Ex; [reflexivity|].
      apply findIndex_none in Ex. congruence. }
    rewrite Hex. replace (Nat.eqb i (List.length pre)) with false
      by (symmetry; apply Nat.eqb_neq; lia).
    rewrite IH. apply firstOccurrences_ext. intro z. rewrite in_app_iff.
    split; [|auto]. intros [Hz|[<-|[]]]; [exact Hz|].
    apply existsb_exists in Hex. destruct Hex as [o [Ho Hk]].
    apply String.eqb_eq in Hk. rewrite <- Hk. apply in_map. exact Ho.
  - apply findIndex_none in E. rewrite E. simpl Items.findIndex.
    rewrite String.eqb_refl, Nat.add_0_r, Nat.eqb_refl. simpl map.
    f_equal. exact IH.
Qed.

Lemma firstOccurrences_In :
  forall (Item : Type) (id : Item -> string) items seen x,
    In x (firstOccurrences id seen items) ->
    In x items /\ ~ In (id x) seen.
Proof.
  intros Item id items. induction items as [|y r IH]; intros seen x H;
    [contradiction|].
  simpl in H. destruct (existsb (String.eqb (id y)) seen) eqn:E.
  - destruct (IH _ _ H). split; [right|]; assumption.
  - destruct H as [<-|H].
    + split; [left; reflexivity|]. intro Hin.
      assert (existsb (String.eqb (id y)) seen = true); [|congruence].
      apply existsb_exists. exists (id y). split; [exact Hin|apply String.eqb_refl].
    + destruct (IH _ _ H) as [H1 H2]. split; [right; exact H1|].
      intro Hin. apply H2. apply in_or_app. left. exact Hin.
Qed.

Lemma firstOccurrences_NoDup :
  forall (Item : Type) (id : Item -> string) items seen,
    NoDup (map id (firstOccurrences id seen items)).
Proof.
  intros Item id items. induction items as [|y r IH]; intro seen; simpl;
    [constructor|].
  destruct (existsb (String.eqb (id y)) seen); [apply IH|].
  simpl. constructor; [|apply IH].
  intro H. apply in_map_iff in H. destruct H as [z [Hz Hin]].
  apply firstOccurrences_In in Hin. destruct Hin as [_ Hn]. apply Hn.
  apply in_or_app. right. left. symmetry. exact Hz.
Qed.

Lemma firstOccurrences_covers :
  forall (Item : Type) (id : Item -> string) items seen x,
    In x items -> ~ In (id x) seen ->
    exists y, In y (firstOccurrences id seen items) /\ id y = id x.
Proof.
  intros Item id items. induction items as [|y r IH]; intros seen x Hx Hs;
    [contradiction|].
  simpl. destruct (existsb (String.eqb (id y)) seen) eqn:E.
  - destruct Hx as [->|Hx].
    + exfalso. apply existsb_exists in E. destruct E as [k [Hk Hyk]].
      apply String.eqb_eq in Hyk. subst k. contradiction.
    + apply IH; assumption.
  - destruct (String.eqb_spec (id y) (id x)) as [Heq|Hne].
    + exists y. split; [left; reflexivity|exact Heq].
    + destruct Hx as [->|Hx]; [contradiction|].
      destruct (IH (seen ++ [id y]) x Hx) as [z [Hz1 Hz2]].
      * intro Hin. apply in_app_or in Hin. destruct Hin as [Hin|[Hin|[]]];
          [contradiction|congruence].
      * exists z. split; [right; exact Hz1|exact Hz2].
Qed.

(** X18: the filter with which [updateItems] removes duplicates keeps, of
    the items with the same identifier, the first one and drops the others;
    the order of the items kept is their order in the list.  So no
    identifier is left twice, nothing is made up, and every identifier of
    the list is still there. *)
Theorem uniqueItems_keeps_first :
  forall (Item : Type) (id : Item -> string) items,
    Items.uniqueItems Item id items = firstOccurrences id [] items
    /\ NoDup (map id (Items.uniqueItems Item id items))
    /\ (forall x, In x (Items.uniqueItems Item id items) -> In x items)
    /\ (forall x, In x items ->
                  exists y, In y (Items.uniqueItems Item id items) /\ id y = id x).
Proof.
  intros Item id items.
  assert (E : Items.uniqueItems Item id items = firstOccurrences id [] items)
    by exact (uniqueItems_from Item id items []).
  rewrite E. split; [reflexivity|]. split; [apply firstOccurrences_NoDup|]. split.
  - intros x H. exact (proj1 (firstOccurrences_In _ _ _ _ _ H)).
  - intros x H. apply firstOccurrences_covers; auto.
Qed.

Example uniqueItems_sample :
  Items.uniqueItems _ fst demo_items
  = [("a", "first a"); ("b", "first b"); ("c", "first c")].
Proof. reflexivity. Qed.

(** *** Bulk requests *)

Lemma batches_concat :
  forall (Item : Type) fuel (items : list Item),
    List.length items <= fuel ->
    List.concat (Items.batches Item fuel items) = items.
Proof.
  intros Item fuel. induction fuel as [|fuel IH]; intros items H.
  - destruct items; [reflexivity|simpl in H; lia].
  - destruct items as [|x r]; [reflexivity|].
    cbn [Items.batches List.concat]. rewrite IH.
    + apply firstn_skipn.
    + rewrite length_skipn. simpl in *. lia.
Qed.

Lemma batches_sizes :
  forall (Item : Type) fuel (items : list Item) b,
    In b (Items.batches Item fuel items) ->
    0 < List.length b <= 100.
Proof.
  intros Item fuel. induction fuel as [|fuel IH]; intros items b H;
    [contradiction|].
  destruct items as [|x r]; [contradiction|].
  cbn [Items.batches] in H. destruct H as [<-|H]; [|exact (IH _ _ H)].
  rewrite length_firstn. simpl List.length. lia.
Qed.

Lemma one_more_batch :
  forall n, 0 < n -> S ((n - 100 + 99) / 100) = (n + 99) / 100.
Proof.
  intros n Hn. destruct (Nat.le_gt_cases n 100) as [Hle|Hgt].
  - replace (n - 100 + 99) with 99 by lia.
    rewrite (Nat.div_small 99 100) by lia.
    apply Nat.div_unique with (r := n - 1); lia.
  - replace (n + 99) with ((n - 100 + 99) + 1 * 100) by lia.
    rewrite Nat.div_add by lia. lia.
Qed.

Lemma batches_count :
  forall (Item : Type) fuel (items : list Item),
    List.length items <= fuel ->
    List.length (Items.batches Item fuel items) = (List.length items + 99) / 100.
Proof.
  intros Item fuel. induction fuel as [|fuel IH]; intros items H.
  - destruct items; [reflexivity|simpl in H; lia].
  - destruct items as [|x r]; [reflexivity|].
    cbn [Items.batches].
    change (List.length (firstn 100 (x :: r)
                           :: Items.batches Item fuel (skipn 100 (x :: r))))
      with (S (List.length (Items.batches Item fuel (skipn 100 (x :: r))))).
    rewrite IH.
    + rewrite length_skipn. apply one_more_batch. simpl. lia.
    + rewrite length_skipn. simpl in *. lia.
Qed.

Lemma indexLoop_all_accepted :
  forall (Item : Type) (id : Item -> string) bulk fuel items sent,
    (forall b, In b (Items.batches Item fuel items) ->
               bulk (Items.bulkBody Item id b) = true) ->
    List.length items <= fuel ->
    Items.indexLoop Item id bulk fuel items sent
    = {| Items.failed := None;
         Items.requests := sent ++ map (Items.bulkBody Item id)
                                       (Items.batches Item fuel items);
         Items.remaining := [] |}.
Proof.
  intros Item id bulk fuel. induction fuel as [|fuel IH]; intros items sent Hb H.
  - destruct items; [|simpl in H; lia]. simpl. rewrite app_nil_r. reflexivity.
  - destruct items as [|x r]; [simpl; rewrite app_nil_r; reflexivity|].
    cbn [Items.indexLoop Items.batches map]. cbv zeta.
    rewrite (Hb (firstn 100 (x :: r))) by (cbn [Items.batches]; left; reflexivity).
    rewrite IH.
    + rewrite <- app_assoc. reflexivity.
    + intros b Hin. apply Hb. cbn [Items.batches]. right. exact Hin.
    + rewrite length_skipn. simpl in *. lia.
Qed.

(** X19: [indexItems] sends the items in batches.  When the client accepts
    every request, the requests carry all the items and each item once, in
    their order, an [index] line before each; every request holds at least
    one and at most 100 items, so there are (n + 99) / 100 requests for n
    items; and the caller's array is left empty. *)
Theorem indexItems_batches :
  forall (Item : Type) (id : Item -> string) bulk items,
    let sent := Items.batches Item (List.length items) items in
    (forall b, In b sent -> bulk (Items.bulkBody Item id b) = true) ->
    Items.indexItems Item id bulk items
    = {| Items.failed := None;
         Items.requests := map (Items.bulkBody Item id) sent;
         Items.remaining := [] |}
    /\ List.concat sent = items
    /\ (forall b, In b sent -> 0 < List.length b <= 100)
    /\ List.length sent = (List.length items + 99) / 100.
Proof.
  intros Item id bulk items sent Hb. unfold sent in *. split; [|split; [|split]].
  - unfold Items.indexItems.
    rewrite (indexLoop_all_accepted Item id bulk _ items [] Hb (Nat.le_refl _)).
    reflexivity.
  - apply batches_concat. lia.
  - apply batches_sizes.
  - apply batches_count. lia.
Qed.

Lemma indexItems_batches_witness :
  Items.indexItems _ fst (fun _ => true) demo_items
  = {| Items.failed := None;
       Items.requests :=
         map (Items.bulkBody _ fst)
           (Items.batches _ (List.length demo_items) demo_items);
       Items.remaining := [] |}.
Proof.
  exact (proj1 (indexItems_batches _ fst (fun _ => true) demo_items
                  (fun _ _ => eq_refl))).
Defined.

Lemma indexLoop_conserves :
  forall (Item : Type) (id : Item -> string) bulk fuel items sent,
    List.length items <= fuel ->
    exists done,
      Items.requests Item (Items.indexLoop Item id bulk fuel items sent)
      = sent ++ map (Items.bulkBody Item id) done
      /\ List.concat done
         ++ Items.remaining Item (Items.indexLoop Item id bulk fuel items sent)
         = items
      /\ match Items.failed Item (Items.indexLoop Item id bulk fuel items sent) with
         | None =>
             Items.remaining Item (Items.indexLoop Item id bulk fuel items sent) = []
             /\ Forall (fun b => bulk (Items.bulkBody Item id b) = true) done
         | Some message =>
             message = "Failed to index the items!"
             /\ exists accepted rejected,
                 done = accepted ++ [rejected]
                 /\ Forall (fun b => bulk (Items.bulkBody Item id b) = true) accepted
                 /\ bulk (Items.bulkBody Item id rejected) = false
         end.
Proof.
  intros Item id bulk fuel. induction fuel as [|fuel IH]; intros items sent H.
  - destruct items; [|simpl in H; lia]. exists []. simpl.
    rewrite app_nil_r. auto.
  - destruct items as [|x l].
    + exists []. simpl. rewrite app_nil_r. auto.
    + cbn [Items.indexLoop]. cbv zeta.
      destruct (bulk (Items.bulkBody Item id (firstn 100 (x :: l)))) eqn:Eb.
      * destruct (IH (skipn 100 (x :: l))
                     (sent ++ [Items.bulkBody Item id (firstn 100 (x :: l))]))
          as [done [Hreq [Hcons Hres]]];
          [rewrite length_skipn; simpl in *; lia|].
        exists (firstn 100 (x :: l) :: done). split; [|split].
        -- rewrite Hreq, <- app_assoc. reflexivity.
        -- cbn [List.concat]. rewrite <- app_assoc, Hcons. apply firstn_skipn.
        -- destruct (Items.failed Item _) as [message|].
           ++ destruct Hres as [Hm [acc [rej [Hd [Ha Hr]]]]].
              split; [exact Hm|]. exists (firstn 100 (x :: l) :: acc), rej.
              split; [rewrite Hd; reflexivity|]. split; [|exact Hr].
              constructor; assumption.
           ++ destruct Hres as [Hrem Hall]. split; [exact Hrem|].
              constructor; assumption.
      * exists [firstn 100 (x :: l)]. cbn [Items.requests Items.remaining Items.failed].
        split; [reflexivity|]. split.
        -- cbn [List.concat]. rewrite app_nil_r. apply firstn_skipn.
        -- split; [reflexivity|]. exists [], (firstn 100 (x :: l)).
           split; [reflexivity|]. split; [constructor|exact Eb].
Qed.

(** X20: [indexItems] loses no item silently, and a rejected request stops
    it.  The items of the requests made, followed by the items left in the
    caller's array, are the items it was given.  When it fails, the error is
    "Failed to index the items!" whatever the client's error was, the
    rejected request is the last one made, and its items are gone from the
    caller's array although they were not indexed; when it does not fail,
    every request was accepted and the array is empty. *)
Theorem indexItems_conserves :
  forall (Item : Type) (id : Item -> string) bulk items,
    exists done,
      Items.requests Item (Items.indexItems Item id bulk items)
      = map (Items.bulkBody Item id) done
      /\ List.concat done ++ Items.remaining Item (Items.indexItems Item id bulk items)
         = items
      /\ match Items.failed Item (Items.indexItems Item id bulk items) with
         | None =>
             Items.remaining Item (Items.indexItems Item id bulk items) = []
             /\ Forall (fun b => bulk (Items.bulkBody Item id b) = true) done
         | Some message =>
             message = "Failed to index the items!"
             /\ exists accepted rejected,
                 done = accepted ++ [rejected]
                 /\ Forall (fun b => bulk (Items.bulkBody Item id b) = true) accepted
                 /\ bulk (Items.bulkBody Item id rejected) = false
         end.
Proof.
  intros Item id bulk items. unfold Items.indexItems.
  exact (indexLoop_conserves Item id bulk _ items [] (Nat.le_refl _)).
Qed.

Example indexItems_rejected_sample :
  Items.indexItems _ fst (fun _ => false) demo_items
  = {| Items.failed := Some "Failed to index the items!";
       Items.requests := [Items.bulkBody _ fst demo_items];
       Items.remaining := [] |}.
Proof. reflexivity. Qed.

(** X21: [getCollectionsByMetadataId] names every collection of the items
    found, each once, in the order in which they first occur. *)
Theorem getCollectionsByMetadataId_distinct :
  forall collectionIds,
    NoDup (Items.getCollectionsByMetadataId collectionIds)
    /\ (forall c, In c (Items.getCollectionsByMetadataId collectionIds)
                  <-> In c collectionIds)
    /\ Items.getCollectionsByMetadataId collectionIds
       = firstOccurrences (fun c => c) [] collectionIds.
Proof.
  intro l. unfold Items.getCollectionsByMetadataId. split; [apply uniq_NoDup|].
  split.
  - intro c. rewrite uniq_In. simpl. tauto.
  - assert (H : forall l seen1 seen2,
               (forall z, In z seen1 <-> In z seen2) ->
               Ead.uniq seen1 l = firstOccurrences (fun c : string => c) seen2 l).
    { clear. induction l as [|x r IH]; intros s1 s2 H; [reflexivity|].
      simpl. rewrite (existsb_ext_In x s1 s2 H).
      destruct (existsb (String.eqb x) s2); [apply IH; exact H|].
      f_equal. apply IH. intro z. simpl. rewrite in_app_iff, H. simpl. tauto. }
    apply H. tauto.
Qed.

(** ** The presentation builder *)

Lemma own_push :
  forall acc t k x,
    Presentation.own t (Presentation.push k x acc)
    = if String.eqb t k
      then match Presentation.own k acc with
           | Some v => Some (v ++ [x])
           | None => None
           end
      else Presentation.own t acc.
Proof.
  induction acc as [|[k' v] r IH]; intros t k x; simpl.
  - destruct (String.eqb t k); reflexivity.
  - destruct (String.eqb_spec k k') as [->|Hk]; simpl.
    + destruct (String.eqb_spec t k') as [->|Ht]; reflexivity.
    + destruct (String.eqb_spec t k') as [->|Ht].
      * destruct (String.eqb_spec k' k) as [E|_]; [congruence|reflexivity].
      * apply IH.
Qed.

Lemma own_snoc :
  forall acc t k v,
    Presentation.own t (acc ++ [(k, v)])
    = match Presentation.own t acc with
      | Some w => Some w
      | None => if String.eqb t k then Some v else None
      end.
Proof.
  induction acc as [|[k' w] r IH]; intros t k v; simpl; [reflexivity|].
  destruct (String.eqb t k'); [reflexivity|apply IH].
Qed.

Lemma keys_push :
  forall acc k x, map fst (Presentation.push k x acc) = map fst acc.
Proof.
  induction acc as [|[k' v] r IH]; intros k x; simpl; [reflexivity|].
  destruct (String.eqb k k'); simpl; [reflexivity|]. rewrite IH. reflexivity.
Qed.

Lemma namesOf_snoc :
  forall t done a,
    namesOf t (done ++ [a])
    = namesOf t done ++ (if String.eqb (Ead.type a) t then [Ead.name a] else []).
Proof.
  intros t done a. unfold namesOf. rewrite filter_app, map_app. simpl.
  destruct (String.eqb (Ead.type a) t); reflexivity.
Qed.

Lemma namesOf_nil_iff :
  forall t done,
    namesOf t done = [] <-> existsb (String.eqb t) (map Ead.type done) = false.
Proof.
  intros t done. unfold namesOf. induction done as [|a r IH]; simpl; [tauto|].
  rewrite (String.eqb_sym t). destruct (String.eqb (Ead.type a) t); simpl.
  - split; discriminate.
  - exact IH.
Qed.

Lemma uniq_snoc :
  forall l seen x,
    Ead.uniq seen (l ++ [x])
    = Ead.uniq seen l
      ++ (if orb (existsb (String.eqb x) seen) (existsb (String.eqb x) l)
          then [] else [x]).
Proof.
  induction l as [|y r IH]; intros seen x; simpl.
  - rewrite orb_false_r. destruct (existsb (String.eqb x) seen); reflexivity.
  - destruct (existsb (String.eqb y) seen) eqn:Ey.
    + rewrite IH. f_equal.
      destruct (String.eqb_spec x y) as [->|Hne]; simpl; [|reflexivity].
      rewrite Ey. reflexivity.
    + simpl. rewrite IH. simpl. f_equal. f_equal.
      destruct (String.eqb x y), (existsb (String.eqb x) seen),
        (existsb (String.eqb x) r); reflexivity.
Qed.

(** One author more: the groups stay as described, or the type of the
    author is an inherited name and the callback raises. *)
Lemma addAuthor_grouped :
  forall acc done a,
    grouped acc done ->
    match Presentation.addAuthor acc a with
    | Presentation.Ok acc' => grouped acc' (done ++ [a])
    | Presentation.TypeError => inheritedType a
    end.
Proof.
  intros acc done a (Hown & Hkeys & Hok). unfold Presentation.addAuthor.
  pose proof (Hown (Ead.type a)) as Ha.
  destruct (Presentation.own (Ead.type a) acc) as [v|] eqn:Eo.
  - (* the type has occurred *)
    assert (Hin : existsb (String.eqb (Ead.type a)) (map Ead.type done) = true).
    { destruct (existsb _ (map Ead.type done)) eqn:Ex; [reflexivity|].
      apply namesOf_nil_iff in Ex. rewrite Ex in Ha. discriminate. }
    repeat split.
    + intro t. rewrite own_push, namesOf_snoc, (String.eqb_sym (Ead.type a) t).
      destruct (String.eqb_spec t (Ead.type a)) as [->|Hne].
      * rewrite Eo. destruct (namesOf (Ead.type a) done) as [|n ns];
          [discriminate|]. injection Ha as ->. reflexivity.
      * rewrite app_nil_r. apply Hown.
    + rewrite keys_push, Hkeys, map_app. simpl map. rewrite uniq_snoc, Hin.
      simpl. rewrite app_nil_r. reflexivity.
    + apply Forall_app. split; [exact Hok|]. constructor; [|constructor].
      apply existsb_exists in Hin. destruct Hin as [k [Hk Heq]].
      apply String.eqb_eq in Heq. apply in_map_iff in Hk.
      destruct Hk as [b [Hb Hbin]]. rewrite Forall_forall in Hok.
      specialize (Hok b Hbin). unfold inheritedType in *.
      rewrite Heq, <- Hb. exact Hok.
  - destruct (existsb (String.eqb (Ead.type a)) Presentation.inherited) eqn:Ei;
      [exact Ei|].
    assert (Hnot : existsb (String.eqb (Ead.type a)) (map Ead.type done) = false).
    { apply namesOf_nil_iff. destruct (namesOf (Ead.type a) done);
        [reflexivity|discriminate]. }
    repeat split.
    + intro t. rewrite own_snoc, namesOf_snoc, (String.eqb_sym (Ead.type a) t), Hown.
      destruct (String.eqb_spec t (Ead.type a)) as [->|Hne].
      * destruct (namesOf (Ead.type a) done); [reflexivity|discriminate Ha].
      * rewrite app_nil_r. destruct (namesOf t done); reflexivity.
    + rewrite !map_app. simpl map. rewrite uniq_snoc, Hnot, Hkeys. reflexivity.
    + apply Forall_app. split; [exact Hok|]. constructor; [|constructor].
      unfold inheritedType. rewrite Ei. discriminate.
Qed.

Lemma reduceAuthors_grouped :
  forall authors acc done,
    grouped acc done ->
    match Presentation.reduceAuthors acc authors with
    | Presentation.Ok o => grouped o (done ++ authors)
    | Presentation.TypeError => Exists inheritedType authors
    end.
Proof.
  induction authors as [|a r IH]; intros acc done H; simpl.
  - rewrite app_nil_r. exact H.
  - pose proof (addAuthor_grouped acc done a H) as Ha.
    destruct (Presentation.addAuthor acc a) as [acc'|].
    + specialize (IH acc' (done ++ [a]) Ha). rewrite <- app_assoc in IH.
      destruct (Presentation.reduceAuthors acc' r); [exact IH|].
      right. exact IH.
    + left. exact Ha.
Qed.

Lemma insertIndex_perm :
  forall e l, Permutation (Presentation.insertIndex e l) (e :: l).
Proof.
  intros e l. induction l as [|x r IH]; simpl; [reflexivity|].
  destruct (fst e <=? fst x)%Z; [reflexivity|].
  rewrite IH. apply perm_swap.
Qed.

Lemma ownProperties_perm :
  forall o, Permutation (Presentation.ownProperties o) o.
Proof.
  intro o. unfold Presentation.ownProperties.
  assert (Hsort : forall l, Permutation (fold_right Presentation.insertIndex [] l) l).
  { induction l as [|e r IH]; simpl; [reflexivity|].
    rewrite insertIndex_perm, IH. reflexivity. }
  rewrite (Permutation_map snd (Hsort (Presentation.indexed o))).
  induction o as [|e r IH]; [reflexivity|].
  unfold Presentation.named in *. simpl.
  destruct (Presentation.arrayIndex (fst e)); simpl.
  - apply perm_skip. exact IH.
  - symmetry. apply Permutation_cons_app. symmetry. exact IH.
Qed.

Lemma own_In :
  forall o t v,
    NoDup (map fst o) ->
    (In (t, v) o <-> Presentation.own t o = Some v).
Proof.
  induction o as [|[k w] r IH]; intros t v Hnd; simpl.
  - split; [contradiction|discriminate].
  - inversion Hnd as [|? ? Hk Hr]; subst.
    destruct (String.eqb_spec t k) as [->|Hne].
    + split.
      * intros [E|Hin]; [congruence|]. exfalso. apply Hk.
        apply in_map_iff. exists (k, v). auto.
      * intro E. left. congruence.
    + rewrite <- (IH t v Hr). split.
      * intros [E|Hin]; [congruence|exact Hin].
      * auto.
Qed.

Lemma no_index_keys :
  forall o,
    (forall e, In e o -> Presentation.arrayIndex (fst e) = None) ->
    Presentation.indexed o = [] /\ Presentation.named o = o.
Proof.
  induction o as [|e r IH]; intro H; [split; reflexivity|].
  destruct (IH (fun x Hx => H x (or_intror Hx))) as [Hi Hn].
  unfold Presentation.named in *. simpl.
  rewrite (H e (or_introl eq_refl)), Hi, Hn. split; reflexivity.
Qed.

(** X22: how [addMetadata] groups the authors.  If no author has a type
    that is the name of a property of [Object.prototype], there is one call
    of [setMetadata] per type, with the names of the authors of that type in
    the order of the list and never with an empty list; when no type is an
    array index the calls come in the order in which the types first occur.
    If some author has such a type (constructor, toString, ...), the
    callback raises a [TypeError]: the inherited property is truthy and has
    no [push]. *)
Theorem authorMetadata_groups :
  forall authors,
    match Presentation.authorMetadata authors with
    | Presentation.Ok calls =>
        Forall (fun a => ~ inheritedType a) authors
        /\ NoDup (map fst calls)
        /\ (forall t names,
               In (t, names) calls
               <-> names = namesOf t authors /\ names <> [])
        /\ ((forall a, In a authors -> Presentation.arrayIndex (Ead.type a) = None) ->
            map fst calls = Ead.uniq [] (map Ead.type authors))
    | Presentation.TypeError => Exists inheritedType authors
    end.
Proof.
  intro authors. unfold Presentation.authorMetadata.
  destruct authors as [|a0 rest].
  { split; [constructor|]. split; [constructor|]. split; [|reflexivity].
    intros t names. simpl. split; [contradiction|]. intros [-> Hne]. apply Hne. reflexivity. }
  assert (Hinit : grouped [] []) by (repeat split; constructor).
  pose proof (reduceAuthors_grouped (a0 :: rest) [] [] Hinit) as H.
  destruct (Presentation.reduceAuthors [] (a0 :: rest)) as [o|]; [|exact H].
  rewrite app_nil_l in H. destruct H as (Hown & Hkeys & Hok).
  assert (Hnd : NoDup (map fst o)) by (rewrite Hkeys; apply uniq_NoDup).
  pose proof (ownProperties_perm o) as Hperm.
  split; [exact Hok|]. split; [|split].
  - apply (Permutation_NoDup (l := map fst o)); [|exact Hnd].
    symmetry. apply Permutation_map. exact Hperm.
  - intros t names. split.
    + intro Hin. apply (Permutation_in _ Hperm) in Hin.
      apply (own_In o t names Hnd) in Hin. rewrite Hown in Hin.
      destruct (namesOf t (a0 :: rest)); [discriminate|].
      injection Hin as <-. split; [reflexivity|discriminate].
    + intros [-> Hne]. apply (Permutation_in _ (Permutation_sym Hperm)).
      apply (own_In o t _ Hnd). rewrite Hown.
      destruct (namesOf t (a0 :: rest)); [contradiction|reflexivity].
  - intro Hno. rewrite <- Hkeys. f_equal.
    unfold Presentation.ownProperties.
    assert (Hall : forall e, In e o -> Presentation.arrayIndex (fst e) = None).
    { intros [k v] Hin. simpl.
      assert (Hk : In k (map fst o)) by (apply in_map_iff; exists (k, v); auto).
      rewrite Hkeys in Hk. apply uniq_In in Hk. destruct Hk as [Hk _].
      apply in_map_iff in Hk. destruct Hk as [a [<- Hain]]. apply Hno. exact Hain. }
    rewrite (proj1 (no_index_keys o Hall)), (proj2 (no_index_keys o Hall)).
    reflexivity.
Qed.

Example authorMetadata_samples :
  Presentation.authorMetadata demo_authors
  = Presentation.Ok [("Author", ["A. Jansen"; "C. Bakker"]);
                     ("Photographer", ["B. de Vries"])]
  /\ Presentation.authorMetadata
       [{| Ead.type := "constructor"; Ead.name := "D. Smit" |}]
     = Presentation.TypeError
  /\ Presentation.authorMetadata
       [{| Ead.type := "b"; Ead.name := "x" |}; {| Ead.type := "10"; Ead.name := "y" |};
        {| Ead.type := "2"; Ead.name := "z" |}]
     = Presentation.Ok [("2", ["z"]); ("10", ["y"]); ("b", ["x"])].
Proof. repeat split. Qed.

Lemma authorMetadata_groups_witness :
  match Presentation.authorMetadata demo_authors with
  | Presentation.Ok calls =>
      Forall (fun a => ~ inheritedType a) demo_authors
      /\ NoDup (map fst calls)
      /\ (forall t names,
             In (t, names) calls
             <-> names = namesOf t demo_authors /\ names <> [])
      /\ ((forall a, In a demo_authors -> Presentation.arrayIndex (Ead.type a) = None) ->
          map fst calls = Ead.uniq [] (map Ead.type demo_authors))
  | Presentation.TypeError => Exists inheritedType demo_authors
  end.
Proof. exact (authorMetadata_groups demo_authors). Defined.

(** ** The configuration *)

Lemma split_parts_no_sep :
  forall sep s w, In w (Str.split sep s) -> Str.mem_char sep w = false.
Proof.
  intros sep s. induction s as [|c r IH]; intros w H.
  - destruct H as [<-|[]]. reflexivity.
  - simpl in H. destruct (Ascii.eqb c sep) eqn:E.
    + destruct H as [<-|H]; [reflexivity|apply IH; exact H].
    + destruct (Str.split sep r) as [|w0 ws] eqn:Es;
        [exfalso; exact (split_not_nil _ _ Es)|].
      destruct H as [<-|H].
      * simpl. rewrite Ascii.eqb_sym, E. apply IH. left. reflexivity.
      * apply IH. right. exact H.
Qed.

(** X23: the list of services.  [services] throws "services is not
    defined" exactly when the variable is unset, empty or the word null;
    otherwise it gives a list that is never empty, whose names hold no comma
    and which, joined with commas, is the value of the variable again. *)
Theorem config_services_round_trip :
  forall v,
    match Config.services v with
    | Config.Ok names =>
        names <> []
        /\ (forall name, In name names -> Str.mem_char "," name = false)
        /\ exists s, v = Some s /\ Str.join "," names = s
                     /\ s <> "" /\ s <> "null"
    | Config.Throws message =>
        message = "services is not defined"
        /\ (v = None \/ v = Some "" \/ v = Some "null")
    end.
Proof.
  intro v. unfold Config.services. destruct v as [s|]; [|auto].
  destruct (String.eqb_spec s "") as [->|Hne]; [simpl; auto|].
  destruct (String.eqb_spec s "null") as [->|Hnn]; [simpl; auto|].
  simpl. split; [apply split_not_nil|]. split; [apply split_parts_no_sep|].
  exists s. repeat split; auto. apply (split_join ","%char).
Qed.

(** X24: the port.  The configured port is never negative.  It is 3333
    when the variable is unset, when it does not start with a number and
    when the number is negative; a decimal numeral (below 2^53, where
    numbers are exact) gives the number it denotes, with no limit at 65535,
    so that 70000 is taken as it is. *)
Theorem config_port_bounds :
  forall v,
    (0 <= Config.port v)%Z
    /\ Config.port None = 3333%Z
    /\ (Config.parseIntEnv v = None -> Config.port v = 3333%Z)
    /\ (forall n, Config.parseIntEnv v = Some n -> (n < 0)%Z ->
                  Config.port v = 3333%Z)
    /\ (forall ds,
           ds <> [] -> Forall (fun d => d < 10) ds ->
           (valueOf 0 ds < 2 ^ 53)%Z ->
           v = Some (numeral ds) ->
           Config.port v = valueOf 0 ds).
Proof.
  intro v. unfold Config.port. split; [|split; [|split; [|split]]].
  - destruct (Config.parseIntEnv v) as [n|]; [|lia].
    destruct (Z.leb_spec 0 n); lia.
  - reflexivity.
  - intros ->. reflexivity.
  - intros n -> Hn. destruct (Z.leb_spec 0 n); [lia|reflexivity].
  - intros ds Hne Hd _ ->. unfold Config.parseIntEnv.
    rewrite (parseInt_numeral ds Hne Hd).
    assert (Hpos : forall l acc, (0 <= acc)%Z -> (0 <= valueOf acc l)%Z).
    { induction l as [|d r IH]; intros acc Hacc; [exact Hacc|].
      unfold valueOf in *. simpl. apply IH. lia. }
    destruct (Z.leb_spec 0 (valueOf 0 ds)) as [_|Hneg]; [reflexivity|].
    specialize (Hpos ds 0%Z). lia.
Qed.

Lemma config_port_bounds_witness :
  Config.port (Some (numeral [7; 0; 0; 0; 0])) = valueOf 0 [7; 0; 0; 0; 0]
  /\ Config.port (Some "-80") = 3333%Z
  /\ Config.port (Some "http") = 3333%Z.
Proof.
  split; [|split].
  - apply (proj2 (proj2 (proj2 (proj2 (config_port_bounds
                                         (Some (numeral [7; 0; 0; 0; 0])))))) 
             [7; 0; 0; 0; 0]).
    + discriminate.
    + repeat constructor.
    + reflexivity.
    + reflexivity.
  - apply (proj1 (proj2 (proj2 (proj2 (config_port_bounds (Some "-80"))))) (-80)%Z).
    + reflexivity.
    + lia.
  - apply (proj1 (proj2 (proj2 (config_port_bounds (Some "http"))))).
    reflexivity.
Defined.
